(** * Resilient external-call core of the ShopSmart services

    A shallow embedding of the retry, circuit-breaker and service-discovery
    code of the ShopSmart demo services, and the properties it satisfies.

    Sources embedded here:
    - [services/auth/error_handler.py] and
      [services/order-processing/error_handler.py]: the [ServiceError]
      hierarchy, [CircuitBreaker], [DynamoDBManager], [MongoDBManager],
      [ExternalServiceManager];
    - [services/product-catalog/error_handler.py]: [RetryConfig],
      [CacheManager.set_with_retry];
    - [services/order-processing/services/http_client.py]:
      [HTTPClientService._make_request];
    - [services/order-processing/services/service_discovery.py]:
      [ServiceDiscovery].

    Conventions.  Python [int]s are [Z].  A [datetime] is the number of
    microseconds since the epoch (the resolution of Python's [datetime]), so
    [timedelta.total_seconds() >= n] for an integer [n] reads
    [n * 1000000 <= delta].  Python [float]s that hold delays are exact
    rationals ([Q]).  A Python call either returns a value or raises; this is
    the [Outcome] type.  The outside world (clock, database, network) is an
    abstract state that an awaited operation may change. *)

From Stdlib Require Import ZArith QArith Lia Ascii String.
From stdpp Require Import gmap strings list pretty.

Open Scope Z_scope.

(** ** Python values and exceptions *)

Module Py.

(** Values stored in the [details] dictionary of a [ServiceError]. *)
Inductive Value :=
| VNone
| VStr (s : string)
| VInt (z : Z)
| VList (l : list string).

(** The [ServiceError] classes of the three [error_handler.py] modules. *)
Inductive ServiceClass :=
| ServiceError
| DynamoDBError
| MongoDBError
| AuthenticationError
| AuthorizationError
| ValidationError
| NotFoundError
| ConflictError
| RateLimitError
| BusinessLogicError
| ExternalServiceError
| PaymentError
| InventoryError.

#[global] Instance ServiceClass_eq_dec : EqDecision ServiceClass.
Proof. solve_decision. Defined.

(** The fields set by [ServiceError.__init__]. *)
Record ServiceErrorData := {
  message : string;
  code : string;
  status_code : Z;
  details : gmap string Value
}.

(** The [pymongo.errors] classes named by [MongoDBManager]. *)
Inductive MongoClass :=
| PyMongoError
| ConnectionFailure
| ServerSelectionTimeoutError
| OperationFailure
| WriteError
| DuplicateKeyError.

(** [e.code] and [e.details] of a pymongo error; [details] may be [None].
    [keyValue] holds [str()] of the entry. *)
Record MongoDetails := {
  keyValue : option string;
  errorLabels : option (list string)
}.

Record MongoErrorData := {
  mongo_code : option Z;
  mongo_details : option MongoDetails;
  mongo_text : string
}.

(** [e.response] of a botocore [ClientError], as far as the code reads
    it.  [response['Error']] may be missing, and so may its ['Code'] and
    ['Message']; what is present has the type botocore gives it (a dict,
    a string).  [resp_RequestId] is
    [response.get('ResponseMetadata', {}).get('RequestId')]. *)
Record ErrorEntry := {
  Code : option string;
  Message : option string
}.

Record ClientResponse := {
  resp_Error : option ErrorEntry;
  resp_RequestId : option string
}.

(** The response of a service error as botocore parses it:
    [{'Error': {'Code': code, 'Message': msg},
      'ResponseMetadata': {'RequestId': rid}}]. *)
Definition error_response (error_code error_message : string)
    (rid : option string) : ClientResponse :=
  {| resp_Error := Some {| Code := Some error_code;
                           Message := Some error_message |};
     resp_RequestId := rid |}.

(** Exceptions an awaited operation can raise.  [text] is [str(e)]. *)
Inductive Exc :=
| Service (cls : ServiceClass) (d : ServiceErrorData)
| ClientError (response : ClientResponse) (text : string)
| BotoCoreError (text : string)
| Mongo (cls : MongoClass) (d : MongoErrorData)
| AttributeError (text : string)
| OtherException (type_name text : string)
| OtherBaseException (type_name text : string).

(** What an [except] clause can name. *)
Inductive ExcType :=
| TException
| TService (c : ServiceClass).

Definition service_subclass (c parent : ServiceClass) : bool :=
  match parent with
  | ServiceError => true
  | _ => bool_decide (c = parent)
  end.

Definition isinstance (e : Exc) (t : ExcType) : bool :=
  match t, e with
  | TException, OtherBaseException _ _ => false
  | TException, _ => true
  | TService parent, Service c _ => service_subclass c parent
  | TService _, _ => false
  end.

(** pymongo's hierarchy: [DuplicateKeyError < WriteError <
    OperationFailure < PyMongoError] and [ServerSelectionTimeoutError <
    AutoReconnect < ConnectionFailure < PyMongoError]. *)
Definition mongo_subclass (c parent : MongoClass) : bool :=
  match parent, c with
  | PyMongoError, _ => true
  | ConnectionFailure, (ConnectionFailure | ServerSelectionTimeoutError) => true
  | ServerSelectionTimeoutError, ServerSelectionTimeoutError => true
  | OperationFailure, (OperationFailure | WriteError | DuplicateKeyError) => true
  | WriteError, (WriteError | DuplicateKeyError) => true
  | DuplicateKeyError, DuplicateKeyError => true
  | _, _ => false
  end.

(** [str(e)]. *)
Definition str (e : Exc) : string :=
  match e with
  | Service _ d => message d
  | ClientError _ text => text
  | BotoCoreError text => text
  | Mongo _ d => mongo_text d
  | AttributeError text => text
  | OtherException _ text => text
  | OtherBaseException _ text => text
  end.

(** [ServiceError(message, code, status_code, details)]:
    [self.details = details or {}]. *)
Definition new_ServiceError (cls : ServiceClass) (msg c : string) (status : Z)
    (det : option (gmap string Value)) : Exc :=
  Service cls {| message := msg; code := c; status_code := status;
                 details := default ∅ det |}.

Definition new_DynamoDBError msg det :=
  new_ServiceError DynamoDBError msg "DYNAMODB_ERROR" 503 det.
Definition new_MongoDBError msg det :=
  new_ServiceError MongoDBError msg "MONGODB_ERROR" 503 det.
Definition new_ValidationError msg det :=
  new_ServiceError ValidationError msg "VALIDATION_ERROR" 400 det.
Definition new_NotFoundError msg det :=
  new_ServiceError NotFoundError msg "NOT_FOUND" 404 det.
Definition new_ConflictError msg det :=
  new_ServiceError ConflictError msg "CONFLICT" 409 det.
Definition new_RateLimitError msg det :=
  new_ServiceError RateLimitError msg "RATE_LIMIT_EXCEEDED" 429 det.

(** [ExternalServiceError.__init__]: the service name is written into
    [details] before the base constructor runs. *)
Definition new_ExternalServiceError msg (service_name : string)
    (det : option (gmap string Value)) :=
  new_ServiceError ExternalServiceError msg "EXTERNAL_SERVICE_ERROR" 502
    (Some (<["service_name" := VStr service_name]> (default ∅ det))).

(** [KeyError(key)], as a failed [d[key]] raises it: [str(e)] is the
    [repr] of the key. *)
Definition new_KeyError (key : string) : Exc :=
  OtherException "KeyError" ("'" +:+ key +:+ "'").

(** A call returns or raises. *)
Inductive Outcome (A : Type) :=
| Return (a : A)
| Raise (e : Exc).
Arguments Return {A} a.
Arguments Raise {A} e.

End Py.

(** ** [CircuitBreaker] ([error_handler.py], identical in the three services) *)

Module Breaker.
Import Py.

Inductive State := CLOSED | OPEN | HALF_OPEN.

#[global] Instance State_eq_dec : EqDecision State.
Proof. solve_decision. Defined.

Record CircuitBreaker := {
  failure_threshold : Z;
  recovery_timeout : Z;
  expected_exception : ExcType;
  failure_count : Z;
  last_failure_time : option Z;
  state : State
}.

(** [CircuitBreaker.__init__]. *)
Definition init (threshold timeout : Z) (expected : ExcType) : CircuitBreaker :=
  {| failure_threshold := threshold;
     recovery_timeout := timeout;
     expected_exception := expected;
     failure_count := 0;
     last_failure_time := None;
     state := CLOSED |}.

Definition set_state (s : State) (cb : CircuitBreaker) : CircuitBreaker :=
  {| failure_threshold := failure_threshold cb;
     recovery_timeout := recovery_timeout cb;
     expected_exception := expected_exception cb;
     failure_count := failure_count cb;
     last_failure_time := last_failure_time cb;
     state := s |}.

(** [(now - t).total_seconds() >= seconds]. *)
Definition total_seconds_ge (now t seconds : Z) : bool :=
  seconds * 1000000 <=? now - t.

Definition _should_attempt_reset (cb : CircuitBreaker) (now : Z) : bool :=
  match last_failure_time cb with
  | None => true
  | Some t => total_seconds_ge now t (recovery_timeout cb)
  end.

Definition _on_success (cb : CircuitBreaker) : CircuitBreaker :=
  {| failure_threshold := failure_threshold cb;
     recovery_timeout := recovery_timeout cb;
     expected_exception := expected_exception cb;
     failure_count := 0;
     last_failure_time := last_failure_time cb;
     state := CLOSED |}.

Definition _on_failure (cb : CircuitBreaker) (now : Z) : CircuitBreaker :=
  let count := failure_count cb + 1 in
  {| failure_threshold := failure_threshold cb;
     recovery_timeout := recovery_timeout cb;
     expected_exception := expected_exception cb;
     failure_count := count;
     last_failure_time := Some now;
     state := if failure_threshold cb <=? count then OPEN else state cb |}.

(** The error raised while the circuit is open. *)
Definition circuit_open_error (cb : CircuitBreaker) : Exc :=
  new_ServiceError ServiceError "Service temporarily unavailable"
    "CIRCUIT_BREAKER_OPEN" 503
    (Some {["retry_after" := VInt (recovery_timeout cb)]}).

(** The head of [call]: the [if self.state == 'OPEN'] block.  [None] is
    the rejection; [Some cb'] is the breaker the operation is dispatched
    under. *)
Definition on_entry (cb : CircuitBreaker) (now : Z) : option CircuitBreaker :=
  match state cb with
  | OPEN =>
      if _should_attempt_reset cb now then Some (set_state HALF_OPEN cb)
      else None
  | _ => Some cb
  end.

(** The [try] block of [call] once the awaited function has finished with
    outcome [r], the clock then reading [now]. *)
Definition settle {A} (cb : CircuitBreaker) (r : Outcome A) (now : Z)
    : CircuitBreaker :=
  match r with
  | Return _ => _on_success cb
  | Raise e =>
      if isinstance e (expected_exception cb) then _on_failure cb now
      else cb
  end.

(** The configuration of a breaker never changes. *)
Definition same_config (cb cb' : CircuitBreaker) : Prop :=
  failure_threshold cb' = failure_threshold cb /\
  recovery_timeout cb' = recovery_timeout cb /\
  expected_exception cb' = expected_exception cb.

(** The property every reachable breaker has. *)
Definition open_inv (cb : CircuitBreaker) : Prop :=
  state cb = OPEN ->
  is_Some (last_failure_time cb) /\ failure_threshold cb <= failure_count cb.

Section Call.
(** [W] is the state of the world the operation acts on; [utcnow] reads
    its clock. *)
Context {W A : Type}.
Variable utcnow : W -> Z.

Definition Operation := W -> Outcome A * W.

Record CallResult := {
  outcome : Outcome A;
  breaker : CircuitBreaker;
  invocations : nat;
  world : W
}.

Definition call (cb : CircuitBreaker) (func : Operation) (w : W)
    : CallResult :=
  match on_entry cb (utcnow w) with
  | None =>
      {| outcome := Raise (circuit_open_error cb);
         breaker := cb; invocations := 0; world := w |}
  | Some cb1 =>
      let '(r, w') := func w in
      {| outcome := r; breaker := settle cb1 r (utcnow w');
         invocations := 1; world := w' |}
  end.

(** Successive guarded calls on one breaker; each call finds the world
    in some state of its own. *)
Fixpoint calls (cb : CircuitBreaker) (steps : list (Operation * W))
    : CircuitBreaker * nat :=
  match steps with
  | [] => (cb, 0%nat)
  | (func, w) :: rest =>
      let r := call cb func w in
      let '(cb', n) := calls (breaker r) rest in
      (cb', (invocations r + n)%nat)
  end.

(** An operation that raises [e] and leaves the world in [w']. *)
Definition raising (e : Exc) (w' : W) : Operation := fun _ => (Raise e, w').

(** An operation that returns [a] and leaves the world in [w']. *)
Definition returning (a : A) (w' : W) : Operation := fun _ => (Return a, w').

(** The failures of consecutive failing calls: the world each call
    starts in, the exception raised, the world it leaves. *)
Definition failing_steps (fails : list (W * Exc * W))
    : list (Operation * W) :=
  map (fun '(w, e, w') => (raising e w', w)) fails.

Definition all_counted (cb : CircuitBreaker) (fails : list (W * Exc * W)) : bool :=
  forallb (fun '(_, e, _) => isinstance e (expected_exception cb)) fails.

End Call.

Arguments CallResult : clear implicits.
Arguments Operation : clear implicits.

End Breaker.

(** ** [RetryConfig] ([error_handler.py], identical in the three services) *)

Module Retry.

Record RetryConfig := {
  max_attempts : Z;
  base_delay : Q;
  max_delay : Q;
  exponential_base : Q;
  jitter : bool
}.

(** [RetryConfig()] with the defaults of [__init__]. *)
Definition default : RetryConfig :=
  {| max_attempts := 3; base_delay := 1; max_delay := 60;
     exponential_base := 2; jitter := true |}.

Definition with_attempts_delay (n : Z) (d : Q) : RetryConfig :=
  {| max_attempts := n; base_delay := d; max_delay := 60;
     exponential_base := 2; jitter := true |}.

End Retry.

(** ** [DynamoDBManager] ([services/auth/error_handler.py]) *)

Module Auth.
Import Py Breaker.

Record DynamoDBManager := {
  retry_config : Retry.RetryConfig;
  circuit_breaker : CircuitBreaker
}.

(** [DynamoDBManager.__init__]. *)
Definition init (cfg : option Retry.RetryConfig) : DynamoDBManager :=
  {| retry_config := default Retry.default cfg;
     circuit_breaker := Breaker.init 5 30 (TService DynamoDBError) |}.

Definition request_id_value (rid : option string) : Value :=
  match rid with Some s => VStr s | None => VNone end.

(** The body of the [except ClientError] clause once
    [e.response['Error']['Code']] and [e.response['Error']['Message']]
    have been read. *)
Definition on_client_error (error_code error_message : string)
    (rid : option string) : Exc :=
  if String.eqb error_code "ResourceNotFoundException" then
    new_NotFoundError ("DynamoDB resource not found: " +:+ error_message) None
  else if String.eqb error_code "ConditionalCheckFailedException" then
    new_ConflictError ("Conditional check failed: " +:+ error_message) None
  else if String.eqb error_code "ProvisionedThroughputExceededException" then
    new_RateLimitError ("DynamoDB throughput exceeded: " +:+ error_message) None
  else if String.eqb error_code "ValidationException" then
    new_ValidationError ("DynamoDB validation error: " +:+ error_message) None
  else
    new_DynamoDBError
      ("DynamoDB error (" +:+ error_code +:+ "): " +:+ error_message)
      (Some (<["error_code" := VStr error_code]>
               {["request_id" := request_id_value rid]})).

(** The [except] clauses of [_execute], applied to what the operation
    raised.  An exception outside [Exception] meets no clause.  The two
    subscripts at the head of the [except ClientError] clause raise
    [KeyError] when the response lacks the key; raised inside the clause,
    that error is not caught by the clauses after it. *)
Definition _execute_handlers (e : Exc) : Exc :=
  match e with
  | ClientError response _ =>
      match resp_Error response with
      | None => new_KeyError "Error"
      | Some entry =>
          match Code entry with
          | None => new_KeyError "Code"
          | Some error_code =>
              match Message entry with
              | None => new_KeyError "Message"
              | Some error_message =>
                  on_client_error error_code error_message
                    (resp_RequestId response)
              end
          end
      end
  | BotoCoreError _ =>
      new_DynamoDBError ("AWS SDK error: " +:+ str e) None
  | OtherBaseException _ _ => e
  | _ =>
      new_DynamoDBError ("Unexpected DynamoDB error: " +:+ str e) None
  end.

(** The four error codes [_execute] has a clause of their own for. *)
Definition specific_code (error_code : string) : bool :=
  String.eqb error_code "ResourceNotFoundException"
  || String.eqb error_code "ConditionalCheckFailedException"
  || String.eqb error_code "ProvisionedThroughputExceededException"
  || String.eqb error_code "ValidationException".

(** The key whose lookup fails at the head of the [except ClientError]
    clause, if one does. *)
Definition missing_key (response : ClientResponse) : option string :=
  match resp_Error response with
  | None => Some "Error"
  | Some entry =>
      match Code entry, Message entry with
      | None, _ => Some "Code"
      | Some _, None => Some "Message"
      | Some _, Some _ => None
      end
  end.

(** The failures that end in one of the catch-all clauses: a
    [ClientError] whose response has a code other than the four and a
    message, a [BotoCoreError], any other [Exception]. *)
Definition catch_all (e : Exc) : bool :=
  match e with
  | ClientError response _ =>
      match resp_Error response with
      | Some {| Code := Some error_code; Message := Some _ |} =>
          negb (specific_code error_code)
      | _ => false
      end
  | OtherBaseException _ _ => false
  | _ => true
  end.

Section Execute.
Context {W A : Type}.
Variable utcnow : W -> Z.

(** The inner [_execute]: one invocation of [operation]. *)
Definition _execute (operation : Operation W A) : Operation W A :=
  fun w =>
    match operation w with
    | (Return a, w') => (Return a, w')
    | (Raise e, w') => (Raise (_execute_handlers e), w')
    end.

Definition execute_with_retry (m : DynamoDBManager)
    (operation : Operation W A) (w : W) : CallResult W A :=
  call utcnow (circuit_breaker m) (_execute operation) w.

End Execute.

End Auth.

(** ** [MongoDBManager], [ExternalServiceManager]
       ([services/order-processing/error_handler.py]) *)

Module OrderProcessing.
Import Py Breaker.

Record MongoDBManager := {
  retry_config : Retry.RetryConfig;
  circuit_breaker : CircuitBreaker
}.

Definition init (cfg : option Retry.RetryConfig) : MongoDBManager :=
  {| retry_config := default Retry.default cfg;
     circuit_breaker := Breaker.init 5 30 (TService MongoDBError) |}.

Definition code_value (c : option Z) : Value :=
  match c with Some z => VInt z | None => VNone end.

(** [e.details.get(...)] when [e.details] is [None]. *)
Definition none_has_no_get : Exc :=
  AttributeError "'NoneType' object has no attribute 'get'".

(** The [except] clauses of [_execute], in source order. *)
Definition _execute_handlers (e : Exc) : Exc :=
  match e with
  | Mongo c d =>
      if mongo_subclass c DuplicateKeyError then
        match mongo_details d with
        | None => none_has_no_get
        | Some det =>
            new_ConflictError ("Duplicate key error: " +:+ str e)
              (Some {["duplicate_key" := VStr (default "{}" (keyValue det))]})
        end
      else if mongo_subclass c WriteError then
        match mongo_details d with
        | None => none_has_no_get
        | Some det =>
            new_MongoDBError ("MongoDB write error: " +:+ str e)
              (Some (<["error_code" := code_value (mongo_code d)]>
                       {["error_labels" := VList (default [] (errorLabels det))]}))
        end
      else if mongo_subclass c OperationFailure then
        if bool_decide (mongo_code d = Some 11000) then
          new_ConflictError ("Duplicate key error: " +:+ str e) None
        else
          new_MongoDBError ("MongoDB operation failed: " +:+ str e)
            (Some {["error_code" := code_value (mongo_code d)]})
      else if mongo_subclass c ConnectionFailure then
        new_MongoDBError ("Database connection failed: " +:+ str e) None
      else if mongo_subclass c ServerSelectionTimeoutError then
        new_MongoDBError ("Database server unavailable: " +:+ str e) None
      else
        new_MongoDBError ("Database error: " +:+ str e) None
  | OtherBaseException _ _ => e
  | _ =>
      new_MongoDBError ("Unexpected database error: " +:+ str e) None
  end.

(** The failures that end in the last clause, [except Exception]. *)
Definition unexpected (e : Exc) : bool :=
  match e with
  | Mongo _ _ | OtherBaseException _ _ => false
  | _ => true
  end.

Record ExternalServiceManager := {
  service_name : string;
  ext_retry_config : Retry.RetryConfig;
  ext_circuit_breaker : CircuitBreaker
}.

Definition init_external (name : string) (cfg : option Retry.RetryConfig)
    : ExternalServiceManager :=
  {| service_name := name;
     ext_retry_config := default (Retry.with_attempts_delay 3 (1 # 2)) cfg;
     ext_circuit_breaker := Breaker.init 3 60 (TService ExternalServiceError) |}.

Definition _call_handlers (name : string) (e : Exc) : Exc :=
  match e with
  | OtherBaseException _ _ => e
  | _ =>
      new_ExternalServiceError ("Failed to communicate with " +:+ name) name
        (Some {["original_error" := VStr (str e)]})
  end.

Section Execute.
Context {W A : Type}.
Variable utcnow : W -> Z.

Definition _execute (operation : Operation W A) : Operation W A :=
  fun w =>
    match operation w with
    | (Return a, w') => (Return a, w')
    | (Raise e, w') => (Raise (_execute_handlers e), w')
    end.

Definition execute_with_retry (m : MongoDBManager)
    (operation : Operation W A) (w : W) : CallResult W A :=
  call utcnow (circuit_breaker m) (_execute operation) w.

Definition _call (name : string) (operation : Operation W A)
    : Operation W A :=
  fun w =>
    match operation w with
    | (Return a, w') => (Return a, w')
    | (Raise e, w') => (Raise (_call_handlers name e), w')
    end.

Definition call_service (m : ExternalServiceManager)
    (operation : Operation W A) (w : W) : CallResult W A :=
  call utcnow (ext_circuit_breaker m) (_call (service_name m) operation) w.

End Execute.

End OrderProcessing.

(** ** [HTTPClientService._make_request]
       ([services/order-processing/services/http_client.py]) *)

Module HttpClient.

Record Response := { status_code : Z; body : string }.

(** What [self.client.request] or the loop itself can raise.
    [TimeoutException] and [ConnectError] stand for the httpx classes and
    their subclasses; [OtherError] is any exception outside the three
    caught classes; [TypeError] is what [raise None] produces. *)
Inductive Error :=
| TimeoutException (text : string)
| ConnectError (text : string)
| HTTPStatusError (text : string) (response : Response)
| OtherError (type_name text : string)
| TypeError (text : string).

(** One execution of [await self.client.request(...)]. *)
Inductive Attempt :=
| Responds (r : Response)
| Fails (e : Error).

Inductive Outcome :=
| Return (r : Response)
| Raise (e : Error).

Inductive Event :=
| Request (attempt : Z)
| Sleep (wait_time : Q).

(** [isinstance(e, (httpx.TimeoutException, httpx.ConnectError,
    httpx.HTTPStatusError))]. *)
Definition caught (e : Error) : bool :=
  match e with
  | TimeoutException _ | ConnectError _ | HTTPStatusError _ _ => true
  | _ => false
  end.

(** [response.status_code in [502, 503, 504]]. *)
Definition retryable_status (s : Z) : bool :=
  bool_decide (s ∈ [502; 503; 504]).

(** [base_wait + (base_wait * jitter)] with [base_wait = 2 ** attempt]. *)
Definition wait_time (attempt : Z) (jitter : Q) : Q :=
  (inject_Z (2 ^ attempt) + inject_Z (2 ^ attempt) * jitter)%Q.

(** Text of the [HTTPStatusError] built from a response; the digits of
    the status are not spelled out. *)
Definition status_error (r : Response) : Error :=
  HTTPStatusError "HTTP <status>" r.

Section Loop.
(** [retries] is [self.retries]; [request a] is what the request sent
    in iteration [a] does; [uniform a] is the value
    [random.uniform(0.1, 0.5)] draws in iteration [a]. *)
Variable retries : Z.
Variable request : Z -> Attempt.
Variable uniform : Z -> Q.

(** The [except (TimeoutException, ConnectError, HTTPStatusError)]
    clause: what is appended to the trace before the next iteration. *)
Definition on_caught (attempt : Z) : list Event :=
  if attempt <? retries then [Sleep (wait_time attempt (uniform attempt))]
  else [].

(** The [for attempt in range(self.retries + 1)] loop over the attempts
    still to run, then [raise last_exception]. *)
Fixpoint loop (todo : list Z) (last_exception : option Error)
    : Outcome * list Event :=
  match todo with
  | [] =>
      (match last_exception with
       | Some e => Raise e
       | None => Raise (TypeError "exceptions must derive from BaseException")
       end, [])
  | attempt :: rest =>
      match request attempt with
      | Responds r =>
          if retryable_status (status_code r) && (attempt <? retries) then
            let '(out, tr) := loop rest (Some (status_error r)) in
            (out, Request attempt :: on_caught attempt ++ tr)
          else (Return r, [Request attempt])
      | Fails e =>
          if caught e then
            let '(out, tr) := loop rest (Some e) in
            (out, Request attempt :: on_caught attempt ++ tr)
          else (Raise e, [Request attempt])
      end
  end.

Definition _make_request : Outcome * list Event :=
  loop (seqZ 0 (retries + 1)) None.

End Loop.

(** An attempt that the loop answers with another attempt while attempts
    remain: a caught exception, or a 502/503/504 response. *)
Definition fails_retryably (a : Attempt) : bool :=
  match a with
  | Responds r => retryable_status (status_code r)
  | Fails e => caught e
  end.

(** What the caller gets when the attempt [a] is the one that ends the
    loop. *)
Definition final_outcome (a : Attempt) : Outcome :=
  match a with
  | Responds r => Return r
  | Fails e => Raise e
  end.

Definition is_request (ev : Event) : bool :=
  match ev with Request _ => true | Sleep _ => false end.

(** Number of times the request was sent. *)
Definition requests (tr : list Event) : nat :=
  length (List.filter is_request tr).

(** The delays slept, in order. *)
Definition sleeps (tr : list Event) : list Q :=
  omap (fun ev => match ev with Sleep d => Some d | Request _ => None end) tr.

End HttpClient.

(** ** [CacheManager.set_with_retry]
       ([services/product-catalog/error_handler.py]) *)

Module ProductCatalog.
Import Retry.

(** One execution of [await self.redis_client.setex(...)] (including the
    [json.dumps] of its argument). *)
Inductive Attempt :=
| Stored
| RedisError (text : string)
| OtherError (type_name text : string).

Inductive Outcome :=
| Return (b : bool)
| Raise (type_name text : string).

Inductive Event :=
| Setex (attempt : Z)
| Sleep (delay : Q).

(** [self.retry_config.base_delay * (2 ** attempt)]. *)
Definition delay (cfg : RetryConfig) (attempt : Z) : Q :=
  (base_delay cfg * inject_Z (2 ^ attempt))%Q.

Section Loop.
Variable cfg : RetryConfig.
Variable setex : Z -> Attempt.

Fixpoint loop (todo : list Z) : Outcome * list Event :=
  match todo with
  | [] => (Return false, [])
  | attempt :: rest =>
      match setex attempt with
      | Stored => (Return true, [Setex attempt])
      | RedisError _ =>
          let '(out, tr) := loop rest in
          if attempt <? max_attempts cfg - 1 then
            (out, Setex attempt :: Sleep (delay cfg attempt) :: tr)
          else (out, Setex attempt :: tr)
      | OtherError n t => (Raise n t, [Setex attempt])
      end
  end.

Definition set_with_retry : Outcome * list Event :=
  loop (seqZ 0 (max_attempts cfg)).

End Loop.

(** An attempt that raises [redis.exceptions.RedisError]. *)
Definition redis_error (a : Attempt) : bool :=
  match a with RedisError _ => true | _ => false end.

Definition sleeps (tr : list Event) : list Q :=
  omap (fun ev => match ev with Sleep d => Some d | Setex _ => None end) tr.

Definition is_setex (ev : Event) : bool :=
  match ev with Setex _ => true | Sleep _ => false end.

Definition setex_calls (tr : list Event) : nat :=
  length (List.filter is_setex tr).

End ProductCatalog.

(** ** [ServiceDiscovery]
       ([services/order-processing/services/service_discovery.py]) *)

Module Discovery.
Import Py.

(** *** The string operations the module uses (on ASCII text) *)

(** [s.replace(old, "")] for a non-empty [old]: [skip] characters of a
    match are still to be dropped. *)
Fixpoint remove_from (old : string) (skip : nat) (s : string) : string :=
  match s with
  | EmptyString => EmptyString
  | String c s' =>
      match skip with
      | S k => remove_from old k s'
      | O =>
          if String.prefix old s
          then remove_from old (String.length old - 1) s'
          else String c (remove_from old 0 s')
      end
  end.

Definition replace_with_empty (old s : string) : string :=
  if decide (old = "") then s else remove_from old 0 s.

Fixpoint lstrip (c : ascii) (s : string) : string :=
  match s with
  | EmptyString => EmptyString
  | String a s' => if Ascii.eqb a c then lstrip c s' else s
  end.

Fixpoint rstrip (c : ascii) (s : string) : string :=
  match s with
  | EmptyString => EmptyString
  | String a s' =>
      match rstrip c s' with
      | EmptyString => if Ascii.eqb a c then EmptyString else String a EmptyString
      | r => String a r
      end
  end.

(** [s.strip(c)] for a one-character [c]. *)
Definition strip (c : ascii) (s : string) : string := rstrip c (lstrip c s).

(** [s.split(sep)] for a one-character [sep]. *)
Fixpoint split (sep : ascii) (s : string) : list string :=
  match s with
  | EmptyString => [EmptyString]
  | String a s' =>
      if Ascii.eqb a sep then EmptyString :: split sep s'
      else
        match split sep s' with
        | h :: t => String a h :: t
        | [] => [String a EmptyString]
        end
  end.

Definition upper_ascii (a : ascii) : ascii :=
  let n := nat_of_ascii a in
  if ((97 <=? n) && (n <=? 122))%nat then ascii_of_nat (n - 32) else a.

(** [s.upper()]. *)
Fixpoint upper (s : string) : string :=
  match s with
  | EmptyString => EmptyString
  | String a s' => String (upper_ascii a) (upper s')
  end.

(** [s.replace(old, new)] for one-character [old] and [new]. *)
Fixpoint replace_char (old new : ascii) (s : string) : string :=
  match s with
  | EmptyString => EmptyString
  | String a s' =>
      String (if Ascii.eqb a old then new else a) (replace_char old new s')
  end.

(** Truth value of an optional string: [None] and [""] are false. *)
Definition truthy (o : option string) : option string :=
  match o with
  | Some EmptyString => None
  | other => other
  end.

(** *** The resolver *)

Record ServiceDiscovery := {
  ssm_prefix : string;
  _service_cache : gmap string (gmap string string);
  _cache_ttl : Q;
  _last_cache_update : Q;
  _ssm_available : bool
}.

(** [ServiceDiscovery.__init__]; [available] tells whether
    [boto3.client('ssm')] could be created. *)
Definition init (project_name environment : string) (available : bool)
    : ServiceDiscovery :=
  {| ssm_prefix := "/" +:+ project_name +:+ "/" +:+ environment +:+ "/services";
     _service_cache := ∅;
     _cache_ttl := 300;
     _last_cache_update := 0;
     _ssm_available := available |}.

(** One entry of [response['Parameters']]. *)
Record Param := { Name : string; Value : string }.

(** What [ssm_client.get_parameters_by_path] does when called.  A reply
    that cannot be parsed raises inside the [try] and is an
    [RaisesException]. *)
Inductive SsmReply :=
| Responds (ps : list Param)
| RaisesClientError (text : string)
| RaisesException (text : string).

(** What a resolve call finds around it: the process environment, the
    registry's behaviour, and the event-loop clock when the cache is
    checked and when a reply has been parsed. *)
Record Env := {
  environ : gmap string string;
  ssm : SsmReply;
  time_at_check : Q;
  time_after_fetch : Q
}.

Definition _is_cache_valid (sd : ServiceDiscovery) (current_time : Q) : bool :=
  if bool_decide (_service_cache sd = ∅) then false
  else negb (Qle_bool (_cache_ttl sd) (current_time - _last_cache_update sd)).

(** Body of the [for param in response['Parameters']] loop. *)
Definition add_parameter (prefix : string)
    (services : gmap string (gmap string string)) (param : Param)
    : gmap string (gmap string string) :=
  let param_path := strip "/"%char (replace_with_empty prefix (Name param)) in
  match split "/"%char param_path with
  | service_name :: property_name :: _ =>
      <[service_name :=
          <[property_name := Value param]> (default ∅ (services !! service_name))]>
        services
  | _ => services
  end.

Definition parse_parameters (prefix : string) (ps : list Param)
    : gmap string (gmap string string) :=
  foldl (add_parameter prefix) ∅ ps.

(** Returns the resolver and the number of registry fetches made. *)
Definition _refresh_service_cache (sd : ServiceDiscovery) (env : Env)
    : ServiceDiscovery * nat :=
  if negb (_ssm_available sd) then (sd, 0%nat)
  else
    match ssm env with
    | Responds ps =>
        ({| ssm_prefix := ssm_prefix sd;
            _service_cache := parse_parameters (ssm_prefix sd) ps;
            _cache_ttl := _cache_ttl sd;
            _last_cache_update := time_after_fetch env;
            _ssm_available := _ssm_available sd |}, 1%nat)
    | RaisesClientError _ => (sd, 1%nat)
    | RaisesException _ => (sd, 1%nat)
    end.

Definition env_var_map (service_name : string) : option string :=
  if String.eqb service_name "auth" then Some "AUTH_SERVICE_URL"
  else if String.eqb service_name "product-catalog" then Some "PRODUCT_SERVICE_URL"
  else if String.eqb service_name "order-processing"
       then Some "ORDER_PROCESSING_SERVICE_URL"
  else None.

Definition _get_fallback_endpoint (env : Env) (service_name : string)
    : option string :=
  match env_var_map service_name with
  | Some env_var => environ env !! env_var
  | None =>
      environ env !! (replace_char "-"%char "_"%char (upper service_name) +:+ "_SERVICE_URL")
  end.

(** [self._service_cache[service_name].get('full_url')] when the service
    is in the cache, filtered by [if endpoint:]. *)
Definition cached_url (sd : ServiceDiscovery) (service_name : string)
    : option string :=
  truthy (_service_cache sd !! service_name ≫= (.!! "full_url")).

Record Resolved := {
  endpoint : Outcome (option string);
  resolver : ServiceDiscovery;
  fetches : nat
}.

(** The test of the first [if] of [get_service_endpoint]: a usable entry
    in a valid cache. *)
Definition cache_hit (sd : ServiceDiscovery) (env : Env) (service_name : string)
    : option string :=
  if _is_cache_valid sd (time_at_check env) then cached_url sd service_name
  else None.

(** No statement of the [try] body raises here, so the [except
    Exception] clause (return the fallback) is never entered. *)
Definition get_service_endpoint (sd : ServiceDiscovery) (env : Env)
    (service_name : string) : Resolved :=
  match cache_hit sd env service_name with
  | Some url => {| endpoint := Return (Some url); resolver := sd; fetches := 0 |}
  | None =>
      let '(sd', n) := _refresh_service_cache sd env in
      match cached_url sd' service_name with
      | Some url => {| endpoint := Return (Some url); resolver := sd'; fetches := n |}
      | None =>
          match truthy (_get_fallback_endpoint env service_name) with
          | Some url =>
              {| endpoint := Return (Some url); resolver := sd'; fetches := n |}
          | None => {| endpoint := Return None; resolver := sd'; fetches := n |}
          end
      end
  end.

(** The registry call raises ([ClientError] or anything else). *)
Definition registry_fails (env : Env) : bool :=
  match ssm env with
  | Responds _ => false
  | RaisesClientError _ | RaisesException _ => true
  end.

(** The cache holds a URL for the service, or the environment does. *)
Definition has_endpoint (sd : ServiceDiscovery) (env : Env)
    (service_name : string) : bool :=
  match cached_url sd service_name,
        truthy (_get_fallback_endpoint env service_name) with
  | None, None => false
  | _, _ => true
  end.

(** Resolve calls of tasks that are scheduled together.  Neither
    [get_service_endpoint] nor [_refresh_service_cache] awaits anything
    that suspends (the SSM call is a blocking call), so the event loop
    runs each call to its end before the next one starts: the calls act on
    the shared resolver one after the other. *)
Fixpoint resolve_all (sd : ServiceDiscovery) (calls : list (Env * string))
    : list (Outcome (option string)) * ServiceDiscovery * nat :=
  match calls with
  | [] => ([], sd, 0%nat)
  | (env, service_name) :: rest =>
      let r := get_service_endpoint sd env service_name in
      let '(outs, sd', n) := resolve_all (resolver r) rest in
      (endpoint r :: outs, sd', (fetches r + n)%nat)
  end.

End Discovery.

(** ** [ServiceDiscovery]: the health endpoint and the cache listing *)

Module DiscoveryMore.
Import Py Discovery.

(** [old in s]: [old] occurs in [s] as a substring. *)
Fixpoint occurs_in (old s : string) : bool :=
  String.prefix old s ||
  match s with
  | EmptyString => false
  | String _ s' => occurs_in old s'
  end.

(** No character of [s] is [c]. *)
Fixpoint free_of (c : ascii) (s : string) : bool :=
  match s with
  | EmptyString => true
  | String a s' => negb (Ascii.eqb a c) && free_of c s'
  end.

(** The health URL read from a cache entry: [None] when the entry has no
    usable [full_url]. *)
Definition health_url (service_info : gmap string string) : option string :=
  match truthy (service_info !! "full_url") with
  | Some base_url =>
      let health_path := default "/health" (service_info !! "health_endpoint") in
      Some (if String.prefix "http" health_path then health_path
            else rstrip "/" base_url +:+ health_path)
  | None => None
  end.

(** The refresh of [get_service_health_endpoint] and [get_all_services]:
    only when the cache is not valid. *)
Definition refresh_if_invalid (sd : ServiceDiscovery) (env : Env)
    : ServiceDiscovery * nat :=
  if _is_cache_valid sd (time_at_check env) then (sd, 0%nat)
  else _refresh_service_cache sd env.

Definition get_service_health_endpoint (sd : ServiceDiscovery) (env : Env)
    (service_name : string) : Resolved :=
  let '(sd', n) := refresh_if_invalid sd env in
  match _service_cache sd' !! service_name ≫= health_url with
  | Some url => {| endpoint := Return (Some url); resolver := sd'; fetches := n |}
  | None =>
      match truthy (_get_fallback_endpoint env service_name) with
      | Some base_endpoint =>
          {| endpoint := Return (Some (rstrip "/" base_endpoint +:+ "/health"));
             resolver := sd'; fetches := n |}
      | None => {| endpoint := Return None; resolver := sd'; fetches := n |}
      end
  end.

(** Returns the copy of the cache, the resolver and the fetches made. *)
Definition get_all_services (sd : ServiceDiscovery) (env : Env)
    : gmap string (gmap string string) * ServiceDiscovery * nat :=
  let '(sd', n) := refresh_if_invalid sd env in
  (_service_cache sd', sd', n).

End DiscoveryMore.

(** ** Sequences of guarded calls *)

Module BreakerMore.
Import Py Breaker.

(** Closed means below the threshold; the counter is never negative. *)
Definition count_inv (cb : CircuitBreaker) : Prop :=
  0 <= failure_count cb /\
  (state cb = CLOSED -> failure_count cb < failure_threshold cb).

Section Steps.
Context {W A : Type}.
Variable utcnow : W -> Z.

(** No function of the steps returns: each raises when it is run. *)
Definition all_raise (steps : list (Operation W A * W)) : bool :=
  forallb (fun '(func, w) =>
             match func w with
             | (Raise _, _) => true
             | (Return _, _) => false
             end) steps.

(** Every step is made less than [seconds] seconds after time [t]. *)
Definition all_before (t seconds : Z) (steps : list (Operation W A * W)) : bool :=
  forallb (fun '(_, w) => utcnow w - t <? seconds * 1000000) steps.

(** What the operation raised is an [Exception]. *)
Definition all_exceptions (fails : list (W * Exc * W)) : bool :=
  forallb (fun '(_, e, _) => isinstance e TException) fails.

(** Consecutive [call_service] calls of one [ExternalServiceManager], each
    with an operation that raises: the steps its breaker sees. *)
Definition external_steps (name : string) (fails : list (W * Exc * W))
    : list (Operation W A * W) :=
  map (fun '(w, e, w') => (OrderProcessing._call name (raising e w'), w)) fails.

End Steps.

End BreakerMore.

(** ** [HTTPClientService]: the calls built on [_make_request]
       ([services/order-processing/services/http_client.py]) *)

Module HttpCalls.
Import Discovery HttpClient.

Record HTTPClientService := {
  fallback_product_url : option string;
  fallback_auth_url : option string;
  retries : Z;
  use_service_discovery : bool;
  service_discovery : option ServiceDiscovery
}.

(** [url.rstrip('/') if url else None]. *)
Definition strip_url (url : option string) : option string :=
  match truthy url with
  | Some u => Some (rstrip "/" u)
  | None => None
  end.

(** [HTTPClientService.__init__]; [sd] is what [get_service_discovery()]
    returns. *)
Definition new (product_service_url auth_service_url : option string)
    (retries : Z) (use_service_discovery : bool) (sd : ServiceDiscovery)
    : HTTPClientService :=
  {| fallback_product_url := strip_url product_service_url;
     fallback_auth_url := strip_url auth_service_url;
     retries := retries;
     use_service_discovery := use_service_discovery;
     service_discovery := if use_service_discovery then Some sd else None |}.

Definition with_discovery (c : HTTPClientService) (sd : ServiceDiscovery)
    : HTTPClientService :=
  {| fallback_product_url := fallback_product_url c;
     fallback_auth_url := fallback_auth_url c;
     retries := retries c;
     use_service_discovery := use_service_discovery c;
     service_discovery := Some sd |}.

(** The tail of [_get_service_url]: the configured URLs. *)
Definition configured_url (c : HTTPClientService) (service_name : string)
    : option string :=
  if String.eqb service_name "product-catalog" then fallback_product_url c
  else if String.eqb service_name "auth" then fallback_auth_url c
  else None.

(** Returns the URL, the client (its resolver may have refreshed) and the
    registry fetches made.  [get_service_endpoint] does not raise here, so
    the [except Exception] clause is covered by the last case. *)
Definition _get_service_url (c : HTTPClientService) (env : Env)
    (service_name : string) : option string * HTTPClientService * nat :=
  match (if use_service_discovery c then service_discovery c else None) with
  | Some sd =>
      let r := get_service_endpoint sd env service_name in
      match endpoint r with
      | Py.Return url =>
          match truthy url with
          | Some u => (Some u, with_discovery c (resolver r), fetches r)
          | None =>
              (configured_url c service_name, with_discovery c (resolver r),
               fetches r)
          end
      | Py.Raise _ =>
          (configured_url c service_name, with_discovery c (resolver r), fetches r)
      end
  | None => (configured_url c service_name, c, 0%nat)
  end.

(** A decoded JSON body: only an object has [.get]. *)
Inductive Json :=
| JObject (members : list (string * string))
| JValue (text : string).

(** Where an exception outside the three classes [_make_request] catches
    stands: under [httpx.HTTPError], under [Exception] only, or outside
    [Exception]. *)
Inductive OtherClass := UnderHTTPError | UnderException | OutsideException.

(** What the calls find around them: the HTTP client (method, URL, JSON
    payload, attempt), the decoding of a body ([None]: [response.json()]
    raises), the jitter draws, and the class of the other exceptions by type
    name. *)
Record Net := {
  client : string -> string -> list (string * Z) -> Z -> Attempt;
  json : Response -> option Json;
  uniform : Z -> Q;
  class_of : string -> OtherClass
}.

(** What these methods raise. *)
Inductive Failure :=
| HTTPException (status_code : Z) (detail : string)
| Raised (e : Error)
| JSONDecodeError
| NoGetAttribute.

Inductive Result (A : Type) :=
| Ok (a : A)
| Err (f : Failure).
Arguments Ok {A} a.
Arguments Err {A} f.

Record Called (A : Type) := {
  value : Result A;
  service : HTTPClientService;
  events : list Event
}.
Arguments value {A} _.
Arguments service {A} _.
Arguments events {A} _.

(** [isinstance(e, httpx.HTTPError)]. *)
Definition is_http_error (net : Net) (e : Error) : bool :=
  match e with
  | TimeoutException _ | ConnectError _ | HTTPStatusError _ _ => true
  | OtherError type_name _ =>
      match class_of net type_name with UnderHTTPError => true | _ => false end
  | TypeError _ => false
  end.

(** [isinstance(e, Exception)]. *)
Definition is_exception (net : Net) (e : Error) : bool :=
  match e with
  | OtherError type_name _ =>
      match class_of net type_name with OutsideException => false | _ => true end
  | _ => true
  end.

(** [_get_product_service_url] and [_get_auth_service_url]. *)
Definition _get_product_service_url (c : HTTPClientService) (env : Env)
    : Result string * HTTPClientService :=
  let '(url, c', _) := _get_service_url c env "product-catalog" in
  match truthy url with
  | Some u => (Ok u, c')
  | None => (Err (HTTPException 503 "Product Catalog service URL not available"), c')
  end.

Definition _get_auth_service_url (c : HTTPClientService) (env : Env)
    : Result string * HTTPClientService :=
  let '(url, c', _) := _get_service_url c env "auth" in
  match truthy url with
  | Some u => (Ok u, c')
  | None => (Err (HTTPException 503 "Auth service URL not available"), c')
  end.

(** [self._make_request(method, url, json=payload)]. *)
Definition send (c : HTTPClientService) (net : Net) (method url : string)
    (payload : list (string * Z)) : Outcome * list Event :=
  _make_request (retries c) (client net method url payload) (uniform net).

(** [except Exception: return default] around a failure. *)
Definition swallow {A} (net : Net) (default : A) (e : Error) : Result A :=
  if is_exception net e then Ok default else Err (Raised e).

Definition validate_session (c : HTTPClientService) (env : Env) (net : Net)
    (session_id : string) : Called (option Json) :=
  match _get_auth_service_url c env with
  | (Err _, c') => {| value := Ok None; service := c'; events := [] |}
  | (Ok auth_service_url, c') =>
      let '(out, tr) :=
        send c' net "GET" (auth_service_url +:+ "/auth/validate/" +:+ session_id) [] in
      {| value :=
           match out with
           | Return r =>
               if status_code r =? 200 then
                 match json net r with
                 | Some (JObject members) => Ok (Some (JObject members))
                 | Some (JValue _) => Ok None
                 | None => Ok None
                 end
               else Ok None
           | Raise e => swallow net None e
           end;
         service := c'; events := tr |}
  end.

(** The [except httpx.HTTPError] clause of the two product calls. *)
Definition on_http_error {A} (net : Net) (e : Error) : Result A :=
  if is_http_error net e
  then Err (HTTPException 503 "Product catalog service unavailable")
  else Err (Raised e).

(** [data = response.json()] followed by a [data.get(...)] in the log
    call. *)
Definition decoded_object (net : Net) (r : Response) : Result Json :=
  match json net r with
  | Some (JObject members) => Ok (JObject members)
  | Some (JValue _) => Err NoGetAttribute
  | None => Err JSONDecodeError
  end.

Definition check_product_availability (c : HTTPClientService) (env : Env)
    (net : Net) (product_id : string) (quantity : Z) : Called Json :=
  match _get_product_service_url c env with
  | (Err f, c') => {| value := Err f; service := c'; events := [] |}
  | (Ok product_service_url, c') =>
      let '(out, tr) :=
        send c' net "POST"
          (product_service_url +:+ "/products/" +:+ product_id +:+ "/availability")
          [("quantity", quantity)] in
      {| value :=
           match out with
           | Return r =>
               if status_code r =? 200 then decoded_object net r
               else Err (HTTPException 503
                           ("Unable to verify product availability for " +:+ product_id))
           | Raise e => on_http_error net e
           end;
         service := c'; events := tr |}
  end.

Definition reserve_inventory (c : HTTPClientService) (env : Env)
    (net : Net) (product_id : string) (quantity reservation_timeout : Z)
    : Called Json :=
  match _get_product_service_url c env with
  | (Err f, c') => {| value := Err f; service := c'; events := [] |}
  | (Ok product_service_url, c') =>
      let '(out, tr) :=
        send c' net "POST"
          (product_service_url +:+ "/products/" +:+ product_id +:+ "/reserve")
          [("quantity", quantity); ("timeout", reservation_timeout)] in
      {| value :=
           match out with
           | Return r =>
               if status_code r =? 200 then decoded_object net r
               else Err (HTTPException 409
                           ("Unable to reserve inventory for " +:+ product_id))
           | Raise e => on_http_error net e
           end;
         service := c'; events := tr |}
  end.

Definition get_product_details (c : HTTPClientService) (env : Env)
    (net : Net) (product_id : string) : Called (option Json) :=
  match _get_product_service_url c env with
  | (Err _, c') => {| value := Ok None; service := c'; events := [] |}
  | (Ok product_service_url, c') =>
      let '(out, tr) :=
        send c' net "GET" (product_service_url +:+ "/products/" +:+ product_id) [] in
      {| value :=
           match out with
           | Return r =>
               if status_code r =? 200 then Ok (json net r) else Ok None
           | Raise e => swallow net None e
           end;
         service := c'; events := tr |}
  end.

Definition update_inventory (c : HTTPClientService) (env : Env)
    (net : Net) (product_id : string) (quantity_change : Z) : Called bool :=
  match _get_product_service_url c env with
  | (Err _, c') => {| value := Ok false; service := c'; events := [] |}
  | (Ok product_service_url, c') =>
      let '(out, tr) :=
        send c' net "PUT"
          (product_service_url +:+ "/products/" +:+ product_id +:+ "/inventory")
          [("quantity_change", quantity_change)] in
      {| value :=
           match out with
           | Return r => Ok (status_code r =? 200)
           | Raise e => swallow net false e
           end;
         service := c'; events := tr |}
  end.

Definition clear_user_cart (c : HTTPClientService) (env : Env)
    (net : Net) (user_id : string) : Called bool :=
  match _get_auth_service_url c env with
  | (Err _, c') => {| value := Ok false; service := c'; events := [] |}
  | (Ok auth_service_url, c') =>
      let '(out, tr) :=
        send c' net "DELETE" (auth_service_url +:+ "/auth/cart/" +:+ user_id) [] in
      {| value :=
           match out with
           | Return r => Ok (bool_decide (status_code r ∈ [200; 204]))
           | Raise e => swallow net false e
           end;
         service := c'; events := tr |}
  end.

End HttpCalls.

Module HttpMore.
Import HttpClient HttpCalls.

(** The attempt numbered [j] ends the loop: it is the last allowed one, or
    its answer is not a retryable failure. *)
Definition ends_loop (retries j : Z) (a : Attempt) : bool :=
  (retries <=? j) || negb (fails_retryably a).

(** Every request fails retryably, whatever is asked. *)
Definition network_down (net : Net) : Prop :=
  forall method url payload a,
    fails_retryably (client net method url payload a) = true.

(** The status of the failure a call ends with, if it is an
    [HTTPException]. *)
Definition http_status {A} (r : Result A) : option Z :=
  match r with
  | Err (HTTPException status _) => Some status
  | _ => None
  end.

End HttpMore.

(** ** [CacheManager.get_with_fallback]
       ([services/product-catalog/error_handler.py]) *)

Module CacheMore.
Import Py.

(** One execution of [await self.redis_client.get(key)]. *)
Inductive GetAttempt :=
| Got (result : option string)
| GetRedisError (text : string)
| GetOtherException (type_name text : string)
| GetBaseException (type_name text : string).

(** What [get_with_fallback] gives back: the value ([None] is Python's
    [None]) or the exception, and whether [fallback_func] was called. *)
Record Fetched (J : Type) := {
  fetched : Outcome (option J);
  fallback_called : bool
}.
Arguments fetched {J} _.
Arguments fallback_called {J} _.

Section Get.
Context {J : Type}.
(** [json.loads]: [None] when it raises, [Some None] for JSON [null]. *)
Variable loads : string -> option (option J).

(** The second half: [fallback_func] if there is one, else [None]. *)
Definition use_fallback (fallback_func : option (Outcome (option J))) : Fetched J :=
  match fallback_func with
  | Some out => {| fetched := out; fallback_called := true |}
  | None => {| fetched := Return None; fallback_called := false |}
  end.

Definition get_with_fallback (get : GetAttempt)
    (fallback_func : option (Outcome (option J))) : Fetched J :=
  match get with
  | Got (Some (String a rest)) =>
      match loads (String a rest) with
      | Some v => {| fetched := Return v; fallback_called := false |}
      | None => use_fallback fallback_func
      end
  | Got _ => use_fallback fallback_func
  | GetRedisError _ => use_fallback fallback_func
  | GetOtherException _ _ => use_fallback fallback_func
  | GetBaseException n t =>
      {| fetched := Raise (OtherBaseException n t); fallback_called := false |}
  end.

(** The cache gave a non-empty text that decodes. *)
Definition usable (get : GetAttempt) : option (option J) :=
  match get with
  | Got (Some (String a rest)) => loads (String a rest)
  | _ => None
  end.

(** The cache call did not raise outside [Exception]. *)
Definition ordinary (get : GetAttempt) : bool :=
  match get with GetBaseException _ _ => false | _ => true end.

End Get.

(** The attempt numbered [j] of [set_with_retry] ends its loop: it stores
    or raises something that is not a [RedisError]. *)
Definition ends_set_loop (a : ProductCatalog.Attempt) : bool :=
  negb (ProductCatalog.redis_error a).

Definition set_outcome (a : ProductCatalog.Attempt) : ProductCatalog.Outcome :=
  match a with
  | ProductCatalog.Stored => ProductCatalog.Return true
  | ProductCatalog.RedisError _ => ProductCatalog.Return false
  | ProductCatalog.OtherError n t => ProductCatalog.Raise n t
  end.

End CacheMore.

(** ** The decorator and the exception handler
       ([error_handler.py], identical in the three services) *)

Module ErrorHandling.
Import Py.

Section Decorator.
(** [type(e).__name__], which the exception model does not record. *)
Variable type_name : Exc -> string.

(** The [ServiceError] the wrapper raises for any other [Exception]. *)
Definition unexpected_error (e : Exc) : Exc :=
  new_ServiceError ServiceError "An unexpected error occurred" "INTERNAL_ERROR" 500
    (Some (<["original_error" := VStr (str e)]> {["type" := VStr (type_name e)]})).

(** The [wrapper] of [with_error_handling], applied to what the decorated
    function did. *)
Definition with_error_handling {A} (r : Outcome A) : Outcome A :=
  match r with
  | Return a => Return a
  | Raise e =>
      if isinstance e (TService ServiceError) then Raise e
      else if isinstance e TException then Raise (unexpected_error e)
      else Raise e
  end.

End Decorator.

(** What reaches the exception handler: an exception of the model, or
    FastAPI's [HTTPException]. *)
Inductive Thrown :=
| Known (e : Exc)
| HTTPException (status_code : Z) (detail : string).

Record ErrorBody := {
  body_message : string;
  body_code : string;
  body_details : gmap string Value;
  body_timestamp : string;
  body_request_id : option string
}.

Record JSONResponse := {
  response_status : Z;
  content : ErrorBody
}.

Section Handler.
Variable type_name : Exc -> string.

(** [ErrorResponse.create_error_response]; [timestamp] is
    [timestamp.isoformat()]. *)
Definition create_error_response (error : Thrown) (request_id : option string)
    (timestamp : string) : ErrorBody :=
  match error with
  | Known (Service _ d) =>
      {| body_message := message d; body_code := code d;
         body_details := details d;
         body_timestamp := timestamp; body_request_id := request_id |}
  | HTTPException status detail =>
      {| body_message := detail; body_code := "HTTP_ERROR";
         body_details := {["status_code" := VInt status]};
         body_timestamp := timestamp; body_request_id := request_id |}
  | Known e =>
      {| body_message := "An unexpected error occurred";
         body_code := "INTERNAL_ERROR";
         body_details := {["type" := VStr (type_name e)]};
         body_timestamp := timestamp; body_request_id := request_id |}
  end.

Definition global_exception_handler (exc : Thrown) (request_id : option string)
    (timestamp : string) : JSONResponse :=
  match exc with
  | Known (Service _ d) =>
      {| response_status := status_code d;
         content := create_error_response exc request_id timestamp |}
  | HTTPException status _ =>
      {| response_status := status;
         content := create_error_response exc request_id timestamp |}
  | Known _ =>
      {| response_status := 500;
         content :=
           create_error_response
             (Known (new_ServiceError ServiceError
                       "An internal server error occurred" "INTERNAL_ERROR" 500 None))
             request_id timestamp |}
  end.

(** The response for what a function under [with_error_handling] raised. *)
Definition respond_decorated (e : Exc) (request_id : option string)
    (timestamp : string) : JSONResponse :=
  match with_error_handling type_name (A:=unit) (Raise e) with
  | Raise e' => global_exception_handler (Known e') request_id timestamp
  | Return _ => global_exception_handler (Known e) request_id timestamp
  end.

End Handler.

End ErrorHandling.

(** ** The validators ([services/auth/error_handler.py],
       [services/order-processing/error_handler.py]); text is ASCII *)

Module Validators.
Import Py.

(** [any(p(c) for c in s)]. *)
Fixpoint any (p : ascii -> bool) (s : string) : bool :=
  match s with
  | EmptyString => false
  | String a rest => p a || any p rest
  end.

Definition in_range (lo hi : nat) (a : ascii) : bool :=
  ((lo <=? nat_of_ascii a) && (nat_of_ascii a <=? hi))%nat.

Definition isupper : ascii -> bool := in_range 65 90.
Definition islower : ascii -> bool := in_range 97 122.
Definition isdigit : ascii -> bool := in_range 48 57.

(** [c in "!@#$%^&*()_+-=[]{}|;:,.<>?"]. *)
Definition isspecial (a : ascii) : bool :=
  any (Ascii.eqb a) "!@#$%^&*()_+-=[]{}|;:,.<>?".

Record PasswordReport := {
  valid : bool;
  warnings : list string;
  strength : string
}.

Definition password_errors (password : string) : list string :=
  if (String.length password <? 8)%nat
  then ["Password must be at least 8 characters long"] else [].

Definition password_warnings (password : string) : list string :=
  (if any isupper password then []
   else ["Password should contain at least one uppercase letter"]) ++
  (if any islower password then []
   else ["Password should contain at least one lowercase letter"]) ++
  (if any isdigit password then []
   else ["Password should contain at least one number"]) ++
  (if any isspecial password then []
   else ["Password should contain at least one special character"]).

Definition is_empty {A} (l : list A) : bool :=
  match l with [] => true | _ => false end.

(** [PasswordValidator.validate_password_strength]. *)
Definition validate_password_strength (password : string) : Outcome PasswordReport :=
  let errors := password_errors password in
  let warnings := password_warnings password in
  if is_empty errors then
    Return {| valid := true; warnings := warnings;
              strength := if is_empty warnings then "strong" else "medium" |}
  else
    Raise (new_ValidationError "Password does not meet requirements"
             (Some (<["errors" := VList errors]> {["warnings" := VList warnings]}))).

(** [InventoryError(message, details)]. *)
Definition new_InventoryError msg det :=
  new_ServiceError InventoryError msg "INVENTORY_ERROR" 409 det.

(** An order item: [item.get('product_id')] and [item.get('quantity')]. *)
Record Item := {
  product_id : option string;
  quantity : option Z
}.

(** [f"{product_id}"]: [None] prints as "None". *)
Definition show_id (o : option string) : string := default "None" o.

(** [inventory_data[product_id]] when [product_id in inventory_data]. *)
Definition stock (inventory_data : gmap string Z) (item : Item) : option Z :=
  match product_id item with
  | Some p => inventory_data !! p
  | None => None
  end.

(** The body of the loop over the items: the errors and the warnings. *)
Fixpoint check_items (items : list Item) (inventory_data : gmap string Z)
    : list string * list string :=
  match items with
  | [] => ([], [])
  | item :: rest =>
      let '(errors, warnings) := check_items rest inventory_data in
      let requested_quantity := default 0 (quantity item) in
      let name := show_id (product_id item) in
      match stock inventory_data item with
      | None => (("Product " +:+ name +:+ " not found in inventory") :: errors, warnings)
      | Some available_quantity =>
          if available_quantity <? requested_quantity then
            ((if available_quantity =? 0
              then "Product " +:+ name +:+ " is out of stock"
              else "Product " +:+ name +:+ ": only " +:+ pretty available_quantity
                   +:+ " available, " +:+ pretty requested_quantity +:+ " requested")
             :: errors, warnings)
          else if available_quantity <? requested_quantity * 2 then
            (errors,
             ("Product " +:+ name +:+ ": low stock (" +:+ pretty available_quantity
              +:+ " remaining)") :: warnings)
          else (errors, warnings)
      end
  end.

Record InventoryReport := {
  inventory_valid : bool;
  inventory_warnings : list string
}.

(** [OrderValidator.validate_inventory_availability]. *)
Definition validate_inventory_availability (items : list Item)
    (inventory_data : gmap string Z) : Outcome InventoryReport :=
  let '(errors, warnings) := check_items items inventory_data in
  if is_empty errors then
    Return {| inventory_valid := true; inventory_warnings := warnings |}
  else
    Raise (new_InventoryError "Insufficient inventory for order"
             (Some (<["errors" := VList errors]> {["warnings" := VList warnings]}))).

(** The item can be served: its product is in the inventory with at least
    the requested quantity in stock. *)
Definition in_stock (inventory_data : gmap string Z) (item : Item) : bool :=
  match stock inventory_data item with
  | Some available_quantity =>
      negb (available_quantity <? default 0 (quantity item))
  | None => false
  end.

End Validators.

(** ** Sequences of [DynamoDBManager] calls *)

Module AuthMore.
Import Py Breaker.

(** A [ClientError] of the operation: the world the call starts in, the
    error code and message, and the world it leaves. *)
Record ClientFailure (W : Type) := {
  cf_before : W;
  cf_code : string;
  cf_message : string;
  cf_after : W
}.
Arguments cf_before {W} _.
Arguments cf_code {W} _.
Arguments cf_message {W} _.
Arguments cf_after {W} _.

(** Consecutive [execute_with_retry] calls, each with an operation that
    raises the given [ClientError]: the steps the manager's breaker sees. *)
Definition client_error_steps {W A : Type} (fails : list (ClientFailure W))
    : list (Operation W A * W) :=
  map (fun f =>
         (Auth._execute
            (raising (ClientError (error_response (cf_code f) (cf_message f) None)
                        (cf_message f))
               (cf_after f)),
          cf_before f)) fails.

Definition all_specific {W : Type} (fails : list (ClientFailure W)) : bool :=
  forallb (fun f => Auth.specific_code (cf_code f)) fails.

End AuthMore.

(** * Properties *)

(** ** The circuit breaker *)

Section BreakerFacts.
Import Py Breaker.
Context {W A : Type}.
Variable utcnow : W -> Z.

Lemma on_entry_Some cb now cb1 :
  on_entry cb now = Some cb1 ->
  same_config cb cb1 /\
  failure_count cb1 = failure_count cb /\
  last_failure_time cb1 = last_failure_time cb /\
  state cb1 <> OPEN /\
  (state cb <> OPEN -> cb1 = cb) /\
  (state cb = OPEN -> cb1 = set_state HALF_OPEN cb /\
                      _should_attempt_reset cb now = true).
Proof.
  unfold on_entry, same_config. intros H.
  destruct (state cb) eqn:Hs.
  - inversion H; subst. rewrite Hs. repeat split; congruence.
  - destruct (_should_attempt_reset cb now) eqn:Hr; [|discriminate].
    inversion H; subst; cbn. repeat split; congruence.
  - inversion H; subst. rewrite Hs. repeat split; congruence.
Qed.

Lemma on_entry_None cb now :
  on_entry cb now = None ->
  state cb = OPEN /\ _should_attempt_reset cb now = false.
Proof.
  unfold on_entry. destruct (state cb); try discriminate.
  destruct (_should_attempt_reset cb now); [discriminate | auto].
Qed.

Lemma on_entry_not_open cb now : state cb <> OPEN -> on_entry cb now = Some cb.
Proof. unfold on_entry. destruct (state cb); congruence. Qed.

Lemma settle_config (cb : CircuitBreaker) (r : Outcome A) now :
  same_config cb (settle cb r now).
Proof.
  unfold same_config, settle. destruct r as [a|e]; cbn; auto.
  destruct (isinstance e _); cbn; auto.
Qed.

Lemma call_config cb (func : Operation W A) w : same_config cb (breaker (call utcnow cb func w)).
Proof.
  unfold Breaker.call. destruct (on_entry cb (utcnow w)) as [cb1|] eqn:Ha.
  - destruct (func w) as [r w']. cbn.
    apply on_entry_Some in Ha as (Hc & _).
    pose proof (settle_config cb1 r (utcnow w')) as Hs.
    unfold same_config in *. intuition congruence.
  - cbn. unfold same_config. auto.
Qed.

(** A call made while the circuit is open and the recovery time has not
    passed is answered at once: the function is not run, the world and
    the breaker are untouched. *)
Lemma call_rejected cb (func : Operation W A) w t :
  state cb = OPEN ->
  last_failure_time cb = Some t ->
  utcnow w - t < recovery_timeout cb * 1000000 ->
  call utcnow cb func w =
    {| outcome := Raise (circuit_open_error cb); breaker := cb;
       invocations := 0; world := w |}.
Proof.
  intros Hs Ht Hlt. unfold Breaker.call, on_entry, _should_attempt_reset.
  rewrite Hs, Ht. unfold total_seconds_ge.
  destruct (Z.leb_spec (recovery_timeout cb * 1000000) (utcnow w - t)); [lia|].
  reflexivity.
Qed.

(** A dispatched call whose function raises a counted exception. *)
Lemma call_counted_failure cb (func : Operation W A) w e w' :
  state cb <> OPEN ->
  func w = (Raise e, w') ->
  isinstance e (expected_exception cb) = true ->
  call utcnow cb func w =
    {| outcome := Raise e; breaker := _on_failure cb (utcnow w');
       invocations := 1; world := w' |}.
Proof.
  intros Hs Hf He. unfold Breaker.call. rewrite (on_entry_not_open _ _ Hs), Hf.
  cbn. rewrite He. reflexivity.
Qed.

Lemma failures_open_the_circuit (fails : list (W * Exc * W)) :
  forall cb,
    fails <> [] ->
    state cb <> OPEN ->
    failure_count cb + Z.of_nat (length fails) = failure_threshold cb ->
    all_counted cb fails = true ->
    let '(cb', n) := calls utcnow cb (failing_steps (A:=A) fails) in
    state cb' = OPEN /\ n = length fails /\
    failure_count cb' = failure_threshold cb /\
    is_Some (last_failure_time cb').
Proof.
  induction fails as [|[[w e] w'] rest IH]; intros cb Hne Hs Hcount Hall.
  - congruence.
  - cbn in Hall. apply andb_prop in Hall as [He Hall].
    cbn [failing_steps map Breaker.calls].
    rewrite (call_counted_failure cb (raising e w') w e w' Hs eq_refl He).
    cbn [breaker invocations].
    destruct rest as [|f rest'].
    + cbn. cbn in Hcount.
      destruct (Z.leb_spec (failure_threshold cb) (failure_count cb + 1)); [|lia].
      repeat split; eauto; lia.
    + set (cb1 := _on_failure cb (utcnow w')).
      assert (Hs1 : state cb1 <> OPEN).
      { subst cb1. cbn. cbn in Hcount.
        destruct (Z.leb_spec (failure_threshold cb) (failure_count cb + 1));
          [lia | exact Hs]. }
      specialize (IH cb1 ltac:(discriminate) Hs1).
      change (map _ (f :: rest')) with (failing_steps (A:=A) (f :: rest')).
      destruct (calls utcnow cb1 (failing_steps (A:=A) (f :: rest'))) as [cb' n].
      destruct IH as (H1 & H2 & H3 & H4).
      * subst cb1. cbn. cbn in Hcount. cbn [length]. lia.
      * exact Hall.
      * repeat split; auto. cbn [length]. rewrite H2. reflexivity.
Qed.

(** C2.  Starting from a closed breaker with no failure recorded,
    [failure_threshold] consecutive calls that each raise a counted
    exception are all dispatched and leave the breaker OPEN with a failure
    time recorded; and any call made while the breaker is OPEN and less
    than [recovery_timeout] seconds after [last_failure_time] raises the
    circuit-open error, the [ServiceError] with message "Service
    temporarily unavailable", code CIRCUIT_BREAKER_OPEN, status 503 and
    [retry_after] in its details, without running the guarded function (no
    invocation, the world and the breaker unchanged). *)
Theorem circuit_opens_after_threshold_and_rejects
    (cb : CircuitBreaker) (fails : list (W * Exc * W)) :
  0 < failure_threshold cb ->
  state cb = CLOSED ->
  failure_count cb = 0 ->
  length fails = Z.to_nat (failure_threshold cb) ->
  all_counted cb fails = true ->
  let opened := calls utcnow cb (failing_steps (A:=A) fails) in
  (state opened.1 = OPEN /\ opened.2 = length fails /\
   is_Some (last_failure_time opened.1)) /\
  (forall cb' (func : Operation W A) w t,
      state cb' = OPEN ->
      last_failure_time cb' = Some t ->
      utcnow w - t < recovery_timeout cb' * 1000000 ->
      call utcnow cb' func w =
        {| outcome :=
             Raise (Service ServiceError
                      {| message := "Service temporarily unavailable";
                         code := "CIRCUIT_BREAKER_OPEN";
                         status_code := 503;
                         details :=
                           {["retry_after" := VInt (recovery_timeout cb')]} |});
           breaker := cb'; invocations := 0; world := w |}).
Proof.
  intros Hthr Hs Hc Hlen Hall. cbn zeta. split.
  - pose proof (failures_open_the_circuit fails cb) as H.
    destruct (calls utcnow cb (failing_steps (A:=A) fails)) as [cb' n]. cbn.
    destruct H as (H1 & H2 & _ & H4); auto.
    + intros ->. cbn in Hlen. lia.
    + congruence.
    + rewrite Hlen, Hc. lia.
  - intros cb' func w t Ho Ht Hlt.
    rewrite (call_rejected cb' func w t Ho Ht Hlt). reflexivity.
Qed.


Lemma call_inv cb (func : Operation W A) w :
  open_inv cb -> open_inv (breaker (call utcnow cb func w)).
Proof.
  intros Hinv. unfold Breaker.call.
  destruct (on_entry cb (utcnow w)) as [cb1|] eqn:Ha; [|exact Hinv].
  apply on_entry_Some in Ha as (_ & _ & _ & Hno & _).
  destruct (func w) as [[a|e] w']; cbn.
  - unfold open_inv. cbn. discriminate.
  - destruct (isinstance e (expected_exception cb1)).
    + unfold open_inv. cbn.
      destruct (Z.leb_spec (failure_threshold cb1) (failure_count cb1 + 1)).
      * intros _. split; [eauto | lia].
      * intros Hs. contradiction.
    + unfold open_inv. intros Hs. contradiction.
Qed.

Lemma calls_inv (steps : list (Operation W A * W)) :
  forall cb,
    open_inv cb ->
    open_inv (calls utcnow cb steps).1 /\
    same_config cb (calls utcnow cb steps).1.
Proof.
  induction steps as [|[func w] rest IH]; intros cb Hinv.
  - cbn. unfold same_config. auto.
  - cbn [Breaker.calls].
    specialize (IH _ (call_inv cb func w Hinv)).
    pose proof (call_config cb func w) as Hc.
    destruct (calls utcnow (breaker (call utcnow cb func w)) rest) as [cb' n].
    cbn in *. destruct IH as [H1 H2]. split; [exact H1|].
    unfold same_config in *. intuition congruence.
Qed.

(** What one guarded call can do to the state: a breaker that is not
    OPEN is not left HALF_OPEN unless it was HALF_OPEN already, and an
    OPEN breaker either rejects the call and stays as it is, or the
    recovery time has passed. *)
Lemma call_half_open_only_after_timeout cb (func : Operation W A) w :
  open_inv cb ->
  let r := call utcnow cb func w in
  (state cb = OPEN -> invocations r = 1%nat ->
   exists t, last_failure_time cb = Some t /\
             recovery_timeout cb * 1000000 <= utcnow w - t) /\
  (state (breaker r) = HALF_OPEN -> state cb <> HALF_OPEN ->
   state cb = OPEN /\
   exists t, last_failure_time cb = Some t /\
             recovery_timeout cb * 1000000 <= utcnow w - t).
Proof.
  intros Hinv. cbn zeta.
  assert (Hel : state cb = OPEN -> _should_attempt_reset cb (utcnow w) = true ->
                exists t, last_failure_time cb = Some t /\
                          recovery_timeout cb * 1000000 <= utcnow w - t).
  { intros Ho Hr. destruct (Hinv Ho) as [[t Ht] _]. exists t. split; [exact Ht|].
    unfold _should_attempt_reset in Hr. rewrite Ht in Hr.
    unfold total_seconds_ge in Hr. apply Z.leb_le in Hr. lia. }
  unfold Breaker.call.
  destruct (on_entry cb (utcnow w)) as [cb1|] eqn:Ha.
  - apply on_entry_Some in Ha as (_ & _ & _ & _ & Hsame & Hopen).
    destruct (func w) as [r w']. cbn [breaker invocations]. split.
    + intros Ho _. apply Hel; [exact Ho | apply (Hopen Ho)].
    + intros Hh Hnh. destruct (decide (state cb = OPEN)) as [Ho|Hno].
      * split; [exact Ho|]. apply Hel; [exact Ho | apply (Hopen Ho)].
      * exfalso. rewrite (Hsame Hno) in Hh.
        destruct r as [a|e]; cbn in Hh; [discriminate Hh|].
        destruct (isinstance e (expected_exception cb)); [|contradiction].
        cbn in Hh.
        destruct (failure_threshold cb <=? failure_count cb + 1);
          [discriminate Hh | contradiction].
  - apply on_entry_None in Ha as [Ho _]. cbn [breaker invocations]. split.
    + intros _ H. discriminate H.
    + intros Hh _. rewrite Ho in Hh. discriminate Hh.
Qed.

(** C7.  Whatever guarded calls a breaker has served since it was
    created, with whatever outcomes: if its state is OPEN then
    [last_failure_time] is set and [failure_count >= failure_threshold].
    And whatever guarded call comes next, with whatever outcome: an OPEN
    breaker lets it through only when at least [recovery_timeout] seconds
    have passed since [last_failure_time]; a breaker that was not
    HALF_OPEN is HALF_OPEN after the call only if it was OPEN and that
    time had passed; and the head of [call] moves it to HALF_OPEN only
    then. *)
Theorem open_invariant_from_init
    (threshold timeout : Z) (expected : ExcType)
    (steps : list (Operation W A * W)) :
  let cb := (calls utcnow (Breaker.init threshold timeout expected) steps).1 in
  (state cb = OPEN ->
     (exists t, last_failure_time cb = Some t) /\
     threshold <= failure_count cb) /\
  (forall (func : Operation W A) (w : W),
      let r := call utcnow cb func w in
      (state cb = OPEN -> invocations r = 1%nat ->
       exists t, last_failure_time cb = Some t /\
                 timeout * 1000000 <= utcnow w - t) /\
      (state (breaker r) = HALF_OPEN -> state cb <> HALF_OPEN ->
       state cb = OPEN /\
       exists t, last_failure_time cb = Some t /\
                 timeout * 1000000 <= utcnow w - t)) /\
  (forall now cb1,
      state cb <> HALF_OPEN ->
      on_entry cb now = Some cb1 ->
      state cb1 = HALF_OPEN ->
      exists t, last_failure_time cb = Some t /\
                timeout * 1000000 <= now - t).
Proof.
  cbn zeta.
  destruct (calls_inv steps (Breaker.init threshold timeout expected))
    as [Hinv (Hthr & Hrt & _)].
  { unfold open_inv. cbn. discriminate. }
  set (cb := (calls utcnow (Breaker.init threshold timeout expected) steps).1) in *.
  cbn in Hthr, Hrt. split; [|split].
  - intros Hs. destruct (Hinv Hs) as [[t Ht] Hc]. split; [eauto | lia].
  - intros func w.
    pose proof (call_half_open_only_after_timeout cb func w Hinv) as H.
    cbn zeta in H. rewrite Hrt in H. exact H.
  - intros now cb1 Hnh Ha Hs1.
    destruct (decide (state cb = OPEN)) as [Ho|Hno].
    + apply on_entry_Some in Ha as (_ & _ & _ & _ & _ & Hopen).
      destruct (Hopen Ho) as [_ Hr].
      destruct (Hinv Ho) as [[t Ht] _]. exists t. split; [exact Ht|].
      unfold _should_attempt_reset in Hr. rewrite Ht in Hr.
      unfold total_seconds_ge in Hr. apply Z.leb_le in Hr. lia.
    + apply on_entry_Some in Ha as (_ & _ & _ & _ & Hsame & _).
      rewrite (Hsame Hno) in Hs1. contradiction.
Qed.



(** A call is let through when the breaker is not OPEN, and when it is
    OPEN with no failure time or with the recovery time passed. *)
Lemma on_entry_dispatches cb now :
  (state cb = OPEN ->
   forall t, last_failure_time cb = Some t ->
             recovery_timeout cb * 1000000 <= now - t) ->
  on_entry cb now =
    Some (if decide (state cb = OPEN) then set_state HALF_OPEN cb else cb).
Proof.
  intros H. unfold on_entry, _should_attempt_reset, total_seconds_ge.
  destruct (state cb) eqn:Hs; cbn; try reflexivity.
  destruct (last_failure_time cb) as [t|] eqn:Ht; [|reflexivity].
  specialize (H eq_refl t eq_refl).
  destruct (Z.leb_spec (recovery_timeout cb * 1000000) (now - t));
    [reflexivity | lia].
Qed.

(** C8.  When the guarded function raises an exception that is not an
    instance of [expected_exception].  A call the breaker lets through
    (it is not OPEN, or it is OPEN and the recovery time has passed) runs
    the function once and the caller gets that very exception;
    [failure_count] and [last_failure_time] are what they were; the
    breaker is not OPEN afterwards: its state is unchanged, or HALF_OPEN
    if it was OPEN.  In every case the two fields are unchanged, and the
    breaker is OPEN afterwards only when it was OPEN before and the call
    was rejected without running the function. *)
Theorem uncounted_error_leaves_breaker
    (cb : CircuitBreaker) (func : Operation W A) (w w' : W) (e : Exc) :
  func w = (Raise e, w') ->
  isinstance e (expected_exception cb) = false ->
  let r := call utcnow cb func w in
  ((state cb = OPEN ->
    forall t, last_failure_time cb = Some t ->
              recovery_timeout cb * 1000000 <= utcnow w - t) ->
   invocations r = 1%nat /\ outcome r = Raise e /\ world r = w' /\
   state (breaker r) <> OPEN /\
   state (breaker r) = (if decide (state cb = OPEN) then HALF_OPEN else state cb)) /\
  failure_count (breaker r) = failure_count cb /\
  last_failure_time (breaker r) = last_failure_time cb /\
  (invocations r = 1%nat -> outcome r = Raise e /\ state (breaker r) <> OPEN) /\
  (state (breaker r) = OPEN -> state cb = OPEN /\ invocations r = 0%nat).
Proof.
  intros Hf He. cbn zeta. split.
  - intros Hd. unfold Breaker.call.
    rewrite (on_entry_dispatches cb (utcnow w) Hd), Hf.
    cbn [outcome breaker invocations world settle].
    destruct (decide (state cb = OPEN)) as [Ho|Hno].
    + change (expected_exception (set_state HALF_OPEN cb))
        with (expected_exception cb).
      rewrite He. cbn. repeat split; auto; discriminate.
    + rewrite He. repeat split; auto.
  - unfold Breaker.call.
    destruct (on_entry cb (utcnow w)) as [cb1|] eqn:Ha.
    + apply on_entry_Some in Ha as ((_ & _ & Hexp) & Hc & Hl & Hno & _).
      rewrite Hf. cbn. rewrite Hexp, He. repeat split; auto; contradiction.
    + apply on_entry_None in Ha as [Hs _]. cbn.
      repeat split; auto; discriminate.
Qed.

End BreakerFacts.

(** ** The managers *)

Section ManagerFacts.
Import Py Breaker.
Context {W A : Type}.
Variable utcnow : W -> Z.

Lemma dynamo_catch_all_class e :
  Auth.catch_all e = true ->
  exists d, Auth._execute_handlers e = Service DynamoDBError d /\
            code d = "DYNAMODB_ERROR" /\ status_code d = 503.
Proof.
  destruct e as [cls d|response text| | | | |]; cbn; try discriminate;
    try solve [intros _; eexists; repeat split; reflexivity].
  destruct (resp_Error response) as [[[error_code|] [error_message|]]|];
    try discriminate.
  cbn [Code Message]. unfold Auth.specific_code, Auth.on_client_error. intros H.
  destruct (String.eqb error_code "ResourceNotFoundException"); [discriminate|].
  destruct (String.eqb error_code "ConditionalCheckFailedException"); [discriminate|].
  destruct (String.eqb error_code "ProvisionedThroughputExceededException");
    [discriminate|].
  destruct (String.eqb error_code "ValidationException"); [discriminate|].
  eexists; repeat split.
Qed.

(** The four specific DynamoDB codes give errors the breaker of
    [DynamoDBManager] does not count. *)
Lemma dynamo_specific_codes_uncounted error_code msg rid text :
  Auth.specific_code error_code = true ->
  isinstance
    (Auth._execute_handlers (ClientError (error_response error_code msg rid) text))
    (TService DynamoDBError) = false.
Proof.
  unfold Auth.specific_code. cbn. unfold Auth.on_client_error. intros H.
  destruct (String.eqb error_code "ResourceNotFoundException"); [reflexivity|].
  destruct (String.eqb error_code "ConditionalCheckFailedException"); [reflexivity|].
  destruct (String.eqb error_code "ProvisionedThroughputExceededException");
    [reflexivity|].
  destruct (String.eqb error_code "ValidationException"); [reflexivity|].
  discriminate.
Qed.

(** A [ClientError] whose response lacks ['Error'], ['Code'] or
    ['Message'] leaves [_execute] as the [KeyError] of that key. *)
Lemma dynamo_missing_key_class response text key :
  Auth.missing_key response = Some key ->
  Auth._execute_handlers (ClientError response text) = new_KeyError key.
Proof.
  unfold Auth.missing_key. cbn.
  destruct (resp_Error response) as [[[c|] [msg|]]|]; cbn;
    intros H; inversion H; reflexivity.
Qed.

(** In [DynamoDBManager]: what the catch-all clauses catch becomes a
    [DynamoDBError], which the manager's breaker counts. *)
Lemma dynamo_catch_all_failure_is_counted
    (m : Auth.DynamoDBManager) (operation : Operation W A)
    (w w' : W) (e : Exc) (cb1 : CircuitBreaker) :
  operation w = (Raise e, w') ->
  Auth.catch_all e = true ->
  expected_exception (Auth.circuit_breaker m) = TService DynamoDBError ->
  on_entry (Auth.circuit_breaker m) (utcnow w) = Some cb1 ->
  let r := Auth.execute_with_retry utcnow m operation w in
  (exists d, outcome r = Raise (Service DynamoDBError d) /\
             code d = "DYNAMODB_ERROR" /\ status_code d = 503) /\
  invocations r = 1%nat /\
  failure_count (breaker r) = failure_count (Auth.circuit_breaker m) + 1 /\
  last_failure_time (breaker r) = Some (utcnow w').
Proof.
  intros Hop Hc Hexp Ha. cbn zeta.
  unfold Auth.execute_with_retry, Breaker.call, Auth._execute.
  rewrite Ha, Hop.
  destruct (dynamo_catch_all_class e Hc) as (d & Hd & Hcode & Hst).
  apply on_entry_Some in Ha as ((_ & _ & Hexp1) & Hcount & _).
  cbn [outcome breaker invocations settle]. rewrite Hd, Hexp1, Hexp.
  change (isinstance (Service DynamoDBError d) (TService DynamoDBError))
    with true.
  cbn. rewrite Hcount. split; [eauto|]. auto.
Qed.

(** In [DynamoDBManager]: the [KeyError] of a [ClientError] whose response
    lacks a key reaches the caller and is not counted. *)
Lemma dynamo_missing_key_is_not_counted
    (m : Auth.DynamoDBManager) (operation : Operation W A)
    (w w' : W) (response : ClientResponse) (text key : string)
    (cb1 : CircuitBreaker) :
  operation w = (Raise (ClientError response text), w') ->
  Auth.missing_key response = Some key ->
  expected_exception (Auth.circuit_breaker m) = TService DynamoDBError ->
  on_entry (Auth.circuit_breaker m) (utcnow w) = Some cb1 ->
  let r := Auth.execute_with_retry utcnow m operation w in
  outcome r = Raise (OtherException "KeyError" ("'" +:+ key +:+ "'")) /\
  invocations r = 1%nat /\
  failure_count (breaker r) = failure_count (Auth.circuit_breaker m) /\
  last_failure_time (breaker r) = last_failure_time (Auth.circuit_breaker m).
Proof.
  intros Hop Hk Hexp Ha. cbn zeta.
  unfold Auth.execute_with_retry, Breaker.call, Auth._execute.
  rewrite Ha, Hop.
  rewrite (dynamo_missing_key_class response text key Hk).
  apply on_entry_Some in Ha as ((_ & _ & Hexp1) & Hcount & Hlast & _).
  cbn [outcome breaker invocations settle]. rewrite Hexp1, Hexp.
  change (isinstance (new_KeyError key) (TService DynamoDBError)) with false.
  cbn iota. auto.
Qed.

(** In [MongoDBManager]: what its last clause catches becomes a
    [MongoDBError], which its breaker counts. *)
Lemma mongo_unexpected_failure_is_counted
    (m : OrderProcessing.MongoDBManager) (operation : Operation W A)
    (w w' : W) (e : Exc) (cb1 : CircuitBreaker) :
  operation w = (Raise e, w') ->
  OrderProcessing.unexpected e = true ->
  expected_exception (OrderProcessing.circuit_breaker m) = TService MongoDBError ->
  on_entry (OrderProcessing.circuit_breaker m) (utcnow w) = Some cb1 ->
  let r := OrderProcessing.execute_with_retry utcnow m operation w in
  outcome r =
    Raise (new_MongoDBError ("Unexpected database error: " +:+ str e) None) /\
  invocations r = 1%nat /\
  failure_count (breaker r) =
    failure_count (OrderProcessing.circuit_breaker m) + 1 /\
  last_failure_time (breaker r) = Some (utcnow w').
Proof.
  intros Hop Hu Hexp Ha. cbn zeta.
  unfold OrderProcessing.execute_with_retry, Breaker.call, OrderProcessing._execute.
  rewrite Ha, Hop.
  apply on_entry_Some in Ha as ((_ & _ & Hexp1) & Hcount & _).
  destruct e; try discriminate;
    cbn [outcome breaker invocations settle OrderProcessing._execute_handlers];
    rewrite Hexp1, Hexp;
    match goal with
    | |- context [isinstance ?x ?t] => change (isinstance x t) with true
    end;
    cbn; rewrite Hcount; auto.
Qed.

(** C4 (as the code has it).  In [DynamoDBManager.execute_with_retry] a
    failure that meets none of the four specific clauses (a [ClientError]
    whose response carries another code and a message, a [BotoCoreError],
    any other [Exception]) is raised as [DynamoDBError], code
    DYNAMODB_ERROR, status 503.  That is the class the manager's breaker
    counts: a dispatched call runs the operation once, raises that error,
    adds one to [failure_count] and records the failure time.  In
    [MongoDBManager.execute_with_retry] a failure that is no pymongo error
    is raised as [MongoDBError], code MONGODB_ERROR, status 503, with the
    message "Unexpected database error: ..." and counted in the same way.
    One failure is not wrapped: a [ClientError] whose response lacks
    ['Error'], ['Code'] or ['Message'] makes the [except ClientError]
    clause itself raise [KeyError]; the caller gets that [KeyError] and
    the breaker does not count it. *)
Theorem unrecognized_failure_is_counted
    (m : Auth.DynamoDBManager) (operation : Operation W A)
    (w w' : W) (e : Exc) (cb1 : CircuitBreaker)
    (mm : OrderProcessing.MongoDBManager) (operation' : Operation W A)
    (v v' : W) (e' : Exc) (cb1' : CircuitBreaker) :
  operation w = (Raise e, w') ->
  Auth.catch_all e = true ->
  expected_exception (Auth.circuit_breaker m) = TService DynamoDBError ->
  on_entry (Auth.circuit_breaker m) (utcnow w) = Some cb1 ->
  operation' v = (Raise e', v') ->
  OrderProcessing.unexpected e' = true ->
  expected_exception (OrderProcessing.circuit_breaker mm) = TService MongoDBError ->
  on_entry (OrderProcessing.circuit_breaker mm) (utcnow v) = Some cb1' ->
  let r := Auth.execute_with_retry utcnow m operation w in
  let r' := OrderProcessing.execute_with_retry utcnow mm operation' v in
  ((exists d, outcome r = Raise (Service DynamoDBError d) /\
              code d = "DYNAMODB_ERROR" /\ status_code d = 503) /\
   invocations r = 1%nat /\
   failure_count (breaker r) = failure_count (Auth.circuit_breaker m) + 1 /\
   last_failure_time (breaker r) = Some (utcnow w')) /\
  ((exists d, outcome r' = Raise (Service MongoDBError d) /\
              code d = "MONGODB_ERROR" /\ status_code d = 503 /\
              message d = "Unexpected database error: " +:+ str e') /\
   invocations r' = 1%nat /\
   failure_count (breaker r') =
     failure_count (OrderProcessing.circuit_breaker mm) + 1 /\
   last_failure_time (breaker r') = Some (utcnow v')) /\
  (forall (operation2 : Operation W A) (u u' : W)
          (response : ClientResponse) (text key : string) (cb2 : CircuitBreaker),
      operation2 u = (Raise (ClientError response text), u') ->
      Auth.missing_key response = Some key ->
      on_entry (Auth.circuit_breaker m) (utcnow u) = Some cb2 ->
      let r2 := Auth.execute_with_retry utcnow m operation2 u in
      outcome r2 = Raise (OtherException "KeyError" ("'" +:+ key +:+ "'")) /\
      invocations r2 = 1%nat /\
      failure_count (breaker r2) = failure_count (Auth.circuit_breaker m) /\
      last_failure_time (breaker r2) =
        last_failure_time (Auth.circuit_breaker m)).
Proof.
  intros Hop Hc Hexp Ha Hop' Hu Hexp' Ha'. cbn zeta. split; [|split].
  - exact (dynamo_catch_all_failure_is_counted m operation w w' e cb1
             Hop Hc Hexp Ha).
  - destruct (mongo_unexpected_failure_is_counted mm operation' v v' e' cb1'
                Hop' Hu Hexp' Ha') as (Ho & Hi & Hf & Hl).
    split; [|auto]. eexists. split; [exact Ho|]. repeat split.
  - intros operation2 u u' response text key cb2 Hop2 Hk Ha2.
    exact (dynamo_missing_key_is_not_counted m operation2 u u' response text key
             cb2 Hop2 Hk Hexp Ha2).
Qed.

(** [MongoDBManager.execute_with_retry] never looks at [retry_config]:
    the operation runs at most once per call, whatever [max_attempts]. *)
Lemma execute_with_retry_ignores_retry_config
    (m : OrderProcessing.MongoDBManager) (cfg : Retry.RetryConfig)
    (operation : Operation W A) (w : W) :
  OrderProcessing.execute_with_retry utcnow
    {| OrderProcessing.retry_config := cfg;
       OrderProcessing.circuit_breaker := OrderProcessing.circuit_breaker m |}
    operation w
  = OrderProcessing.execute_with_retry utcnow m operation w.
Proof. reflexivity. Qed.

Lemma execute_with_retry_at_most_once
    (m : OrderProcessing.MongoDBManager) (operation : Operation W A) (w : W) :
  (invocations (OrderProcessing.execute_with_retry utcnow m operation w) <= 1)%nat.
Proof.
  unfold OrderProcessing.execute_with_retry, Breaker.call.
  destruct (on_entry _ _); [|cbn; lia].
  destruct (OrderProcessing._execute operation w). cbn. lia.
Qed.

End ManagerFacts.

(** Scenario A of the specification: threshold 3, three failures in a row,
    the fourth call is rejected without dispatch. *)
Example scenario_A :
  let cb := Breaker.init 3 60 (Py.TService Py.ExternalServiceError) in
  let e := Py.new_ExternalServiceError "Failed to communicate with auth" "auth" None in
  let opened :=
    (Breaker.calls id cb
       (Breaker.failing_steps (A:=unit) [(0, e, 1); (2, e, 3); (4, e, 5)])).1 in
  Breaker.state opened = Breaker.OPEN /\
  forall func : Breaker.Operation Z unit,
    Breaker.call id opened func 6 =
      {| Breaker.outcome := Py.Raise (Breaker.circuit_open_error opened);
         Breaker.breaker := opened; Breaker.invocations := 0;
         Breaker.world := 6 |}.
Proof. split; reflexivity. Qed.

Lemma circuit_opens_after_threshold_and_rejects_witness :
  let cb := Breaker.init 3 60 (Py.TService Py.ExternalServiceError) in
  let e := Py.new_ExternalServiceError "Failed to communicate with auth" "auth" None in
  let fails := [(0, e, 1); (2, e, 3); (4, e, 5)] in
  let opened := Breaker.calls id cb (Breaker.failing_steps (A:=unit) fails) in
  (Breaker.state opened.1 = Breaker.OPEN /\ opened.2 = length fails /\
   is_Some (Breaker.last_failure_time opened.1)) /\
  (forall cb' (func : Breaker.Operation Z unit) w t,
      Breaker.state cb' = Breaker.OPEN ->
      Breaker.last_failure_time cb' = Some t ->
      id w - t < Breaker.recovery_timeout cb' * 1000000 ->
      Breaker.call id cb' func w =
        {| Breaker.outcome :=
             Py.Raise (Py.Service Py.ServiceError
                         {| Py.message := "Service temporarily unavailable";
                            Py.code := "CIRCUIT_BREAKER_OPEN";
                            Py.status_code := 503;
                            Py.details :=
                              {["retry_after" :=
                                  Py.VInt (Breaker.recovery_timeout cb')]} |});
           Breaker.breaker := cb'; Breaker.invocations := 0;
           Breaker.world := w |}).
Proof.
  intros cb e fails.
  apply (circuit_opens_after_threshold_and_rejects (A:=unit) id cb fails).
  - cbn. lia.
  - reflexivity.
  - reflexivity.
  - reflexivity.
  - reflexivity.
Defined.

(** An OPEN breaker as [MongoDBManager] reaches it: five counted failures,
    the last one at time 0. *)
Example mongo_breaker_opened :
  (Breaker.calls id (Breaker.init 5 30 (Py.TService Py.MongoDBError))
     (Breaker.failing_steps (A:=unit)
        (replicate 5 (0, Py.new_MongoDBError "Database error: x" None, 0)))).1
  = {| Breaker.failure_threshold := 5; Breaker.recovery_timeout := 30;
       Breaker.expected_exception := Py.TService Py.MongoDBError;
       Breaker.failure_count := 5; Breaker.last_failure_time := Some 0;
       Breaker.state := Breaker.OPEN |}.
Proof. reflexivity. Qed.



(** After that uncounted failure the breaker is HALF_OPEN, and the next
    call is dispatched as well: a second trial. *)
Example half_open_second_trial :
  let cb := {| Breaker.failure_threshold := 5; Breaker.recovery_timeout := 30;
               Breaker.expected_exception := Py.TService Py.MongoDBError;
               Breaker.failure_count := 5; Breaker.last_failure_time := Some 0;
               Breaker.state := Breaker.OPEN |} in
  let conflict := Py.new_ConflictError "Duplicate key error: x" None in
  let r1 := Breaker.call (A:=unit) id cb (Breaker.raising conflict 30000001) 30000000 in
  let r2 := Breaker.call (A:=unit) id (Breaker.breaker r1)
              (Breaker.raising conflict 30000003) 30000002 in
  Breaker.state (Breaker.breaker r1) = Breaker.HALF_OPEN /\
  Breaker.invocations r1 = 1%nat /\ Breaker.invocations r2 = 1%nat.
Proof. repeat split. Qed.

Lemma uncounted_error_leaves_breaker_witness :
  let cb := Breaker.init 5 30 (Py.TService Py.DynamoDBError) in
  let e := Py.new_NotFoundError "DynamoDB resource not found: Users" None in
  let r := Breaker.call (A:=unit) id cb (Breaker.raising e 7) 3 in
  Breaker.invocations r = 1%nat /\
  Breaker.outcome r = Py.Raise e /\
  Breaker.world r = 7 /\
  Breaker.state (Breaker.breaker r) = Breaker.CLOSED /\
  Breaker.failure_count (Breaker.breaker r) = 0 /\
  Breaker.last_failure_time (Breaker.breaker r) = None.
Proof.
  intros cb e.
  destruct (uncounted_error_leaves_breaker (A:=unit) id cb (Breaker.raising e 7)
              3 7 e eq_refl eq_refl) as (Hd & Hc & Hl & _).
  destruct (Hd ltac:(discriminate)) as (Hi & Ho & Hw & _ & Hs).
  repeat split; assumption.
Defined.

Lemma unrecognized_failure_is_counted_witness :
  let e := Py.OtherException "RuntimeError" "boom" in
  let throttled :=
    Py.ClientError
      {| Py.resp_Error := Some {| Py.Code := Some "ThrottlingException";
                                  Py.Message := None |};
         Py.resp_RequestId := None |}
      "An error occurred (ThrottlingException)" in
  let m := Auth.init None in
  let mm := OrderProcessing.init None in
  let r := Auth.execute_with_retry (A:=unit) id m (Breaker.raising e 9) 4 in
  let r' := OrderProcessing.execute_with_retry (A:=unit) id mm (Breaker.raising e 9) 4 in
  let r2 := Auth.execute_with_retry (A:=unit) id m (Breaker.raising throttled 9) 4 in
  ((exists d, Breaker.outcome r = Py.Raise (Py.Service Py.DynamoDBError d) /\
              Py.code d = "DYNAMODB_ERROR" /\ Py.status_code d = 503) /\
   Breaker.invocations r = 1%nat /\
   Breaker.failure_count (Breaker.breaker r) = 0 + 1 /\
   Breaker.last_failure_time (Breaker.breaker r) = Some 9) /\
  ((exists d, Breaker.outcome r' = Py.Raise (Py.Service Py.MongoDBError d) /\
              Py.code d = "MONGODB_ERROR" /\ Py.status_code d = 503 /\
              Py.message d = "Unexpected database error: boom") /\
   Breaker.invocations r' = 1%nat /\
   Breaker.failure_count (Breaker.breaker r') = 0 + 1 /\
   Breaker.last_failure_time (Breaker.breaker r') = Some 9) /\
  (Breaker.outcome r2 = Py.Raise (Py.OtherException "KeyError" "'Message'") /\
   Breaker.invocations r2 = 1%nat /\
   Breaker.failure_count (Breaker.breaker r2) = 0 /\
   Breaker.last_failure_time (Breaker.breaker r2) = None).
Proof.
  intros e throttled m mm.
  destruct (unrecognized_failure_is_counted (A:=unit) id
              m (Breaker.raising e 9) 4 9 e (Auth.circuit_breaker m)
              mm (Breaker.raising e 9) 4 9 e (OrderProcessing.circuit_breaker mm)
              eq_refl eq_refl eq_refl eq_refl eq_refl eq_refl eq_refl eq_refl)
    as (Hd & Hm & Hk).
  split; [exact Hd|]. split; [exact Hm|].
  exact (Hk (Breaker.raising throttled 9) 4 9 _ _ "Message"
            (Auth.circuit_breaker m) eq_refl eq_refl eq_refl).
Defined.

(** C4 as stated fails: an exception no clause of
    [DynamoDBManager._execute] names (here a [RuntimeError]) does not come
    out with code INTERNAL_ERROR, and it does count toward the breaker: the
    failure counter of a new manager goes from 0 to 1. *)
Lemma unrecognized_failure_counterexample :
  let e := Py.OtherException "RuntimeError" "boom" in
  let m := Auth.init None in
  let r := Auth.execute_with_retry (A:=unit) id m (Breaker.raising e 9) 4 in
  ~ (exists cls d, Breaker.outcome r = Py.Raise (Py.Service cls d) /\
                    Py.code d = "INTERNAL_ERROR") /\
  ~ (Breaker.failure_count (Breaker.breaker r) =
     Breaker.failure_count (Auth.circuit_breaker m)).
Proof.
  cbn zeta. split.
  - intros (cls & d & H & Hcode). vm_compute in H.
    inversion H; subst d. cbn in Hcode. discriminate Hcode.
  - vm_compute. discriminate.
Qed.

(** [MongoDBManager.execute_with_retry] with [max_attempts = 3] and an
    operation that always fails with a connection failure: one invocation. *)
Example mongo_execute_with_retry_runs_once :
  let e := Py.Mongo Py.ConnectionFailure
             {| Py.mongo_code := None; Py.mongo_details := None;
                Py.mongo_text := "connection refused" |} in
  let m := OrderProcessing.init (Some (Retry.with_attempts_delay 3 1)) in
  let r := OrderProcessing.execute_with_retry (A:=unit) id m (Breaker.raising e 1) 0 in
  Retry.max_attempts (OrderProcessing.retry_config m) = 3 /\
  Breaker.invocations r = 1%nat /\
  Breaker.outcome r =
    Py.Raise (Py.new_MongoDBError "Database connection failed: connection refused" None).
Proof. repeat split. Qed.

(** ** The HTTP request wrapper *)

Section HttpFacts.
Import HttpClient.
Variable retries : Z.
Variable request : Z -> Attempt.
Variable uniform : Z -> Q.

Lemma requests_step a tr :
  requests (Request a :: on_caught retries uniform a ++ tr) = S (requests tr).
Proof.
  unfold requests, on_caught. destruct (a <? retries); reflexivity.
Qed.

Lemma sleeps_step_more a tr :
  a < retries ->
  sleeps (Request a :: on_caught retries uniform a ++ tr) =
    wait_time a (uniform a) :: sleeps tr.
Proof.
  intros H. unfold on_caught.
  destruct (Z.ltb_spec a retries); [reflexivity | lia].
Qed.

Lemma sleeps_step_last a tr :
  retries <= a ->
  sleeps (Request a :: on_caught retries uniform a ++ tr) = sleeps tr.
Proof.
  intros H. unfold on_caught.
  destruct (Z.ltb_spec a retries); [lia | reflexivity].
Qed.

Lemma seqZ_S k c : seqZ k (Z.of_nat (S c)) = k :: seqZ (k + 1) (Z.of_nat c).
Proof.
  rewrite seqZ_cons by lia. f_equal. f_equal; lia.
Qed.

(** The loop from attempt [k] on, when every attempt before the last
    allowed one fails retryably: all [S c] remaining attempts are made,
    each but the last followed by its sleep, and the caller gets what the
    last attempt gave. *)
Lemma loop_exhausts c :
  forall k last,
    k + Z.of_nat c = retries ->
    (forall a, k <= a < retries -> fails_retryably (request a) = true) ->
    exists tr,
      loop retries request uniform (seqZ k (Z.of_nat (S c))) last =
        (final_outcome (request retries), tr) /\
      requests tr = S c /\
      sleeps tr = map (fun a => wait_time a (uniform a)) (seqZ k (Z.of_nat c)).
Proof.
  induction c as [|c IH]; intros k last Hk Hfail.
  - assert (k = retries) by lia. subst k.
    change (seqZ retries (Z.of_nat 1)) with [retries].
    cbn [loop].
    destruct (request retries) as [r|e]; cbn [final_outcome].
    + rewrite Z.ltb_irrefl, andb_false_r. eexists; repeat split.
    + destruct (caught e).
      * eexists. split; [reflexivity|]. split.
        -- apply requests_step.
        -- rewrite sleeps_step_last by lia. reflexivity.
      * eexists; repeat split.
  - rewrite seqZ_S. cbn [loop].
    assert (Hlt : k < retries) by lia.
    pose proof (Hfail k ltac:(lia)) as Hk0.
    rewrite (seqZ_S k c). cbn [map].
    destruct (request k) as [r|e]; cbn in Hk0.
    + rewrite Hk0. destruct (Z.ltb_spec k retries); [|lia]. cbn [andb].
      destruct (IH (k + 1) (Some (status_error r)) ltac:(lia)
                  ltac:(intros; apply Hfail; lia)) as (tr & Hl & Hr & Hs).
      rewrite Hl. eexists. split; [reflexivity|]. split.
      * rewrite requests_step, Hr. reflexivity.
      * rewrite sleeps_step_more by lia. rewrite Hs. reflexivity.
    + rewrite Hk0.
      destruct (IH (k + 1) (Some e) ltac:(lia)
                  ltac:(intros; apply Hfail; lia)) as (tr & Hl & Hr & Hs).
      rewrite Hl. eexists. split; [reflexivity|]. split.
      * rewrite requests_step, Hr. reflexivity.
      * rewrite sleeps_step_more by lia. rewrite Hs. reflexivity.
Qed.

Lemma make_request_exhausts :
  0 <= retries ->
  (forall a, 0 <= a < retries -> fails_retryably (request a) = true) ->
  exists tr,
    _make_request retries request uniform =
      (final_outcome (request retries), tr) /\
    requests tr = Z.to_nat (retries + 1) /\
    sleeps tr = map (fun a => wait_time a (uniform a)) (seqZ 0 retries).
Proof.
  intros H0 Hfail. unfold _make_request.
  destruct (loop_exhausts (Z.to_nat retries) 0 None ltac:(lia))
    as (tr & Hl & Hr & Hs).
  { intros a Ha. apply Hfail. lia. }
  exists tr.
  replace (retries + 1) with (Z.of_nat (S (Z.to_nat retries))) by lia.
  rewrite Hl. split; [reflexivity|]. split.
  - rewrite Hr. lia.
  - rewrite Hs. f_equal. f_equal. lia.
Qed.

(** C1 (as the code has it).  With [retries = n - 1], so that [n] attempts
    are allowed, an operation that fails retryably on every invocation (a
    timeout, a connection error, a status error, or a 502/503/504
    response) is sent exactly [n] times.  Then the caller gets the outcome
    of the last attempt: the exception, if it raised one; the response
    itself, returned normally, if it was a 502/503/504 response. *)
Theorem make_request_attempts :
  0 <= retries ->
  (forall a, fails_retryably (request a) = true) ->
  requests (_make_request retries request uniform).2 = Z.to_nat (retries + 1) /\
  (_make_request retries request uniform).1 =
    match request retries with
    | Fails e => Raise e
    | Responds r => Return r
    end.
Proof.
  intros H0 Hfail.
  destruct (make_request_exhausts H0 ltac:(intros; apply Hfail))
    as (tr & Hl & Hr & _).
  rewrite Hl. cbn. split; [exact Hr|].
  destruct (request retries); reflexivity.
Qed.

(** C10.  When every attempt before the last allowed one fails retryably
    and the last allowed attempt (number [retries]) answers with status
    502, 503 or 504, the wrapper has sent the request [retries + 1] times
    (the earlier 502/503/504 answers were retried) and returns that last
    response as its result; it does not raise. *)
Theorem final_retryable_status_is_returned (r : Response) :
  0 <= retries ->
  (forall a, 0 <= a < retries -> fails_retryably (request a) = true) ->
  request retries = Responds r ->
  retryable_status (status_code r) = true ->
  (_make_request retries request uniform).1 = Return r /\
  requests (_make_request retries request uniform).2 = Z.to_nat (retries + 1).
Proof.
  intros H0 Hfail Hlast _.
  destruct (make_request_exhausts H0 Hfail) as (tr & Hl & Hr & _).
  rewrite Hl, Hlast. cbn. auto.
Qed.

(** The delay after failing attempt [a] is [2^a] plus the drawn fraction
    of it: between 1.1 and 1.5 times [2^a] for a draw in [0.1, 0.5]. *)
Lemma wait_time_bounds a (j : Q) :
  0 <= a ->
  (1 # 10 <= j)%Q -> (j <= 1 # 2)%Q ->
  ((11 # 10) * inject_Z (2 ^ a) <= wait_time a j)%Q /\
  (wait_time a j <= (3 # 2) * inject_Z (2 ^ a))%Q.
Proof.
  intros Ha Hlo Hhi. unfold wait_time.
  assert (Hp : 0 < 2 ^ a) by (apply Z.pow_pos_nonneg; lia).
  destruct j as [jn jd]. unfold Qle in *. cbn in *. nia.
Qed.

End HttpFacts.

(** C1 as stated fails: with three attempts allowed and a dependency that
    answers 503 every time, the wrapper does not end with an error; it
    returns the last 503 response. *)
Lemma make_request_attempts_counterexample :
  ~ (forall (retries : Z) (request : Z -> HttpClient.Attempt) (uniform : Z -> Q),
        0 <= retries ->
        (forall a, HttpClient.fails_retryably (request a) = true) ->
        HttpClient.requests (HttpClient._make_request retries request uniform).2
          = Z.to_nat (retries + 1) /\
        exists e, (HttpClient._make_request retries request uniform).1
                  = HttpClient.Raise e).
Proof.
  intros H.
  destruct (H 2 (fun _ => HttpClient.Responds
                            {| HttpClient.status_code := 503; HttpClient.body := "" |})
              (fun _ => 1 # 10)%Q ltac:(lia) ltac:(intros; reflexivity))
    as [_ [e He]].
  vm_compute in He. discriminate He.
Qed.

Lemma make_request_attempts_witness :
  let request := fun _ : Z => HttpClient.Fails (HttpClient.ConnectError "refused") in
  let uniform := fun _ : Z => (3 # 10)%Q in
  HttpClient.requests (HttpClient._make_request 2 request uniform).2 = 3%nat /\
  (HttpClient._make_request 2 request uniform).1
    = HttpClient.Raise (HttpClient.ConnectError "refused").
Proof.
  intros request uniform.
  exact (make_request_attempts 2 request uniform ltac:(lia)
           ltac:(intros; reflexivity)).
Defined.

Lemma final_retryable_status_is_returned_witness :
  let r503 := {| HttpClient.status_code := 503; HttpClient.body := "busy" |} in
  let request := fun a : Z =>
    if a =? 0 then HttpClient.Fails (HttpClient.TimeoutException "timed out")
    else if a =? 1 then
      HttpClient.Responds {| HttpClient.status_code := 502; HttpClient.body := "" |}
    else HttpClient.Responds r503 in
  let uniform := fun _ : Z => (1 # 2)%Q in
  (HttpClient._make_request 2 request uniform).1 = HttpClient.Return r503 /\
  HttpClient.requests (HttpClient._make_request 2 request uniform).2 = 3%nat.
Proof.
  intros r503 request uniform.
  apply (final_retryable_status_is_returned 2 request uniform r503).
  - lia.
  - intros a Ha. assert (a = 0 \/ a = 1) as [-> | ->] by lia; reflexivity.
  - reflexivity.
  - reflexivity.
Defined.

(** ** Backoff delays *)

Section CacheRetryFacts.
Import Retry ProductCatalog.
Variable cfg : RetryConfig.
Variable setex : Z -> Attempt.

Lemma sleeps_setex_sleep a d tr :
  sleeps (Setex a :: Sleep d :: tr) = d :: sleeps tr.
Proof. reflexivity. Qed.

Lemma sleeps_setex a tr : sleeps (Setex a :: tr) = sleeps tr.
Proof. reflexivity. Qed.

Lemma set_loop_exhausts c :
  forall k,
    k + Z.of_nat c = max_attempts cfg ->
    (forall a, redis_error (setex a) = true) ->
    exists tr,
      loop cfg setex (seqZ k (Z.of_nat c)) = (Return false, tr) /\
      setex_calls tr = c /\
      sleeps tr = map (delay cfg) (seqZ k (Z.of_nat c - 1)).
Proof.
  induction c as [|c IH]; intros k Hk Hfail.
  - exists []. repeat split.
  - rewrite seqZ_S. cbn [loop].
    pose proof (Hfail k) as Hk0.
    destruct (setex k) as [|text|n t]; try discriminate Hk0.
    destruct (IH (k + 1) ltac:(lia) Hfail) as (tr & Hl & Hc & Hs).
    rewrite Hl.
    destruct (Z.ltb_spec k (max_attempts cfg - 1)).
    + eexists. split; [reflexivity|]. split.
      * unfold setex_calls in *. cbn. rewrite Hc. reflexivity.
      * rewrite sleeps_setex_sleep, Hs.
        destruct c as [|c']; [lia|].
        replace (Z.of_nat (S (S c')) - 1) with (Z.of_nat (S c')) by lia.
        rewrite (seqZ_S k c'). cbn [map]. do 3 f_equal. lia.
    + eexists. split; [reflexivity|]. split.
      * unfold setex_calls in *. cbn. rewrite Hc. reflexivity.
      * rewrite sleeps_setex, Hs.
        assert (Hc0 : c = 0%nat) by lia. rewrite Hc0. reflexivity.
Qed.

Lemma delay_monotone k :
  0 <= k -> (0 <= base_delay cfg)%Q -> (delay cfg k <= delay cfg (k + 1))%Q.
Proof.
  intros Hk Hb. unfold delay.
  assert (Hp : 0 < 2 ^ k) by (apply Z.pow_pos_nonneg; lia).
  rewrite Z.pow_add_r by lia. change (2 ^ 1) with 2.
  destruct (base_delay cfg) as [bn bd]. unfold Qle in *. cbn in *. nia.
Qed.

Lemma lookup_map_seqZ {B : Type} (f : Z -> B) (n k : Z) :
  0 <= k < n -> map f (seqZ 0 n) !! Z.to_nat k = Some (f k).
Proof.
  intros Hk. change (map f (seqZ 0 n)) with (f <$> seqZ 0 n).
  rewrite list_lookup_fmap, lookup_seqZ_lt by lia.
  cbn. do 2 f_equal. lia.
Qed.

(** C5 (as the code has it).  [CacheManager.set_with_retry] whose every
    attempt fails with a [RedisError] makes [max_attempts] attempts and
    sleeps [base_delay * 2^a] after attempt [a = 0 .. max_attempts - 2]
    (the multiplier is the constant 2; [max_delay], [exponential_base] and
    [jitter] play no part, so there is no cap): for [base_delay >= 0] the
    delays never decrease.  The HTTP wrapper whose attempts before the
    last allowed one all fail retryably sleeps once after each of them:
    after attempt [a = 0 .. retries - 1] it sleeps [2^a + 2^a * j], [j]
    being the value drawn in that iteration; for draws in [0.1, 0.5] that
    is between 1.1 and 1.5 times [2^a]. *)
Theorem backoff_delays_of_the_code
    (retries : Z) (request : Z -> HttpClient.Attempt) (uniform : Z -> Q) :
  1 <= max_attempts cfg ->
  (forall k, redis_error (setex k) = true) ->
  (0 <= base_delay cfg)%Q ->
  0 <= retries ->
  (forall a, 0 <= a < retries ->
             HttpClient.fails_retryably (request a) = true) ->
  (forall a, (1 # 10 <= uniform a)%Q /\ (uniform a <= 1 # 2)%Q) ->
  (setex_calls (set_with_retry cfg setex).2 = Z.to_nat (max_attempts cfg) /\
   sleeps (set_with_retry cfg setex).2 =
     map (delay cfg) (seqZ 0 (max_attempts cfg - 1)) /\
   (forall k, 0 <= k < max_attempts cfg - 1 ->
      sleeps (set_with_retry cfg setex).2 !! Z.to_nat k =
        Some (base_delay cfg * inject_Z (2 ^ k))%Q) /\
   forall k, 0 <= k -> (delay cfg k <= delay cfg (k + 1))%Q) /\
  (length (HttpClient.sleeps (HttpClient._make_request retries request uniform).2)
     = Z.to_nat retries /\
   forall a, 0 <= a < retries ->
     exists d,
       HttpClient.sleeps (HttpClient._make_request retries request uniform).2
         !! Z.to_nat a = Some d /\
       d = (inject_Z (2 ^ a) + inject_Z (2 ^ a) * uniform a)%Q /\
       ((11 # 10) * inject_Z (2 ^ a) <= d)%Q /\
       (d <= (3 # 2) * inject_Z (2 ^ a))%Q).
Proof.
  intros Hn Hfail Hb Hr Hretry Hdraw. split.
  - unfold set_with_retry.
    destruct (set_loop_exhausts (Z.to_nat (max_attempts cfg)) 0 ltac:(lia) Hfail)
      as (tr & Hl & Hc & Hs).
    replace (Z.of_nat (Z.to_nat (max_attempts cfg))) with (max_attempts cfg)
      in Hl, Hs by lia.
    rewrite Hl. cbn [snd]. split; [exact Hc|]. split; [exact Hs|]. split.
    + intros k Hk. rewrite Hs. apply (lookup_map_seqZ (delay cfg)). exact Hk.
    + intros k Hk. apply delay_monotone; auto.
  - destruct (make_request_exhausts retries request uniform Hr Hretry)
      as (tr & Hl & _ & Hs).
    rewrite Hl. cbn [snd]. rewrite Hs. split.
    + rewrite length_map, length_seqZ. reflexivity.
    + intros a Ha. exists (HttpClient.wait_time a (uniform a)). split.
      * apply (lookup_map_seqZ (fun a => HttpClient.wait_time a (uniform a))).
        exact Ha.
      * split; [reflexivity|].
        destruct (Hdraw a) as [Hlo Hhi].
        apply wait_time_bounds; [lia | exact Hlo | exact Hhi].
Qed.

End CacheRetryFacts.

Lemma backoff_delays_of_the_code_witness :
  let cfg := Retry.with_attempts_delay 3 (1 # 10) in
  let setex := fun _ : Z => ProductCatalog.RedisError "connection lost" in
  let request := fun _ : Z => HttpClient.Fails (HttpClient.ConnectError "refused") in
  let uniform := fun _ : Z => (1 # 4)%Q in
  ProductCatalog.sleeps (ProductCatalog.set_with_retry cfg setex).2
    = [((1 # 10) * inject_Z (2 ^ 0))%Q; ((1 # 10) * inject_Z (2 ^ 1))%Q] /\
  HttpClient.sleeps (HttpClient._make_request 2 request uniform).2
    = [(inject_Z (2 ^ 0) + inject_Z (2 ^ 0) * (1 # 4))%Q;
       (inject_Z (2 ^ 1) + inject_Z (2 ^ 1) * (1 # 4))%Q] /\
  exists d,
    HttpClient.sleeps (HttpClient._make_request 2 request uniform).2 !! 1%nat
      = Some d /\
    ((11 # 10) * inject_Z (2 ^ 1) <= d)%Q /\ (d <= (3 # 2) * inject_Z (2 ^ 1))%Q.
Proof.
  intros cfg setex request uniform.
  destruct (backoff_delays_of_the_code cfg setex 2 request uniform) as (Hc & Hh).
  - cbn. lia.
  - intros k. reflexivity.
  - unfold Qle. cbn. lia.
  - lia.
  - intros a Ha. reflexivity.
  - intros a. split; unfold Qle; cbn; lia.
  - destruct Hc as (_ & Hs & _). destruct Hh as (_ & Hd).
    split; [exact Hs|]. split; [reflexivity|].
    destruct (Hd 1 ltac:(lia)) as (d & Hl & _ & Hlo & Hhi).
    exists d. auto.
Defined.

(** C5 as stated fails: with [base_delay = 1], [max_delay = 60] and eight
    attempts (jitter off), a cache that never accepts the write makes the
    loop sleep 1, 2, 4, 8, 16, 32, 64: the last delay is above [max_delay]
    and is not [min(max_delay, base_delay * 2^6)]. *)
Lemma backoff_cap_counterexample :
  let cfg := {| Retry.max_attempts := 8; Retry.base_delay := 1;
                Retry.max_delay := 60; Retry.exponential_base := 2;
                Retry.jitter := false |} in
  let setex := fun _ : Z => ProductCatalog.RedisError "connection lost" in
  ~ Forall (fun d => (d <= Retry.max_delay cfg)%Q)
      (ProductCatalog.sleeps (ProductCatalog.set_with_retry cfg setex).2).
Proof.
  cbn zeta. intros H.
  apply (Forall_lookup_1 _ _ 6%nat (ProductCatalog.delay
           {| Retry.max_attempts := 8; Retry.base_delay := 1;
              Retry.max_delay := 60; Retry.exponential_base := 2;
              Retry.jitter := false |} 6)) in H; [|reflexivity].
  unfold Qle in H. cbn in H. lia.
Qed.

(** ** Service discovery *)

Section DiscoveryFacts.
Import Py Discovery.

Lemma refresh_when_registry_fails sd env :
  registry_fails env = true ->
  (_refresh_service_cache sd env).1 = sd.
Proof.
  unfold registry_fails, _refresh_service_cache.
  destruct (_ssm_available sd); cbn; [|reflexivity].
  destruct (ssm env); [discriminate | reflexivity | reflexivity].
Qed.

Lemma refresh_keeps_availability sd env :
  _ssm_available (_refresh_service_cache sd env).1 = _ssm_available sd.
Proof.
  unfold _refresh_service_cache.
  destruct (_ssm_available sd) eqn:Hav; cbn; [|exact Hav].
  destruct (ssm env); cbn; auto.
Qed.

Lemma refresh_fetches sd env :
  (_refresh_service_cache sd env).2 = if _ssm_available sd then 1%nat else 0%nat.
Proof.
  unfold _refresh_service_cache.
  destruct (_ssm_available sd); cbn; [|reflexivity].
  destruct (ssm env); reflexivity.
Qed.

(** A resolve call asks the registry exactly when SSM is available and
    the first test (a usable entry in a valid cache) fails. *)
Lemma resolve_fetches sd env service_name :
  fetches (get_service_endpoint sd env service_name) =
    match cache_hit sd env service_name with
    | Some _ => 0%nat
    | None => if _ssm_available sd then 1%nat else 0%nat
    end.
Proof.
  unfold get_service_endpoint.
  destruct (cache_hit sd env service_name); [reflexivity|].
  pose proof (refresh_fetches sd env) as Hf.
  destruct (_refresh_service_cache sd env) as [sd' n]. cbn in Hf. subst n.
  destruct (cached_url sd' service_name); [reflexivity|].
  destruct (truthy (_get_fallback_endpoint env service_name)); reflexivity.
Qed.

Lemma resolve_keeps_availability sd env service_name :
  _ssm_available (resolver (get_service_endpoint sd env service_name)) =
    _ssm_available sd.
Proof.
  unfold get_service_endpoint.
  destruct (cache_hit sd env service_name); [reflexivity|].
  pose proof (refresh_keeps_availability sd env) as Hf.
  destruct (_refresh_service_cache sd env) as [sd' n]. cbn in Hf.
  destruct (cached_url sd' service_name); [exact Hf|].
  destruct (truthy (_get_fallback_endpoint env service_name)); exact Hf.
Qed.


(** While the registry call fails, a resolve call either serves the
    cached URL or consults the fallback, and leaves the resolver alone. *)
Lemma resolve_when_registry_fails sd env service_name :
  registry_fails env = true ->
  let r := get_service_endpoint sd env service_name in
  resolver r = sd /\
  endpoint r =
    Return (match cached_url sd service_name with
            | Some url => Some url
            | None => truthy (_get_fallback_endpoint env service_name)
            end).
Proof.
  intros Hfail. cbn zeta. unfold get_service_endpoint, cache_hit.
  pose proof (refresh_when_registry_fails sd env Hfail) as Hr.
  destruct (_is_cache_valid sd (time_at_check env)).
  - destruct (cached_url sd service_name) as [url|] eqn:Hc.
    + split; reflexivity.
    + destruct (_refresh_service_cache sd env) as [sd' n]. cbn in Hr. subst sd'.
      rewrite Hc.
      destruct (truthy (_get_fallback_endpoint env service_name));
        split; reflexivity.
  - destruct (_refresh_service_cache sd env) as [sd' n]. cbn in Hr. subst sd'.
    destruct (cached_url sd service_name) as [url|] eqn:Hc.
    + split; reflexivity.
    + destruct (truthy (_get_fallback_endpoint env service_name));
        split; reflexivity.
Qed.

Lemma truthy_Some (url : string) : url <> "" -> truthy (Some url) = Some url.
Proof. destruct url; [contradiction | reflexivity]. Qed.

(** C6.  While the registry call fails, a resolve call never raises and
    leaves the cache as it was.  If the cache holds a URL for the service
    (a non-empty [full_url], however old the entry), the call returns that
    URL.  If it holds none and the environment variable of the service
    holds a URL, the call returns that one; the variable is
    [AUTH_SERVICE_URL], [PRODUCT_SERVICE_URL] or
    [ORDER_PROCESSING_SERVICE_URL] for the three services of that name,
    and the upper-cased name with [-] turned into [_], followed by
    [_SERVICE_URL], for any other. *)
Theorem resolve_survives_registry_failure
    (sd : ServiceDiscovery) (env : Env) (service_name : string) :
  registry_fails env = true ->
  let r := get_service_endpoint sd env service_name in
  resolver r = sd /\
  (exists o, endpoint r = Return o) /\
  (forall info url,
      _service_cache sd !! service_name = Some info ->
      info !! "full_url" = Some url ->
      url <> "" ->
      endpoint r = Return (Some url)) /\
  (forall var url,
      (forall info url',
          _service_cache sd !! service_name = Some info ->
          info !! "full_url" = Some url' -> url' = "") ->
      (service_name = "auth" /\ var = "AUTH_SERVICE_URL" \/
       service_name = "product-catalog" /\ var = "PRODUCT_SERVICE_URL" \/
       service_name = "order-processing" /\
         var = "ORDER_PROCESSING_SERVICE_URL" \/
       (service_name <> "auth" /\ service_name <> "product-catalog" /\
        service_name <> "order-processing") /\
         var = replace_char "-" "_" (upper service_name) +:+ "_SERVICE_URL") ->
      environ env !! var = Some url ->
      url <> "" ->
      endpoint r = Return (Some url)).
Proof.
  intros Hfail. cbn zeta.
  destruct (resolve_when_registry_fails sd env service_name Hfail) as [Hres Hend].
  split; [exact Hres|]. split; [eauto|]. split.
  - intros info url Hinfo Hurl Hne. rewrite Hend.
    unfold cached_url. rewrite Hinfo. cbn. rewrite Hurl.
    rewrite (truthy_Some url Hne). reflexivity.
  - intros var url Hnone Hvar Henv Hne. rewrite Hend.
    assert (Hc : cached_url sd service_name = None).
    { unfold cached_url.
      destruct (_service_cache sd !! service_name) as [info|] eqn:Hinfo;
        [|reflexivity].
      cbn. destruct (info !! "full_url") as [url'|] eqn:Hurl; [|reflexivity].
      rewrite (Hnone info url' eq_refl Hurl). reflexivity. }
    rewrite Hc.
    assert (Hf : _get_fallback_endpoint env service_name = Some url).
    { unfold _get_fallback_endpoint, env_var_map.
      destruct Hvar as [[-> ->] | [[-> ->] | [[-> ->] | [(H1 & H2 & H3) ->]]]];
        try exact Henv.
      destruct (String.eqb_spec service_name "auth"); [contradiction|].
      destruct (String.eqb_spec service_name "product-catalog"); [contradiction|].
      destruct (String.eqb_spec service_name "order-processing"); [contradiction|].
      exact Henv. }
    rewrite Hf, (truthy_Some url Hne). reflexivity.
Qed.


End DiscoveryFacts.

(** A resolver whose cache was filled at time 0 with the URL of [auth]. *)
Example stale_resolver_cache :
  Discovery._service_cache
    (Discovery.resolver
       (Discovery.get_service_endpoint (Discovery.init "shopsmart" "production" true)
          {| Discovery.environ := ∅;
             Discovery.ssm := Discovery.Responds
               [ {| Discovery.Name := "/shopsmart/production/services/auth/full_url";
                    Discovery.Value := "http://auth.internal" |};
                 {| Discovery.Name := "/shopsmart/production/services/auth/health_endpoint";
                    Discovery.Value := "/healthz" |} ];
             Discovery.time_at_check := 0; Discovery.time_after_fetch := 0 |}
          "auth"))
  = {[ "auth" := {[ "full_url" := "http://auth.internal";
                    "health_endpoint" := "/healthz" ]} ]}.
Proof. vm_compute. reflexivity. Qed.

Lemma resolve_survives_registry_failure_witness :
  let stale := {| Discovery.ssm_prefix := "/shopsmart/production/services";
                  Discovery._service_cache :=
                    {[ "auth" := {[ "full_url" := "http://auth.internal" ]} ]};
                  Discovery._cache_ttl := 300;
                  Discovery._last_cache_update := 0;
                  Discovery._ssm_available := true |} in
  let empty := Discovery.init "shopsmart" "production" true in
  let env := {| Discovery.environ :=
                  {[ "AUTH_SERVICE_URL" := "http://auth.fallback" ]};
                Discovery.ssm := Discovery.RaisesClientError "AccessDeniedException";
                Discovery.time_at_check := 400;
                Discovery.time_after_fetch := 401 |} in
  Discovery._is_cache_valid stale (Discovery.time_at_check env) = false /\
  Discovery.endpoint (Discovery.get_service_endpoint stale env "auth")
    = Py.Return (Some "http://auth.internal") /\
  Discovery.endpoint (Discovery.get_service_endpoint empty env "auth")
    = Py.Return (Some "http://auth.fallback").
Proof.
  intros stale empty env. split; [reflexivity|]. split.
  - destruct (resolve_survives_registry_failure stale env "auth" eq_refl)
      as (_ & _ & Hcached & _).
    apply (Hcached {[ "full_url" := "http://auth.internal" ]}).
    + reflexivity.
    + reflexivity.
    + discriminate.
  - destruct (resolve_survives_registry_failure empty env "auth" eq_refl)
      as (_ & _ & _ & Hfallback).
    apply (Hfallback "AUTH_SERVICE_URL").
    + intros info url' H. discriminate H.
    + left. split; reflexivity.
    + reflexivity.
    + discriminate.
Defined.

(** Scenario C of the specification: nothing cached, the registry returns
    nothing, the environment has [AUTH_SERVICE_URL]. *)
Example scenario_C :
  Discovery.endpoint
    (Discovery.get_service_endpoint (Discovery.init "shopsmart" "production" true)
       {| Discovery.environ := {[ "AUTH_SERVICE_URL" := "http://x" ]};
          Discovery.ssm := Discovery.Responds [];
          Discovery.time_at_check := 10; Discovery.time_after_fetch := 11 |}
       "auth")
  = Py.Return (Some "http://x").
Proof. reflexivity. Qed.

(** A valid cache entry is served without a registry fetch. *)
Example valid_cache_no_fetch :
  let sd := {| Discovery.ssm_prefix := "/shopsmart/production/services";
               Discovery._service_cache :=
                 {[ "auth" := {[ "full_url" := "http://auth.internal" ]} ]};
               Discovery._cache_ttl := 300;
               Discovery._last_cache_update := 0;
               Discovery._ssm_available := true |} in
  let env := {| Discovery.environ := ∅;
                Discovery.ssm := Discovery.RaisesException "unreachable";
                Discovery.time_at_check := 299;
                Discovery.time_after_fetch := 299 |} in
  Discovery.endpoint (Discovery.get_service_endpoint sd env "auth")
    = Py.Return (Some "http://auth.internal") /\
  Discovery.fetches (Discovery.get_service_endpoint sd env "auth") = 0%nat.
Proof. split; reflexivity. Qed.

(** A cached entry that has no [full_url] (only a health path was
    registered) does not count as a URL: with no fallback either, the
    resolver answers [None], still without raising. *)
Example entry_without_url_resolves_to_none :
  let sd := {| Discovery.ssm_prefix := "/shopsmart/production/services";
               Discovery._service_cache :=
                 {[ "auth" := {[ "health_endpoint" := "/healthz" ]} ]};
               Discovery._cache_ttl := 300;
               Discovery._last_cache_update := 0;
               Discovery._ssm_available := true |} in
  let env := {| Discovery.environ := ∅;
                Discovery.ssm := Discovery.RaisesClientError "AccessDeniedException";
                Discovery.time_at_check := 400;
                Discovery.time_after_fetch := 401 |} in
  Discovery.has_endpoint sd env "auth" = false /\
  Discovery.endpoint (Discovery.get_service_endpoint sd env "auth")
    = Py.Return None.
Proof. split; reflexivity. Qed.



(** ** More on service discovery *)

Section DiscoveryMoreFacts.
Import Py Discovery DiscoveryMore.

(** *** Strings *)

Lemma prefix_app (old rest : string) : String.prefix old (old +:+ rest) = true.
Proof.
  induction old as [|a old IH]; simpl.
  - destruct rest; reflexivity.
  - destruct (Ascii.ascii_dec a a) as [_|Hne]; [exact IH | contradiction].
Qed.

Lemma remove_from_skip (old x rest : string) :
  remove_from old (String.length x) (x +:+ rest) = remove_from old 0 rest.
Proof. induction x as [|a x IH]; cbn; [reflexivity | exact IH]. Qed.

Lemma remove_from_absent (old s : string) :
  occurs_in old s = false -> remove_from old 0 s = s.
Proof.
  induction s as [|c s IH]; intros H; [reflexivity|].
  cbn [occurs_in] in H. apply orb_false_elim in H as [Hp Hs].
  cbn [remove_from]. rewrite Hp, (IH Hs). reflexivity.
Qed.

(** Removing a non-empty [old] from [old ++ rest] when [old] does not occur
    in [rest] leaves [rest]. *)
Lemma replace_with_empty_prefix (old rest : string) :
  old <> "" ->
  occurs_in old rest = false ->
  replace_with_empty old (old +:+ rest) = rest.
Proof.
  intros Hne Hocc. unfold replace_with_empty.
  destruct (decide (old = "")) as [->|_]; [contradiction|].
  destruct old as [|a old]; [contradiction|].
  change (String a old +:+ rest) with (String a (old +:+ rest)).
  cbn [remove_from].
  change (String a (old +:+ rest)) with (String a old +:+ rest).
  rewrite prefix_app.
  replace (String.length (String a old) - 1)%nat with (String.length old)
    by (cbn [String.length]; lia).
  rewrite remove_from_skip. apply remove_from_absent, Hocc.
Qed.

Lemma rstrip_free (c : ascii) (s : string) :
  s <> "" -> free_of c s = true -> rstrip c s = s.
Proof.
  induction s as [|a s IH]; intros Hne Hf; [contradiction|].
  cbn [free_of] in Hf. apply andb_prop in Hf as [Ha Hs]. cbn [rstrip].
  destruct s as [|b s'].
  - cbn [rstrip]. apply negb_true_iff in Ha. rewrite Ha. reflexivity.
  - rewrite (IH ltac:(discriminate) Hs). reflexivity.
Qed.

Lemma rstrip_app_free (c : ascii) (x s : string) :
  s <> "" -> free_of c s = true -> rstrip c (x +:+ s) = x +:+ s.
Proof.
  intros Hne Hf. induction x as [|a x IH].
  - apply rstrip_free; assumption.
  - change (String a x +:+ s) with (String a (x +:+ s)). cbn [rstrip].
    rewrite IH. destruct (x +:+ s) eqn:E; [|reflexivity].
    destruct x; [|discriminate E]. cbn in E. contradiction.
Qed.

Lemma split_free (c : ascii) (s : string) :
  free_of c s = true -> split c s = [s].
Proof.
  induction s as [|a s IH]; intros Hf; [reflexivity|].
  cbn [free_of] in Hf. apply andb_prop in Hf as [Ha Hs]. cbn [split].
  apply negb_true_iff in Ha. rewrite Ha, (IH Hs). reflexivity.
Qed.

Lemma split_app_free (c : ascii) (a b : string) :
  free_of c a = true -> split c (a +:+ String c b) = a :: split c b.
Proof.
  induction a as [|x a IH]; intros Hf.
  - change ("" +:+ String c b) with (String c b). cbn [split].
    rewrite Ascii.eqb_refl. reflexivity.
  - cbn [free_of] in Hf. apply andb_prop in Hf as [Hx Ha].
    change (String x a +:+ String c b) with (String x (a +:+ String c b)).
    cbn [split]. apply negb_true_iff in Hx. rewrite Hx, (IH Ha). reflexivity.
Qed.

Lemma lstrip_free (c : ascii) (s rest : string) :
  s <> "" -> free_of c s = true -> lstrip c (String c (s +:+ rest)) = s +:+ rest.
Proof.
  intros Hne Hf. cbn [lstrip]. rewrite Ascii.eqb_refl.
  destruct s as [|a s]; [contradiction|].
  cbn [free_of] in Hf. apply andb_prop in Hf as [Ha _]. apply negb_true_iff in Ha.
  change (String a s +:+ rest) with (String a (s +:+ rest)).
  cbn [lstrip]. rewrite Ha. reflexivity.
Qed.

Lemma string_app_assoc (a b c : string) : (a +:+ b) +:+ c = a +:+ (b +:+ c).
Proof.
  induction a as [|x a IH]; [reflexivity|].
  change (String x ((a +:+ b) +:+ c) = String x (a +:+ (b +:+ c))).
  rewrite IH. reflexivity.
Qed.

(** The path of a well-formed parameter name splits into the service and
    the property. *)
Lemma parameter_path_parts (prefix service property : string) :
  prefix <> "" ->
  service <> "" -> property <> "" ->
  free_of "/" service = true -> free_of "/" property = true ->
  occurs_in prefix ("/" +:+ service +:+ "/" +:+ property) = false ->
  split "/" (strip "/" (replace_with_empty prefix
               (prefix +:+ "/" +:+ service +:+ "/" +:+ property)))
  = [service; property].
Proof.
  intros Hp Hs Hq Hfs Hfq Hocc.
  rewrite (replace_with_empty_prefix prefix _ Hp Hocc).
  unfold strip.
  change ("/" +:+ service +:+ "/" +:+ property)
    with (String "/" (service +:+ String "/" property)).
  rewrite (lstrip_free "/" service _ Hs Hfs).
  assert (Hr : rstrip "/" (service +:+ String "/" property)
               = service +:+ String "/" property).
  { change (String "/" property) with ("/" +:+ property).
    rewrite <- string_app_assoc. apply rstrip_app_free; assumption. }
  rewrite Hr, (split_app_free "/" service property Hfs).
  rewrite (split_free "/" property Hfq). reflexivity.
Qed.

(** *** The cache *)

(** X5.  A parameter named [<prefix>/<service>/<property>] (service and
    property non-empty and without "/", the prefix not occurring in the
    rest of the name) is stored under that service and property: looking it
    up gives its value, the other properties of the service and all other
    services are as before. *)
Theorem registered_parameter_is_cached
    (prefix service property value : string)
    (services : gmap string (gmap string string)) :
  prefix <> "" ->
  service <> "" -> property <> "" ->
  free_of "/" service = true -> free_of "/" property = true ->
  occurs_in prefix ("/" +:+ service +:+ "/" +:+ property) = false ->
  let services' :=
    add_parameter prefix services
      {| Name := prefix +:+ "/" +:+ service +:+ "/" +:+ property;
         Value := value |} in
  (services' !! service ≫= (.!! property)) = Some value /\
  (forall other, other <> property ->
     (services' !! service ≫= (.!! other)) = (services !! service ≫= (.!! other))) /\
  (forall other, other <> service -> services' !! other = services !! other).
Proof.
  intros Hp Hs Hq Hfs Hfq Hocc. cbn zeta. unfold add_parameter. cbn [Name Value].
  rewrite (parameter_path_parts prefix service property Hp Hs Hq Hfs Hfq Hocc).
  split; [|split].
  - rewrite lookup_insert_eq. cbn. apply lookup_insert_eq.
  - intros other Hne. rewrite lookup_insert_eq. cbn.
    rewrite lookup_insert_ne by congruence.
    destruct (services !! service); reflexivity.
  - intros other Hne. apply lookup_insert_ne. congruence.
Qed.

(** X6.  A parameter whose path, once the prefix is removed and the
    slashes stripped, has no "/" left (a service without a property, or an
    empty path) is skipped: the cache being built is unchanged. *)
Theorem parameter_without_property_is_skipped
    (prefix : string) (param : Param)
    (services : gmap string (gmap string string)) :
  free_of "/" (strip "/" (replace_with_empty prefix (Name param))) = true ->
  add_parameter prefix services param = services.
Proof.
  intros Hf. unfold add_parameter. rewrite (split_free _ _ Hf). reflexivity.
Qed.

Lemma cache_valid_within_ttl sd now :
  _service_cache sd <> ∅ ->
  (now - _last_cache_update sd < _cache_ttl sd)%Q ->
  _is_cache_valid sd now = true.
Proof.
  intros Hne Hlt. unfold _is_cache_valid.
  rewrite bool_decide_eq_false_2 by exact Hne.
  destruct (Qle_bool (_cache_ttl sd) (now - _last_cache_update sd)) eqn:E;
    [|reflexivity].
  apply Qle_bool_iff in E. exfalso. exact (Qlt_not_le _ _ Hlt E).
Qed.

(** X1.  When a resolve call has to refresh and the registry lists the
    service with a non-empty [full_url], that call returns the URL after
    one fetch, and every later resolve of the service made less than
    [_cache_ttl] after the refresh returns the same URL with no fetch and
    no change to the resolver, whatever the registry would answer then. *)
Theorem fresh_entry_is_served_from_cache
    (sd : ServiceDiscovery) (env1 env2 : Env) (service_name url : string)
    (ps : list Param) :
  _ssm_available sd = true ->
  cache_hit sd env1 service_name = None ->
  ssm env1 = Responds ps ->
  truthy (parse_parameters (ssm_prefix sd) ps !! service_name ≫= (.!! "full_url"))
    = Some url ->
  (time_at_check env2 - time_after_fetch env1 < _cache_ttl sd)%Q ->
  let r1 := get_service_endpoint sd env1 service_name in
  let r2 := get_service_endpoint (resolver r1) env2 service_name in
  endpoint r1 = Return (Some url) /\ fetches r1 = 1%nat /\
  endpoint r2 = Return (Some url) /\ fetches r2 = 0%nat /\
  resolver r2 = resolver r1.
Proof.
  intros Hav Hmiss Hssm Hurl Hlt. cbn zeta.
  assert (Hr1 : get_service_endpoint sd env1 service_name =
                {| endpoint := Return (Some url);
                   resolver :=
                     {| ssm_prefix := ssm_prefix sd;
                        _service_cache := parse_parameters (ssm_prefix sd) ps;
                        _cache_ttl := _cache_ttl sd;
                        _last_cache_update := time_after_fetch env1;
                        _ssm_available := _ssm_available sd |};
                   fetches := 1 |}).
  { unfold get_service_endpoint. rewrite Hmiss.
    unfold _refresh_service_cache. rewrite Hav, Hssm. cbn [negb].
    unfold cached_url at 1. cbn [_service_cache]. rewrite Hurl. reflexivity. }
  rewrite Hr1. cbn [endpoint fetches resolver].
  split; [reflexivity|]. split; [reflexivity|].
  unfold get_service_endpoint, cache_hit.
  rewrite cache_valid_within_ttl.
  - unfold cached_url. cbn [_service_cache]. rewrite Hurl. auto.
  - cbn [_service_cache]. intros Hempty. rewrite Hempty in Hurl.
    rewrite lookup_empty in Hurl. discriminate Hurl.
  - exact Hlt.
Qed.

Lemma resolve_when_unavailable sd env service_name :
  _ssm_available sd = false ->
  resolver (get_service_endpoint sd env service_name) = sd /\
  fetches (get_service_endpoint sd env service_name) = 0%nat.
Proof.
  intros Hav. split.
  - unfold get_service_endpoint.
    destruct (cache_hit sd env service_name); [reflexivity|].
    unfold _refresh_service_cache. rewrite Hav. cbn [negb].
    destruct (cached_url sd service_name); [reflexivity|].
    destruct (truthy (_get_fallback_endpoint env service_name)); reflexivity.
  - rewrite resolve_fetches, Hav.
    destruct (cache_hit sd env service_name); reflexivity.
Qed.

(** X2.  A resolver whose SSM client could not be created never asks the
    registry and never changes: after any sequence of resolve calls the
    resolver is the one it was and no fetch was made. *)
Theorem unavailable_ssm_never_fetches
    (sd : ServiceDiscovery) (calls : list (Env * string)) :
  _ssm_available sd = false ->
  (resolve_all sd calls).1.2 = sd /\ (resolve_all sd calls).2 = 0%nat.
Proof.
  intros Hav. induction calls as [|[env name] rest IH]; [auto|].
  cbn [resolve_all].
  destruct (resolve_when_unavailable sd env name Hav) as [Hr Hf].
  rewrite Hr, Hf.
  destruct (resolve_all sd rest) as [[outs sd'] n]. cbn in *.
  destruct IH as [-> ->]. auto.
Qed.

(** X3.  A registry reply from which no service is parsed (an empty list,
    or only names without a property) is never treated as a valid cache:
    whatever the time and the service, the next resolve call fetches
    again. *)
Theorem empty_reply_is_never_valid
    (sd : ServiceDiscovery) (env1 env2 : Env) (name1 name2 : string)
    (ps : list Param) :
  _ssm_available sd = true ->
  cache_hit sd env1 name1 = None ->
  ssm env1 = Responds ps ->
  parse_parameters (ssm_prefix sd) ps = ∅ ->
  fetches (get_service_endpoint
             (resolver (get_service_endpoint sd env1 name1)) env2 name2) = 1%nat.
Proof.
  intros Hav Hmiss Hssm Hparse.
  rewrite resolve_fetches, resolve_keeps_availability, Hav.
  replace (cache_hit _ env2 name2) with (@None string); [reflexivity|].
  unfold get_service_endpoint. rewrite Hmiss.
  unfold _refresh_service_cache. rewrite Hav, Hssm, Hparse. cbn [negb].
  unfold cached_url at 1. cbn [_service_cache]. rewrite lookup_empty. cbn.
  destruct (truthy (_get_fallback_endpoint env1 name1));
    cbn [resolver]; unfold cache_hit, _is_cache_valid; cbn [_service_cache];
    rewrite bool_decide_eq_true_2 by reflexivity; reflexivity.
Qed.

(** X4.  A refresh that succeeds replaces the whole cache: when the reply
    no longer lists the service, a URL cached for it before is gone, and
    the call answers with the fallback from the environment (or [None]),
    not with the old URL. *)
Theorem refresh_drops_unlisted_service
    (sd : ServiceDiscovery) (env : Env) (service_name : string) (ps : list Param) :
  _ssm_available sd = true ->
  cache_hit sd env service_name = None ->
  ssm env = Responds ps ->
  parse_parameters (ssm_prefix sd) ps !! service_name = None ->
  let r := get_service_endpoint sd env service_name in
  endpoint r = Return (truthy (_get_fallback_endpoint env service_name)) /\
  cached_url (resolver r) service_name = None.
Proof.
  intros Hav Hmiss Hssm Hparse. cbn zeta.
  unfold get_service_endpoint. rewrite Hmiss.
  unfold _refresh_service_cache. rewrite Hav, Hssm. cbn [negb].
  unfold cached_url. cbn [_service_cache]. rewrite Hparse. cbn.
  destruct (truthy (_get_fallback_endpoint env service_name));
    cbn; rewrite Hparse; auto.
Qed.

(** What a resolve call returned while the registry failed came from the
    cache or, the cache having none, from the fallback. *)
Lemma resolve_survives_registry_failure_inv sd env service_name url :
  registry_fails env = true ->
  endpoint (get_service_endpoint sd env service_name) = Return (Some url) ->
  cached_url sd service_name = Some url \/
  cached_url sd service_name = None /\
  truthy (_get_fallback_endpoint env service_name) = Some url.
Proof.
  intros Hfail. unfold get_service_endpoint, cache_hit.
  pose proof (refresh_when_registry_fails sd env Hfail) as Hr.
  destruct (_is_cache_valid sd (time_at_check env)).
  - destruct (cached_url sd service_name) as [u|] eqn:Hc.
    + intros H. inversion H. auto.
    + destruct (_refresh_service_cache sd env) as [sd' n]. cbn in Hr. subst sd'.
      rewrite Hc.
      destruct (truthy (_get_fallback_endpoint env service_name)) as [u|];
        intros H; inversion H. auto.
  - destruct (_refresh_service_cache sd env) as [sd' n]. cbn in Hr. subst sd'.
    destruct (cached_url sd service_name) as [u|] eqn:Hc.
    + intros H. inversion H. auto.
    + destruct (truthy (_get_fallback_endpoint env service_name)) as [u|];
        intros H; inversion H. auto.
Qed.

(** *** The health endpoint *)

Lemma refresh_if_invalid_when_registry_fails sd env :
  registry_fails env = true -> (refresh_if_invalid sd env).1 = sd.
Proof.
  intros Hf. unfold refresh_if_invalid.
  destruct (_is_cache_valid sd (time_at_check env)); [reflexivity|].
  apply refresh_when_registry_fails, Hf.
Qed.

(** X7.  While the registry call fails, and for a service whose cache
    entry (if any) has no [health_endpoint] of its own, the health URL is
    the resolved endpoint with its trailing slashes removed, followed by
    "/health": the two lookups agree on the base URL, cached or fallback. *)
Theorem health_endpoint_follows_endpoint
    (sd : ServiceDiscovery) (env : Env) (service_name url : string) :
  registry_fails env = true ->
  (_service_cache sd !! service_name ≫= (.!! "health_endpoint")) = None ->
  endpoint (get_service_endpoint sd env service_name) = Return (Some url) ->
  endpoint (get_service_health_endpoint sd env service_name)
    = Return (Some (rstrip "/" url +:+ "/health")).
Proof.
  intros Hfail Hnoh Hres.
  destruct (resolve_survives_registry_failure_inv sd env service_name url Hfail Hres)
    as [Hc | [Hc Hfb]].
  - unfold get_service_health_endpoint.
    pose proof (refresh_if_invalid_when_registry_fails sd env Hfail) as Hr.
    destruct (refresh_if_invalid sd env) as [sd' n]. cbn in Hr. subst sd'.
    unfold cached_url in Hc.
    destruct (_service_cache sd !! service_name) as [info|] eqn:Hinfo;
      [|discriminate Hc].
    cbn in Hc, Hnoh. cbn. unfold health_url. rewrite Hc, Hnoh. reflexivity.
  - unfold get_service_health_endpoint.
    pose proof (refresh_if_invalid_when_registry_fails sd env Hfail) as Hr.
    destruct (refresh_if_invalid sd env) as [sd' n]. cbn in Hr. subst sd'.
    unfold cached_url in Hc.
    destruct (_service_cache sd !! service_name) as [info|] eqn:Hinfo.
    + cbn in Hc. cbn. unfold health_url. rewrite Hc. rewrite Hfb. reflexivity.
    + cbn. rewrite Hfb. reflexivity.
Qed.

End DiscoveryMoreFacts.

Lemma registered_parameter_is_cached_witness :
  let services' :=
    Discovery.add_parameter "/shopsmart/production/services"
      {[ "auth" := {[ "health_endpoint" := "/healthz" ]} ]}
      {| Discovery.Name := "/shopsmart/production/services/auth/full_url";
         Discovery.Value := "http://auth.internal" |} in
  (services' !! "auth" ≫= (.!! "full_url")) = Some "http://auth.internal" /\
  (services' !! "auth" ≫= (.!! "health_endpoint")) = Some "/healthz".
Proof.
  intros services'.
  destruct (registered_parameter_is_cached "/shopsmart/production/services"
              "auth" "full_url" "http://auth.internal"
              {[ "auth" := {[ "health_endpoint" := "/healthz" ]} ]}
              ltac:(discriminate) ltac:(discriminate) ltac:(discriminate)
              eq_refl eq_refl eq_refl) as (H1 & H2 & _).
  split; [exact H1|].
  exact (eq_trans (H2 "health_endpoint" ltac:(discriminate)) eq_refl).
Defined.

Lemma parameter_without_property_is_skipped_witness :
  Discovery.add_parameter "/shopsmart/production/services"
    {[ "auth" := {[ "full_url" := "http://auth.internal" ]} ]}
    {| Discovery.Name := "/shopsmart/production/services/orphan";
       Discovery.Value := "x" |}
  = {[ "auth" := {[ "full_url" := "http://auth.internal" ]} ]}.
Proof.
  exact (parameter_without_property_is_skipped "/shopsmart/production/services"
           {| Discovery.Name := "/shopsmart/production/services/orphan";
              Discovery.Value := "x" |}
           {[ "auth" := {[ "full_url" := "http://auth.internal" ]} ]} eq_refl).
Defined.

Lemma fresh_entry_is_served_from_cache_witness :
  let sd := Discovery.init "shopsmart" "production" true in
  let env1 :=
    {| Discovery.environ := ∅;
       Discovery.ssm := Discovery.Responds
         [ {| Discovery.Name := "/shopsmart/production/services/auth/full_url";
              Discovery.Value := "http://auth.internal" |} ];
       Discovery.time_at_check := 10; Discovery.time_after_fetch := 11 |} in
  let env2 :=
    {| Discovery.environ := ∅;
       Discovery.ssm := Discovery.RaisesException "unreachable";
       Discovery.time_at_check := 310; Discovery.time_after_fetch := 310 |} in
  let r1 := Discovery.get_service_endpoint sd env1 "auth" in
  let r2 := Discovery.get_service_endpoint (Discovery.resolver r1) env2 "auth" in
  Discovery.endpoint r1 = Py.Return (Some "http://auth.internal") /\
  Discovery.fetches r1 = 1%nat /\
  Discovery.endpoint r2 = Py.Return (Some "http://auth.internal") /\
  Discovery.fetches r2 = 0%nat /\
  Discovery.resolver r2 = Discovery.resolver r1.
Proof.
  intros sd env1 env2.
  apply (fresh_entry_is_served_from_cache sd env1 env2 "auth" "http://auth.internal"
           [ {| Discovery.Name := "/shopsmart/production/services/auth/full_url";
                Discovery.Value := "http://auth.internal" |} ]);
    reflexivity.
Defined.

Lemma unavailable_ssm_never_fetches_witness :
  let sd := Discovery.init "shopsmart" "production" false in
  let env := fun t : Q =>
    {| Discovery.environ := {[ "AUTH_SERVICE_URL" := "http://auth.fallback" ]};
       Discovery.ssm := Discovery.Responds [];
       Discovery.time_at_check := t; Discovery.time_after_fetch := t |} in
  let calls := [(env 1%Q, "auth"); (env 2%Q, "product-catalog"); (env 900%Q, "auth")] in
  (Discovery.resolve_all sd calls).1.2 = sd /\
  (Discovery.resolve_all sd calls).2 = 0%nat.
Proof.
  intros sd env calls.
  exact (unavailable_ssm_never_fetches sd calls eq_refl).
Defined.

Lemma empty_reply_is_never_valid_witness :
  let sd := Discovery.init "shopsmart" "production" true in
  let env := fun t : Q =>
    {| Discovery.environ := ∅;
       Discovery.ssm := Discovery.Responds
         [ {| Discovery.Name := "/shopsmart/production/services/orphan";
              Discovery.Value := "x" |} ];
       Discovery.time_at_check := t; Discovery.time_after_fetch := t |} in
  Discovery.fetches
    (Discovery.get_service_endpoint
       (Discovery.resolver (Discovery.get_service_endpoint sd (env 1%Q) "auth"))
       (env 2%Q) "auth") = 1%nat.
Proof.
  intros sd env.
  exact (empty_reply_is_never_valid sd (env 1%Q) (env 2%Q) "auth" "auth"
           [ {| Discovery.Name := "/shopsmart/production/services/orphan";
                Discovery.Value := "x" |} ]
           eq_refl eq_refl eq_refl eq_refl).
Defined.

Lemma refresh_drops_unlisted_service_witness :
  let sd := {| Discovery.ssm_prefix := "/shopsmart/production/services";
               Discovery._service_cache :=
                 {[ "auth" := {[ "full_url" := "http://auth.old" ]} ]};
               Discovery._cache_ttl := 300;
               Discovery._last_cache_update := 0;
               Discovery._ssm_available := true |} in
  let env :=
    {| Discovery.environ := {[ "AUTH_SERVICE_URL" := "http://auth.fallback" ]};
       Discovery.ssm := Discovery.Responds
         [ {| Discovery.Name := "/shopsmart/production/services/product-catalog/full_url";
              Discovery.Value := "http://products.internal" |} ];
       Discovery.time_at_check := 400; Discovery.time_after_fetch := 401 |} in
  let r := Discovery.get_service_endpoint sd env "auth" in
  Discovery.cached_url sd "auth" = Some "http://auth.old" /\
  Discovery.endpoint r = Py.Return (Some "http://auth.fallback") /\
  Discovery.cached_url (Discovery.resolver r) "auth" = None.
Proof.
  intros sd env. split; [reflexivity|].
  exact (refresh_drops_unlisted_service sd env "auth"
           [ {| Discovery.Name := "/shopsmart/production/services/product-catalog/full_url";
                Discovery.Value := "http://products.internal" |} ]
           eq_refl eq_refl eq_refl eq_refl).
Defined.

Lemma health_endpoint_follows_endpoint_witness :
  let sd := {| Discovery.ssm_prefix := "/shopsmart/production/services";
               Discovery._service_cache :=
                 {[ "auth" := {[ "full_url" := "http://auth.internal/" ]} ]};
               Discovery._cache_ttl := 300;
               Discovery._last_cache_update := 0;
               Discovery._ssm_available := true |} in
  let env :=
    {| Discovery.environ := ∅;
       Discovery.ssm := Discovery.RaisesClientError "ThrottlingException";
       Discovery.time_at_check := 400; Discovery.time_after_fetch := 401 |} in
  Discovery.endpoint (DiscoveryMore.get_service_health_endpoint sd env "auth")
    = Py.Return (Some "http://auth.internal/health").
Proof.
  intros sd env.
  exact (health_endpoint_follows_endpoint sd env "auth" "http://auth.internal/"
           eq_refl eq_refl eq_refl).
Defined.

(** ** More on the circuit breaker and the managers *)

Section BreakerMoreFacts.
Import Py Breaker BreakerMore.
Context {W A : Type}.
Variable utcnow : W -> Z.

Lemma call_count_inv cb (func : Operation W A) w :
  0 < failure_threshold cb ->
  count_inv cb -> count_inv (breaker (call utcnow cb func w)).
Proof.
  intros Hpos [H0 Hc]. unfold Breaker.call.
  destruct (on_entry cb (utcnow w)) as [cb1|] eqn:Ha; [|split; assumption].
  apply on_entry_Some in Ha as ((Hthr & _) & Hcount & _ & _ & Hsame & Hopen).
  destruct (func w) as [[a|e] w']; cbn [breaker settle].
  - unfold count_inv. cbn. split; [lia|]. intros _. lia.
  - destruct (isinstance e (expected_exception cb1)).
    + unfold count_inv. cbn. rewrite Hcount, Hthr. split; [lia|].
      destruct (Z.leb_spec (failure_threshold cb) (failure_count cb + 1));
        [discriminate | lia].
    + unfold count_inv. rewrite Hcount, Hthr. split; [exact H0|].
      intros Hs1. apply Hc.
      destruct (decide (state cb = OPEN)) as [Ho|Hno].
      * destruct (Hopen Ho) as [-> _]. cbn in Hs1. discriminate Hs1.
      * rewrite <- (Hsame Hno). exact Hs1.
Qed.

(** X8.  A breaker created with a positive threshold, after any guarded
    calls with any outcomes: its failure counter is never negative, and
    while it is CLOSED the counter is below the threshold. *)
Theorem closed_breaker_is_below_threshold
    (threshold timeout : Z) (expected : ExcType)
    (steps : list (Operation W A * W)) :
  0 < threshold ->
  let cb := (calls utcnow (Breaker.init threshold timeout expected) steps).1 in
  0 <= failure_count cb /\
  (state cb = CLOSED -> failure_count cb < threshold).
Proof.
  intros Hpos. cbn zeta.
  assert (Hgen : forall (steps : list (Operation W A * W)) cb,
             0 < failure_threshold cb -> count_inv cb ->
             count_inv (calls utcnow cb steps).1 /\
             failure_threshold (calls utcnow cb steps).1 = failure_threshold cb).
  { clear. intros steps. induction steps as [|[func w] rest IH]; intros cb Hp Hi.
    - cbn. auto.
    - cbn [Breaker.calls].
      pose proof (call_count_inv cb func w Hp Hi) as Hi'.
      destruct (call_config utcnow cb func w) as (Hthr & _).
      destruct (IH (breaker (call utcnow cb func w)) ltac:(lia) Hi') as [H1 H2].
      destruct (calls utcnow (breaker (call utcnow cb func w)) rest) as [cb' n].
      cbn in *. split; [exact H1 | congruence]. }
  destruct (Hgen steps (Breaker.init threshold timeout expected) Hpos)
    as [[H0 Hc] Hthr].
  { unfold count_inv. cbn. split; [lia | intros _; exact Hpos]. }
  cbn in Hthr. rewrite Hthr in Hc. auto.
Qed.

Lemma call_stays_unclosed cb (func : Operation W A) w e w' :
  state cb <> CLOSED ->
  func w = (Raise e, w') ->
  state (breaker (call utcnow cb func w)) <> CLOSED.
Proof.
  intros Hs Hf. unfold Breaker.call.
  destruct (on_entry cb (utcnow w)) as [cb1|] eqn:Ha; [|exact Hs].
  apply on_entry_Some in Ha as (_ & _ & _ & _ & Hsame & Hopen).
  rewrite Hf. cbn [breaker settle].
  assert (Hs1 : state cb1 <> CLOSED).
  { destruct (decide (state cb = OPEN)) as [Ho|Hno].
    - destruct (Hopen Ho) as [-> _]. cbn. discriminate.
    - rewrite (Hsame Hno). exact Hs. }
  destruct (isinstance e (expected_exception cb1)); [|exact Hs1].
  cbn. destruct (failure_threshold cb1 <=? failure_count cb1 + 1);
    [discriminate | exact Hs1].
Qed.

(** X9.  Only a call that returns closes the circuit: a breaker that is
    OPEN or HALF_OPEN is still not CLOSED after any sequence of calls in
    which no guarded function returns (rejected, counted or not). *)
Theorem only_success_closes
    (cb : CircuitBreaker) (steps : list (Operation W A * W)) :
  state cb <> CLOSED ->
  all_raise steps = true ->
  state (calls utcnow cb steps).1 <> CLOSED.
Proof.
  revert cb. induction steps as [|[func w] rest IH]; intros cb Hs Hall.
  - exact Hs.
  - cbn in Hall. apply andb_prop in Hall as [Hf Hall].
    cbn [Breaker.calls].
    destruct (func w) as [[a|e] w'] eqn:Hfw; [discriminate Hf|].
    specialize (IH _ (call_stays_unclosed cb func w e w' Hs Hfw) Hall).
    destruct (calls utcnow (breaker (call utcnow cb func w)) rest) as [cb' n].
    exact IH.
Qed.

(** X10.  Rejected calls do not prolong the outage: while an OPEN breaker
    is called before its recovery time has passed, however often, no
    function runs and the breaker (its [last_failure_time] too) stays as it
    is; the first call made once [recovery_timeout] seconds have passed
    since the recorded failure is dispatched. *)
Theorem rejected_calls_leave_breaker
    (cb : CircuitBreaker) (t : Z) (steps : list (Operation W A * W))
    (func : Operation W A) (w : W) :
  state cb = OPEN ->
  last_failure_time cb = Some t ->
  all_before utcnow t (recovery_timeout cb) steps = true ->
  recovery_timeout cb * 1000000 <= utcnow w - t ->
  calls utcnow cb steps = (cb, 0%nat) /\
  invocations (call utcnow (calls utcnow cb steps).1 func w) = 1%nat.
Proof.
  intros Hs Ht Hall Hel.
  assert (Hrej : calls utcnow cb steps = (cb, 0%nat)).
  { induction steps as [|[f v] rest IH]; [reflexivity|].
    cbn in Hall. apply andb_prop in Hall as [Hv Hall].
    apply Z.ltb_lt in Hv. cbn [Breaker.calls].
    rewrite (call_rejected utcnow cb f v t Hs Ht Hv). cbn [breaker invocations].
    rewrite (IH Hall). reflexivity. }
  split; [exact Hrej|]. rewrite Hrej. cbn [fst].
  unfold Breaker.call, on_entry, _should_attempt_reset, total_seconds_ge.
  rewrite Hs, Ht.
  destruct (Z.leb_spec (recovery_timeout cb * 1000000) (utcnow w - t)); [|lia].
  destruct (func w). reflexivity.
Qed.

Lemma external_steps_failing name (fails : list (W * Exc * W)) :
  external_steps (A:=A) name fails =
  failing_steps
    (map (fun '(w, e, w') => (w, OrderProcessing._call_handlers name e, w')) fails).
Proof.
  unfold external_steps, failing_steps. rewrite map_map.
  apply map_ext. intros [[w e] w']. reflexivity.
Qed.

(** X11.  [ExternalServiceManager] counts every failure: whatever
    [Exception] the operation raises (a [ServiceError] such as a validation
    error included), [call_service] raises [ExternalServiceError] carrying
    the service name and the original text, and it counts toward the
    breaker; three such calls in a row on a new manager open the circuit. *)
Theorem call_service_counts_every_exception
    (name : string) (fails : list (W * Exc * W)) :
  length fails = 3%nat ->
  all_exceptions fails = true ->
  let m := OrderProcessing.init_external name None in
  (forall w e w', isinstance e TException = true ->
     outcome (OrderProcessing.call_service (A:=A) utcnow m (raising e w') w) =
       Raise (new_ExternalServiceError ("Failed to communicate with " +:+ name) name
                (Some {["original_error" := VStr (str e)]}))) /\
  state (calls utcnow (OrderProcessing.ext_circuit_breaker m)
           (external_steps (A:=A) name fails)).1 = OPEN.
Proof.
  intros Hlen Hall. cbn zeta. split.
  - intros w e w' He. destruct e; try discriminate He; reflexivity.
  - rewrite external_steps_failing.
    pose proof (failures_open_the_circuit (A:=A) utcnow
                  (map (fun '(w, e, w') =>
                          (w, OrderProcessing._call_handlers name e, w')) fails)
                  (OrderProcessing.ext_circuit_breaker
                     (OrderProcessing.init_external name None))) as H.
    destruct (calls utcnow _ (failing_steps _)) as [cb' n]. cbn [fst].
    destruct H as (H1 & _).
    + destruct fails; [discriminate Hlen | discriminate].
    + cbn. discriminate.
    + rewrite length_map, Hlen. reflexivity.
    + unfold all_counted. rewrite forallb_forall. intros [[w e] w'] Hin.
      apply in_map_iff in Hin as ([[w0 e0] w0'] & Heq & Hin0).
      inversion Heq; subst. unfold all_exceptions in Hall.
      rewrite forallb_forall in Hall. specialize (Hall _ Hin0). cbn in Hall.
      destruct e0; try discriminate Hall; reflexivity.
    + exact H1.
Qed.

(** X12.  In [MongoDBManager], a duplicate-key or write error whose
    [details] is [None] does not come out as [ConflictError] or
    [MongoDBError]: building the error reads [e.details.get] and raises
    [AttributeError], which the caller receives and the breaker does not
    count. *)
Theorem mongo_write_error_without_details
    (m : OrderProcessing.MongoDBManager) (operation : Operation W A)
    (w w' : W) (c : MongoClass) (d : MongoErrorData) :
  operation w = (Raise (Mongo c d), w') ->
  mongo_subclass c WriteError = true ->
  mongo_details d = None ->
  expected_exception (OrderProcessing.circuit_breaker m) = TService MongoDBError ->
  state (OrderProcessing.circuit_breaker m) <> OPEN ->
  let r := OrderProcessing.execute_with_retry utcnow m operation w in
  outcome r = Raise OrderProcessing.none_has_no_get /\
  breaker r = OrderProcessing.circuit_breaker m.
Proof.
  intros Hop Hc Hd Hexp Hs. cbn zeta.
  unfold OrderProcessing.execute_with_retry, Breaker.call.
  rewrite (on_entry_not_open _ _ Hs).
  unfold OrderProcessing._execute. rewrite Hop.
  cbn [outcome breaker settle OrderProcessing._execute_handlers].
  destruct c; try discriminate Hc; cbn; rewrite Hd, Hexp; cbn; auto.
Qed.

(** X13.  What [DynamoDBManager.execute_with_retry] raises when the
    operation fails with an [Exception].  With one exception the caller
    gets a [ServiceError] whose status is 404, 409, 429, 400 or 503 (the
    last also when the circuit is open).  The exception is a
    [ClientError] whose response lacks ['Error'], ['Code'] or ['Message']:
    on a breaker that is not OPEN the caller gets the [KeyError] of that
    key, after one run of the operation, and the breaker is left as it
    was. *)
Theorem dynamo_raises_service_errors
    (m : Auth.DynamoDBManager) (operation : Operation W A)
    (w w' : W) (e : Exc) :
  operation w = (Raise e, w') ->
  isinstance e TException = true ->
  expected_exception (Auth.circuit_breaker m) = TService DynamoDBError ->
  let r := Auth.execute_with_retry utcnow m operation w in
  ((forall response text,
       e = ClientError response text -> Auth.missing_key response = None) ->
   exists cls d, outcome r = Raise (Service cls d) /\
                 status_code d ∈ [404; 409; 429; 400; 503]) /\
  (forall response text key,
      e = ClientError response text ->
      Auth.missing_key response = Some key ->
      state (Auth.circuit_breaker m) <> OPEN ->
      outcome r = Raise (OtherException "KeyError" ("'" +:+ key +:+ "'")) /\
      invocations r = 1%nat /\
      breaker r = Auth.circuit_breaker m).
Proof.
  intros Hop He Hexp. cbn zeta.
  assert (Hin : forall z : Z, z ∈ [404; 409; 429; 400; 503] <->
                  z = 404 \/ z = 409 \/ z = 429 \/ z = 400 \/ z = 503).
  { intros z. rewrite !elem_of_cons, elem_of_nil. tauto. }
  split.
  - intros Hwf. unfold Auth.execute_with_retry, Breaker.call.
    destruct (on_entry (Auth.circuit_breaker m) (utcnow w)) as [cb1|].
    + unfold Auth._execute. rewrite Hop. cbn [outcome].
      destruct e as [cls d|response text|text|c d|text|n text|n text];
        try discriminate He;
        try (cbn; do 2 eexists; split; [reflexivity|]; cbn; apply Hin; tauto).
      specialize (Hwf response text eq_refl).
      unfold Auth.missing_key in Hwf. cbn [Auth._execute_handlers].
      destruct (resp_Error response) as [[[error_code|] [error_message|]]|];
        try discriminate Hwf.
      cbn [Code Message]. unfold Auth.on_client_error.
      destruct (String.eqb error_code "ResourceNotFoundException");
        [do 2 eexists; split; [reflexivity|]; cbn; apply Hin; tauto|].
      destruct (String.eqb error_code "ConditionalCheckFailedException");
        [do 2 eexists; split; [reflexivity|]; cbn; apply Hin; tauto|].
      destruct (String.eqb error_code "ProvisionedThroughputExceededException");
        [do 2 eexists; split; [reflexivity|]; cbn; apply Hin; tauto|].
      destruct (String.eqb error_code "ValidationException");
        do 2 eexists; (split; [reflexivity|]); cbn; apply Hin; tauto.
    + cbn. do 2 eexists. split; [reflexivity|]. cbn. apply Hin. tauto.
  - intros response text key -> Hk Hs.
    unfold Auth.execute_with_retry, Breaker.call.
    rewrite (on_entry_not_open _ _ Hs).
    unfold Auth._execute. rewrite Hop.
    rewrite (dynamo_missing_key_class response text key Hk).
    cbn [outcome breaker invocations settle]. rewrite Hexp.
    change (isinstance (new_KeyError key) (TService DynamoDBError)) with false.
    cbn iota. auto.
Qed.

End BreakerMoreFacts.

Lemma closed_breaker_is_below_threshold_witness :
  let e := Py.new_MongoDBError "Database error: x" None in
  let steps : list (Breaker.Operation Z unit * Z) :=
    [(Breaker.raising e 1, 0); (Breaker.raising e 3, 2);
     (Breaker.returning tt 5, 4); (Breaker.raising e 7, 6)] in
  let cb := (Breaker.calls id (Breaker.init 5 30 (Py.TService Py.MongoDBError)) steps).1 in
  Breaker.state cb = Breaker.CLOSED /\
  0 <= Breaker.failure_count cb /\
  (Breaker.state cb = Breaker.CLOSED -> Breaker.failure_count cb < 5).
Proof.
  intros e steps cb. split; [reflexivity|].
  exact (closed_breaker_is_below_threshold (A:=unit) id 5 30
           (Py.TService Py.MongoDBError) steps ltac:(lia)).
Defined.

Lemma only_success_closes_witness :
  let cb := {| Breaker.failure_threshold := 5; Breaker.recovery_timeout := 30;
               Breaker.expected_exception := Py.TService Py.MongoDBError;
               Breaker.failure_count := 5; Breaker.last_failure_time := Some 0;
               Breaker.state := Breaker.OPEN |} in
  let steps : list (Breaker.Operation Z unit * Z) :=
    [(Breaker.raising (Py.new_ConflictError "dup" None) 30000001, 30000000);
     (Breaker.raising (Py.new_MongoDBError "down" None) 30000003, 30000002);
     (Breaker.raising (Py.new_MongoDBError "down" None) 30000005, 30000004)] in
  Breaker.state (Breaker.calls id cb steps).1 <> Breaker.CLOSED.
Proof.
  intros cb steps.
  exact (only_success_closes (A:=unit) id cb steps ltac:(discriminate) eq_refl).
Defined.

Lemma rejected_calls_leave_breaker_witness :
  let cb := {| Breaker.failure_threshold := 5; Breaker.recovery_timeout := 30;
               Breaker.expected_exception := Py.TService Py.MongoDBError;
               Breaker.failure_count := 5; Breaker.last_failure_time := Some 0;
               Breaker.state := Breaker.OPEN |} in
  let steps : list (Breaker.Operation Z unit * Z) :=
    [(Breaker.returning tt 2, 1); (Breaker.returning tt 20000001, 20000000);
     (Breaker.returning tt 29999999, 29999999)] in
  Breaker.calls id cb steps = (cb, 0%nat) /\
  Breaker.invocations
    (Breaker.call id (Breaker.calls id cb steps).1
       (Breaker.returning tt 30000001) 30000000) = 1%nat.
Proof.
  intros cb steps.
  exact (rejected_calls_leave_breaker (A:=unit) id cb 0 steps
           (Breaker.returning tt 30000001) 30000000
           eq_refl eq_refl eq_refl ltac:(cbn; lia)).
Defined.

Lemma call_service_counts_every_exception_witness :
  let fails :=
    [(0, Py.new_ValidationError "bad quantity" None, 1);
     (2, Py.OtherException "KeyError" "'sku'", 3);
     (4, Py.ClientError (Py.error_response "ThrottlingException" "slow down" None)
           "throttled", 5)] in
  Breaker.state
    (Breaker.calls id
       (OrderProcessing.ext_circuit_breaker
          (OrderProcessing.init_external "product-catalog" None))
       (BreakerMore.external_steps (A:=unit) "product-catalog" fails)).1
  = Breaker.OPEN.
Proof.
  intros fails.
  exact (proj2 (call_service_counts_every_exception (A:=unit) id "product-catalog"
                  fails eq_refl eq_refl)).
Defined.

Lemma mongo_write_error_without_details_witness :
  let e := Py.Mongo Py.DuplicateKeyError
             {| Py.mongo_code := Some 11000; Py.mongo_details := None;
                Py.mongo_text := "E11000 duplicate key error" |} in
  let m := OrderProcessing.init None in
  let r := OrderProcessing.execute_with_retry (A:=unit) id m (Breaker.raising e 1) 0 in
  Breaker.outcome r = Py.Raise OrderProcessing.none_has_no_get /\
  Breaker.breaker r = OrderProcessing.circuit_breaker m.
Proof.
  intros e m.
  exact (mongo_write_error_without_details (A:=unit) id m (Breaker.raising e 1) 0 1
           Py.DuplicateKeyError _ eq_refl eq_refl eq_refl eq_refl
           ltac:(discriminate)).
Defined.

Lemma dynamo_raises_service_errors_witness :
  let e := Py.ClientError (Py.error_response "ValidationException" "bad key" None)
             "An error occurred" in
  let bare := Py.ClientError {| Py.resp_Error := None; Py.resp_RequestId := None |}
                "An error occurred (Unknown)" in
  (exists cls d,
     Breaker.outcome
       (Auth.execute_with_retry (A:=unit) id (Auth.init None) (Breaker.raising e 1) 0)
       = Py.Raise (Py.Service cls d) /\
     Py.status_code d ∈ [404; 409; 429; 400; 503]) /\
  Breaker.outcome
    (Auth.execute_with_retry (A:=unit) id (Auth.init None) (Breaker.raising bare 1) 0)
    = Py.Raise (Py.OtherException "KeyError" "'Error'").
Proof.
  intros e bare. split.
  - apply (proj1 (dynamo_raises_service_errors (A:=unit) id (Auth.init None)
                    (Breaker.raising e 1) 0 1 e eq_refl eq_refl eq_refl)).
    intros response text H. inversion H. reflexivity.
  - apply (proj2 (dynamo_raises_service_errors (A:=unit) id (Auth.init None)
                    (Breaker.raising bare 1) 0 1 bare eq_refl eq_refl eq_refl)
             _ _ "Error" eq_refl eq_refl).
    discriminate.
Defined.

(** ** More on the HTTP client *)

Section HttpMoreFacts.
Import HttpClient HttpCalls HttpMore.

Lemma loop_stops (retries : Z) (request : Z -> Attempt) (uniform : Z -> Q) c :
  forall k m last,
    k + Z.of_nat c <= retries ->
    (forall a, k <= a < k + Z.of_nat c -> fails_retryably (request a) = true) ->
    fails_retryably (request (k + Z.of_nat c)) = false ->
    exists tr,
      loop retries request uniform (seqZ k (Z.of_nat (S c + m))) last =
        (final_outcome (request (k + Z.of_nat c)), tr) /\
      requests tr = S c /\
      sleeps tr = map (fun a => wait_time a (uniform a)) (seqZ k (Z.of_nat c)).
Proof.
  induction c as [|c IH]; intros k m last Hle Hfail Hend.
  - replace (k + Z.of_nat 0) with k in * by lia.
    change (S 0 + m)%nat with (S m). rewrite seqZ_S. cbn [loop].
    destruct (request k) as [r|e]; cbn in Hend; cbn [final_outcome].
    + rewrite Hend. cbn [andb]. eexists; repeat split.
    + rewrite Hend. eexists; repeat split.
  - change (S (S c) + m)%nat with (S (S c + m)). rewrite seqZ_S. cbn [loop].
    assert (Hlt : k < retries) by lia.
    pose proof (Hfail k ltac:(lia)) as Hk0.
    rewrite (seqZ_S k c). cbn [map].
    replace (k + Z.of_nat (S c)) with ((k + 1) + Z.of_nat c) in * by lia.
    destruct (request k) as [r|e]; cbn in Hk0.
    + rewrite Hk0. destruct (Z.ltb_spec k retries); [|lia]. cbn [andb].
      destruct (IH (k + 1) m (Some (status_error r)) ltac:(lia)
                  ltac:(intros; apply Hfail; lia) Hend) as (tr & Hl & Hr & Hs).
      rewrite Hl. eexists. split; [reflexivity|]. split.
      * rewrite requests_step, Hr. reflexivity.
      * rewrite sleeps_step_more by lia. rewrite Hs. reflexivity.
    + rewrite Hk0.
      destruct (IH (k + 1) m (Some e) ltac:(lia)
                  ltac:(intros; apply Hfail; lia) Hend) as (tr & Hl & Hr & Hs).
      rewrite Hl. eexists. split; [reflexivity|]. split.
      * rewrite requests_step, Hr. reflexivity.
      * rewrite sleeps_step_more by lia. rewrite Hs. reflexivity.
Qed.

(** X14.  [_make_request] stops at the first attempt that ends the loop:
    when attempts [0 .. j-1] fail retryably and attempt [j <= retries] is
    the last allowed one or answers with anything else (a response that is
    not 502/503/504, an exception outside the three caught classes), the
    caller gets the outcome of attempt [j] after exactly [j + 1] requests
    and the [j] sleeps that follow attempts [0 .. j-1]. *)
Theorem make_request_stops_at_first_final_answer
    (retries : Z) (request : Z -> Attempt) (uniform : Z -> Q) (j : Z) :
  0 <= j <= retries ->
  (forall a, 0 <= a < j -> fails_retryably (request a) = true) ->
  ends_loop retries j (request j) = true ->
  (_make_request retries request uniform).1 = final_outcome (request j) /\
  requests (_make_request retries request uniform).2 = Z.to_nat (j + 1) /\
  sleeps (_make_request retries request uniform).2 =
    map (fun a => wait_time a (uniform a)) (seqZ 0 j).
Proof.
  intros Hj Hfail Hend. unfold ends_loop in Hend.
  destruct (fails_retryably (request j)) eqn:Hfj.
  - rewrite orb_false_r in Hend. apply Z.leb_le in Hend.
    assert (j = retries) by lia. subst j.
    destruct (make_request_exhausts retries request uniform ltac:(lia) Hfail)
      as (tr & Hl & Hr & Hs).
    rewrite Hl. cbn. auto.
  - unfold _make_request.
    destruct (loop_stops retries request uniform (Z.to_nat j) 0
                (Z.to_nat (retries - j)) None) as (tr & Hl & Hr & Hs).
    + lia.
    + intros a Ha. apply Hfail. lia.
    + replace (0 + Z.of_nat (Z.to_nat j)) with j by lia. exact Hfj.
    + replace (Z.of_nat (S (Z.to_nat j) + Z.to_nat (retries - j)))
        with (retries + 1) in Hl by lia.
      replace (0 + Z.of_nat (Z.to_nat j)) with j in Hl by lia.
      replace (Z.of_nat (Z.to_nat j)) with j in Hs by lia.
      rewrite Hl. cbn [fst snd]. repeat split; auto. rewrite Hr. lia.
Qed.

(** X15.  With a negative [retries] the loop body never runs: no request
    is sent, and [raise last_exception] with nothing recorded raises a
    [TypeError]. *)
Theorem negative_retries_send_nothing
    (retries : Z) (request : Z -> Attempt) (uniform : Z -> Q) :
  retries < 0 ->
  _make_request retries request uniform =
    (Raise (TypeError "exceptions must derive from BaseException"), []).
Proof.
  intros H. unfold _make_request.
  replace (seqZ 0 (retries + 1)) with (@nil Z); [reflexivity|].
  symmetry. apply seqZ_nil. lia.
Qed.

Lemma get_service_url_retries c env name :
  retries (_get_service_url c env name).1.2 = retries c.
Proof.
  unfold _get_service_url.
  destruct (if use_service_discovery c then service_discovery c else None);
    [|reflexivity].
  destruct (Discovery.endpoint _) as [url|e]; [|reflexivity].
  destruct (Discovery.truthy url); reflexivity.
Qed.

Lemma product_url_retries c env r c' :
  _get_product_service_url c env = (r, c') -> retries c' = retries c.
Proof.
  unfold _get_product_service_url. pose proof (get_service_url_retries c env
    "product-catalog") as H.
  destruct (_get_service_url c env "product-catalog") as [[url c0] n]. cbn in H.
  destruct (Discovery.truthy url); intros E; inversion E; subst; exact H.
Qed.

Lemma auth_url_retries c env r c' :
  _get_auth_service_url c env = (r, c') -> retries c' = retries c.
Proof.
  unfold _get_auth_service_url. pose proof (get_service_url_retries c env "auth") as H.
  destruct (_get_service_url c env "auth") as [[url c0] n]. cbn in H.
  destruct (Discovery.truthy url); intros E; inversion E; subst; exact H.
Qed.

(** What [send] gives while the network is down. *)
Lemma send_when_down c net method url payload :
  0 <= retries c ->
  network_down net ->
  exists tr,
    send c net method url payload =
      (final_outcome (client net method url payload (retries c)), tr) /\
    requests tr = Z.to_nat (retries c + 1).
Proof.
  intros H0 Hdown. unfold send.
  destruct (make_request_exhausts (retries c) (client net method url payload)
              (uniform net) H0 ltac:(intros; apply Hdown)) as (tr & Hl & Hr & _).
  exists tr. rewrite Hl. auto.
Qed.

Lemma retryable_status_not_200 r :
  retryable_status (status_code r) = true -> (status_code r =? 200) = false.
Proof.
  unfold retryable_status. intros H. apply bool_decide_eq_true in H.
  apply Z.eqb_neq. rewrite !elem_of_cons, elem_of_nil in H. lia.
Qed.

(** X16.  While every request fails retryably (timeouts, connection
    errors, 502/503/504 answers), the calls that swallow errors report a
    plain negative after [retries + 1] requests each: [validate_session]
    and [get_product_details] return [None], [update_inventory] and
    [clear_user_cart] return [False]; none of them raises. *)
Theorem swallowing_calls_when_network_down
    (c : HTTPClientService) (env : Discovery.Env) (net : Net)
    (id : string) (n : Z) (auth_url product_url : string)
    (ca cp : HTTPClientService) :
  0 <= retries c ->
  network_down net ->
  _get_auth_service_url c env = (Ok auth_url, ca) ->
  _get_product_service_url c env = (Ok product_url, cp) ->
  let attempts := Z.to_nat (retries c + 1) in
  (value (validate_session c env net id) = Ok None /\
   requests (events (validate_session c env net id)) = attempts) /\
  (value (get_product_details c env net id) = Ok None /\
   requests (events (get_product_details c env net id)) = attempts) /\
  (value (update_inventory c env net id n) = Ok false /\
   requests (events (update_inventory c env net id n)) = attempts) /\
  (value (clear_user_cart c env net id) = Ok false /\
   requests (events (clear_user_cart c env net id)) = attempts).
Proof.
  intros H0 Hdown Ha Hp. cbn zeta.
  pose proof (auth_url_retries _ _ _ _ Ha) as Hra.
  pose proof (product_url_retries _ _ _ _ Hp) as Hrp.
  assert (Hswallow : forall (A : Type) (d : A) a,
             fails_retryably a = true ->
             match a with Responds _ => True | Fails e => swallow net d e = Ok d end).
  { intros A d [r|e] Hf; [exact I|]. unfold swallow, is_exception.
    destruct e; try discriminate Hf; reflexivity. }
  repeat split.
  - unfold validate_session. rewrite Ha.
    destruct (send_when_down ca net "GET" (auth_url +:+ "/auth/validate/" +:+ id) []
                ltac:(lia) Hdown) as (tr & Hs & _).
    rewrite Hs. cbn [value].
    pose proof (Hdown "GET" (auth_url +:+ "/auth/validate/" +:+ id) [] (retries ca)) as Hf.
    pose proof (Hswallow _ (@None Json) _ Hf) as Hsw.
    destruct (client net "GET" _ [] (retries ca)) as [r|e]; cbn [final_outcome].
    + cbn in Hf. rewrite (retryable_status_not_200 r Hf). reflexivity.
    + exact Hsw.
  - unfold validate_session. rewrite Ha.
    destruct (send_when_down ca net "GET" (auth_url +:+ "/auth/validate/" +:+ id) []
                ltac:(lia) Hdown) as (tr & Hs & Hr).
    rewrite Hs. cbn [events]. rewrite Hr, Hra. reflexivity.
  - unfold get_product_details. rewrite Hp.
    destruct (send_when_down cp net "GET" (product_url +:+ "/products/" +:+ id) []
                ltac:(lia) Hdown) as (tr & Hs & _).
    rewrite Hs. cbn [value].
    pose proof (Hdown "GET" (product_url +:+ "/products/" +:+ id) [] (retries cp)) as Hf.
    pose proof (Hswallow _ (@None Json) _ Hf) as Hsw.
    destruct (client net "GET" _ [] (retries cp)) as [r|e]; cbn [final_outcome].
    + cbn in Hf. rewrite (retryable_status_not_200 r Hf). reflexivity.
    + exact Hsw.
  - unfold get_product_details. rewrite Hp.
    destruct (send_when_down cp net "GET" (product_url +:+ "/products/" +:+ id) []
                ltac:(lia) Hdown) as (tr & Hs & Hr).
    rewrite Hs. cbn [events]. rewrite Hr, Hrp. reflexivity.
  - unfold update_inventory. rewrite Hp.
    destruct (send_when_down cp net "PUT"
                (product_url +:+ "/products/" +:+ id +:+ "/inventory")
                [("quantity_change", n)] ltac:(lia) Hdown) as (tr & Hs & _).
    rewrite Hs. cbn [value].
    pose proof (Hdown "PUT" (product_url +:+ "/products/" +:+ id +:+ "/inventory")
                  [("quantity_change", n)] (retries cp)) as Hf.
    pose proof (Hswallow _ false _ Hf) as Hsw.
    destruct (client net "PUT" _ _ (retries cp)) as [r|e]; cbn [final_outcome].
    + cbn in Hf. rewrite (retryable_status_not_200 r Hf). reflexivity.
    + exact Hsw.
  - unfold update_inventory. rewrite Hp.
    destruct (send_when_down cp net "PUT"
                (product_url +:+ "/products/" +:+ id +:+ "/inventory")
                [("quantity_change", n)] ltac:(lia) Hdown) as (tr & Hs & Hr).
    rewrite Hs. cbn [events]. rewrite Hr, Hrp. reflexivity.
  - unfold clear_user_cart. rewrite Ha.
    destruct (send_when_down ca net "DELETE" (auth_url +:+ "/auth/cart/" +:+ id) []
                ltac:(lia) Hdown) as (tr & Hs & _).
    rewrite Hs. cbn [value].
    pose proof (Hdown "DELETE" (auth_url +:+ "/auth/cart/" +:+ id) [] (retries ca)) as Hf.
    pose proof (Hswallow _ false _ Hf) as Hsw.
    destruct (client net "DELETE" _ [] (retries ca)) as [r|e]; cbn [final_outcome].
    + cbn in Hf. f_equal. apply bool_decide_eq_false.
      unfold retryable_status in Hf. apply bool_decide_eq_true in Hf.
      rewrite !elem_of_cons, elem_of_nil in *. lia.
    + exact Hsw.
  - unfold clear_user_cart. rewrite Ha.
    destruct (send_when_down ca net "DELETE" (auth_url +:+ "/auth/cart/" +:+ id) []
                ltac:(lia) Hdown) as (tr & Hs & Hr).
    rewrite Hs. cbn [events]. rewrite Hr, Hra. reflexivity.
Qed.

(** X17.  While every request fails retryably, the two product calls
    that raise give different statuses for the same outage:
    [check_product_availability] always ends in [HTTPException] 503;
    [reserve_inventory] ends in 503 when the last attempt raised, but in
    409 (conflict) when the last attempt was answered 502/503/504.  Each
    sends [retries + 1] requests. *)
Theorem product_calls_when_network_down
    (c : HTTPClientService) (env : Discovery.Env) (net : Net)
    (id : string) (q t : Z) (product_url : string) (cp : HTTPClientService) :
  0 <= retries c ->
  network_down net ->
  _get_product_service_url c env = (Ok product_url, cp) ->
  let attempts := Z.to_nat (retries c + 1) in
  let last_reserve :=
    client net "POST" (product_url +:+ "/products/" +:+ id +:+ "/reserve")
      [("quantity", q); ("timeout", t)] (retries c) in
  http_status (value (check_product_availability c env net id q)) = Some 503 /\
  requests (events (check_product_availability c env net id q)) = attempts /\
  http_status (value (reserve_inventory c env net id q t)) =
    Some (match last_reserve with Responds _ => 409 | Fails _ => 503 end) /\
  requests (events (reserve_inventory c env net id q t)) = attempts.
Proof.
  intros H0 Hdown Hp. cbn zeta.
  pose proof (product_url_retries _ _ _ _ Hp) as Hrp.
  assert (Hhttp : forall (A : Type) e,
             caught e = true ->
             @on_http_error A net e =
               Err (HTTPException 503 "Product catalog service unavailable")).
  { intros A e He. unfold on_http_error, is_http_error.
    destruct e; try discriminate He; reflexivity. }
  unfold check_product_availability, reserve_inventory. rewrite Hp.
  destruct (send_when_down cp net "POST"
              (product_url +:+ "/products/" +:+ id +:+ "/availability")
              [("quantity", q)] ltac:(lia) Hdown) as (tr1 & Hs1 & Hr1).
  destruct (send_when_down cp net "POST"
              (product_url +:+ "/products/" +:+ id +:+ "/reserve")
              [("quantity", q); ("timeout", t)] ltac:(lia) Hdown)
    as (tr2 & Hs2 & Hr2).
  rewrite Hs1, Hs2. cbn [value events]. rewrite Hr1, Hr2, Hrp.
  pose proof (Hdown "POST" (product_url +:+ "/products/" +:+ id +:+ "/availability")
                [("quantity", q)] (retries c)) as Hf1.
  pose proof (Hdown "POST" (product_url +:+ "/products/" +:+ id +:+ "/reserve")
                [("quantity", q); ("timeout", t)] (retries c)) as Hf2.
  repeat split.
  - destruct (client net "POST" _ [("quantity", q)] (retries c)) as [r|e];
      cbn [final_outcome]; cbn in Hf1.
    + rewrite (retryable_status_not_200 r Hf1). reflexivity.
    + rewrite (Hhttp _ e Hf1). reflexivity.
  - destruct (client net "POST" _ [("quantity", q); ("timeout", t)] (retries c))
      as [r|e]; cbn [final_outcome]; cbn in Hf2.
    + rewrite (retryable_status_not_200 r Hf2). reflexivity.
    + rewrite (Hhttp _ e Hf2). reflexivity.
Qed.

Lemma product_url_missing c env :
  Discovery.truthy (_get_service_url c env "product-catalog").1.1 = None ->
  exists c', _get_product_service_url c env =
    (Err (HTTPException 503 "Product Catalog service URL not available"), c').
Proof.
  unfold _get_product_service_url.
  destruct (_get_service_url c env "product-catalog") as [[url c0] n]. cbn.
  intros ->. eauto.
Qed.

Lemma auth_url_missing c env :
  Discovery.truthy (_get_service_url c env "auth").1.1 = None ->
  exists c', _get_auth_service_url c env =
    (Err (HTTPException 503 "Auth service URL not available"), c').
Proof.
  unfold _get_auth_service_url.
  destruct (_get_service_url c env "auth") as [[url c0] n]. cbn.
  intros ->. eauto.
Qed.

(** X18.  When no URL can be found for a service, nothing is sent.  The
    calls that swallow errors answer [None] or [False];
    [check_product_availability] and [reserve_inventory] both raise
    [HTTPException] 503 (for the reservation too: 503, not 409). *)
Theorem calls_without_url_send_nothing
    (c : HTTPClientService) (env : Discovery.Env) (net : Net)
    (id : string) (q t : Z) :
  Discovery.truthy (_get_service_url c env "product-catalog").1.1 = None ->
  Discovery.truthy (_get_service_url c env "auth").1.1 = None ->
  (value (validate_session c env net id) = Ok None /\
   events (validate_session c env net id) = []) /\
  (value (clear_user_cart c env net id) = Ok false /\
   events (clear_user_cart c env net id) = []) /\
  (value (get_product_details c env net id) = Ok None /\
   events (get_product_details c env net id) = []) /\
  (value (update_inventory c env net id q) = Ok false /\
   events (update_inventory c env net id q) = []) /\
  (http_status (value (check_product_availability c env net id q)) = Some 503 /\
   events (check_product_availability c env net id q) = []) /\
  (http_status (value (reserve_inventory c env net id q t)) = Some 503 /\
   events (reserve_inventory c env net id q t) = []).
Proof.
  intros Hp Ha.
  destruct (product_url_missing c env Hp) as [cp Ep].
  destruct (auth_url_missing c env Ha) as [ca Ea].
  unfold validate_session, clear_user_cart, get_product_details, update_inventory,
    check_product_availability, reserve_inventory.
  rewrite Ep, Ea. cbn. repeat split.
Qed.

(** X19.  The order in which [_get_service_url] looks for a URL while the
    registry call fails: the resolver's cache first (stale or not), then
    the environment variable of the service, then the URL configured on the
    client for product-catalog or auth; any other service gets [None]. *)
Theorem service_url_fallback_chain
    (c : HTTPClientService) (sd : Discovery.ServiceDiscovery)
    (env : Discovery.Env) (service_name : string) :
  use_service_discovery c = true ->
  service_discovery c = Some sd ->
  Discovery.registry_fails env = true ->
  (_get_service_url c env service_name).1.1 =
    match Discovery.cached_url sd service_name with
    | Some url => Some url
    | None =>
        match Discovery.truthy (Discovery._get_fallback_endpoint env service_name) with
        | Some url => Some url
        | None => configured_url c service_name
        end
    end.
Proof.
  intros Huse Hsd Hfail. unfold _get_service_url. rewrite Huse, Hsd.
  unfold Discovery.get_service_endpoint, Discovery.cache_hit.
  pose proof (refresh_when_registry_fails sd env Hfail) as Hr.
  assert (Htruthy : forall u, Discovery.cached_url sd service_name = Some u ->
                              Discovery.truthy (Some u) = Some u).
  { intros u Hu. unfold Discovery.cached_url in Hu.
    destruct (Discovery._service_cache sd !! service_name ≫= _) as [[|a x]|];
      cbn in Hu; inversion Hu; reflexivity. }
  assert (Htruthy2 : forall o u, Discovery.truthy o = Some u ->
                                 Discovery.truthy (Some u) = Some u).
  { intros [[|a x]|] u Hu; cbn in Hu; inversion Hu; reflexivity. }
  destruct (Discovery._is_cache_valid sd (Discovery.time_at_check env)).
  - destruct (Discovery.cached_url sd service_name) as [u|] eqn:Hc.
    + cbn [Discovery.endpoint]. rewrite (Htruthy u eq_refl). reflexivity.
    + destruct (Discovery._refresh_service_cache sd env) as [sd' n].
      cbn in Hr. subst sd'. rewrite Hc.
      destruct (Discovery.truthy (Discovery._get_fallback_endpoint env service_name))
        as [u|] eqn:Hf; cbn [Discovery.endpoint].
      * rewrite (Htruthy2 _ u Hf). reflexivity.
      * reflexivity.
  - destruct (Discovery._refresh_service_cache sd env) as [sd' n].
    cbn in Hr. subst sd'.
    destruct (Discovery.cached_url sd service_name) as [u|] eqn:Hc.
    + cbn [Discovery.endpoint]. rewrite (Htruthy u eq_refl). reflexivity.
    + destruct (Discovery.truthy (Discovery._get_fallback_endpoint env service_name))
        as [u|] eqn:Hf; cbn [Discovery.endpoint].
      * rewrite (Htruthy2 _ u Hf). reflexivity.
      * reflexivity.
Qed.

End HttpMoreFacts.

Lemma make_request_stops_at_first_final_answer_witness :
  let ok := {| HttpClient.status_code := 200; HttpClient.body := "{}" |} in
  let request := fun a : Z =>
    if a =? 0 then HttpClient.Fails (HttpClient.TimeoutException "timed out")
    else HttpClient.Responds ok in
  let uniform := fun _ : Z => (1 # 5)%Q in
  (HttpClient._make_request 3 request uniform).1 = HttpClient.Return ok /\
  HttpClient.requests (HttpClient._make_request 3 request uniform).2 = 2%nat /\
  HttpClient.sleeps (HttpClient._make_request 3 request uniform).2 =
    [HttpClient.wait_time 0 (1 # 5)].
Proof.
  intros ok request uniform.
  apply (make_request_stops_at_first_final_answer 3 request uniform 1).
  - lia.
  - intros a Ha. assert (a = 0) as -> by lia. reflexivity.
  - reflexivity.
Defined.

Lemma negative_retries_send_nothing_witness :
  HttpClient._make_request (-1)
    (fun _ => HttpClient.Responds {| HttpClient.status_code := 200; HttpClient.body := "" |})
    (fun _ => (1 # 5)%Q)
  = (HttpClient.Raise (HttpClient.TypeError "exceptions must derive from BaseException"),
     []).
Proof.
  apply negative_retries_send_nothing. lia.
Defined.

Lemma swallowing_calls_when_network_down_witness :
  let c := HttpCalls.new (Some "http://products.local/") (Some "http://auth.local")
             2 false (Discovery.init "shopsmart" "production" false) in
  let env := {| Discovery.environ := ∅; Discovery.ssm := Discovery.Responds [];
                Discovery.time_at_check := 0; Discovery.time_after_fetch := 0 |} in
  let net := {| HttpCalls.client := fun _ _ _ _ =>
                  HttpClient.Responds
                    {| HttpClient.status_code := 503; HttpClient.body := "busy" |};
                HttpCalls.json := fun _ => None;
                HttpCalls.uniform := fun _ => (1 # 10)%Q;
                HttpCalls.class_of := fun _ => HttpCalls.UnderException |} in
  HttpCalls.value (HttpCalls.validate_session c env net "s-1") = HttpCalls.Ok None /\
  HttpClient.requests (HttpCalls.events (HttpCalls.validate_session c env net "s-1"))
    = 3%nat.
Proof.
  intros c env net.
  exact (proj1 (swallowing_calls_when_network_down c env net "s-1" 0
                  "http://auth.local" "http://products.local" c c
                  ltac:(cbn; lia) ltac:(intros m u p a; reflexivity)
                  eq_refl eq_refl)).
Defined.

Lemma product_calls_when_network_down_witness :
  let c := HttpCalls.new (Some "http://products.local/") (Some "http://auth.local")
             2 false (Discovery.init "shopsmart" "production" false) in
  let env := {| Discovery.environ := ∅; Discovery.ssm := Discovery.Responds [];
                Discovery.time_at_check := 0; Discovery.time_after_fetch := 0 |} in
  let net := {| HttpCalls.client := fun _ _ _ _ =>
                  HttpClient.Responds
                    {| HttpClient.status_code := 503; HttpClient.body := "busy" |};
                HttpCalls.json := fun _ => None;
                HttpCalls.uniform := fun _ => (1 # 10)%Q;
                HttpCalls.class_of := fun _ => HttpCalls.UnderException |} in
  HttpMore.http_status
    (HttpCalls.value (HttpCalls.check_product_availability c env net "desk-7" 1))
    = Some 503 /\
  HttpMore.http_status
    (HttpCalls.value (HttpCalls.reserve_inventory c env net "desk-7" 1 900))
    = Some 409.
Proof.
  intros c env net.
  destruct (product_calls_when_network_down c env net "desk-7" 1 900
              "http://products.local" c
              ltac:(cbn; lia) ltac:(intros m u p a; reflexivity) eq_refl)
    as (H1 & _ & H3 & _).
  split; [exact H1 | exact H3].
Defined.

Lemma calls_without_url_send_nothing_witness :
  let c := HttpCalls.new None (Some "") 3 false
             (Discovery.init "shopsmart" "production" false) in
  let env := {| Discovery.environ := ∅; Discovery.ssm := Discovery.Responds [];
                Discovery.time_at_check := 0; Discovery.time_after_fetch := 0 |} in
  let net := {| HttpCalls.client := fun _ _ _ _ =>
                  HttpClient.Responds
                    {| HttpClient.status_code := 200; HttpClient.body := "{}" |};
                HttpCalls.json := fun _ => Some (HttpCalls.JObject []);
                HttpCalls.uniform := fun _ => (1 # 10)%Q;
                HttpCalls.class_of := fun _ => HttpCalls.UnderException |} in
  HttpMore.http_status
    (HttpCalls.value (HttpCalls.reserve_inventory c env net "desk-7" 1 900))
    = Some 503 /\
  HttpCalls.events (HttpCalls.reserve_inventory c env net "desk-7" 1 900) = [].
Proof.
  intros c env net.
  exact (proj2 (proj2 (proj2 (proj2 (proj2
           (calls_without_url_send_nothing c env net "desk-7" 1 900
              eq_refl eq_refl)))))).
Defined.

Lemma service_url_fallback_chain_witness :
  let sd := {| Discovery.ssm_prefix := "/shopsmart/production/services";
               Discovery._service_cache :=
                 {[ "auth" := {[ "full_url" := "http://auth.internal" ]} ]};
               Discovery._cache_ttl := 300;
               Discovery._last_cache_update := 0;
               Discovery._ssm_available := true |} in
  let c := HttpCalls.new (Some "http://products.configured/")
             (Some "http://auth.configured") 3 true sd in
  let env := {| Discovery.environ := ∅;
                Discovery.ssm := Discovery.RaisesClientError "AccessDeniedException";
                Discovery.time_at_check := 400; Discovery.time_after_fetch := 401 |} in
  (HttpCalls._get_service_url c env "auth").1.1 = Some "http://auth.internal" /\
  (HttpCalls._get_service_url c env "product-catalog").1.1
    = Some "http://products.configured" /\
  (HttpCalls._get_service_url c env "inventory").1.1 = None.
Proof.
  intros sd c env.
  pose proof (service_url_fallback_chain c sd env "auth" eq_refl eq_refl eq_refl) as H1.
  pose proof (service_url_fallback_chain c sd env "product-catalog"
                eq_refl eq_refl eq_refl) as H2.
  pose proof (service_url_fallback_chain c sd env "inventory"
                eq_refl eq_refl eq_refl) as H3.
  split; [exact H1 | split; [exact H2 | exact H3]].
Defined.

(** ** The cache manager *)

Section CacheMoreFacts.
Import Retry ProductCatalog CacheMore.
Variable cfg : RetryConfig.
Variable setex : Z -> Attempt.

Lemma set_loop_stops c :
  forall k m,
    k + Z.of_nat c < max_attempts cfg ->
    (forall a, k <= a < k + Z.of_nat c -> redis_error (setex a) = true) ->
    ends_set_loop (setex (k + Z.of_nat c)) = true ->
    exists tr,
      loop cfg setex (seqZ k (Z.of_nat (S c + m))) =
        (set_outcome (setex (k + Z.of_nat c)), tr) /\
      setex_calls tr = S c /\
      sleeps tr = map (delay cfg) (seqZ k (Z.of_nat c)).
Proof.
  induction c as [|c IH]; intros k m Hlt Hfail Hend.
  - replace (k + Z.of_nat 0) with k in * by lia.
    change (S 0 + m)%nat with (S m). rewrite seqZ_S. cbn [loop].
    unfold ends_set_loop in Hend.
    destruct (setex k) as [|text|n t]; try discriminate Hend;
      eexists; repeat split.
  - change (S (S c) + m)%nat with (S (S c + m)). rewrite seqZ_S. cbn [loop].
    pose proof (Hfail k ltac:(lia)) as Hk0.
    rewrite (seqZ_S k c). cbn [map].
    replace (k + Z.of_nat (S c)) with ((k + 1) + Z.of_nat c) in * by lia.
    destruct (setex k) as [|text|n t]; try discriminate Hk0.
    destruct (IH (k + 1) m ltac:(lia) ltac:(intros; apply Hfail; lia) Hend)
      as (tr & Hl & Hc & Hs).
    rewrite Hl. destruct (Z.ltb_spec k (max_attempts cfg - 1)); [|lia].
    eexists. split; [reflexivity|]. split.
    + unfold setex_calls in *. cbn. rewrite Hc. reflexivity.
    + rewrite sleeps_setex_sleep, Hs. reflexivity.
Qed.

(** X20.  [set_with_retry] stops at the first attempt that does not raise
    a [RedisError]: when attempts [0 .. j-1] raise one and attempt
    [j < max_attempts] stores, the result is [True] after [j + 1] attempts
    and the sleeps [base_delay * 2^a] for [a < j]; when attempt [j] raises
    something else, that exception is raised at once, after [j + 1]
    attempts. *)
Theorem set_with_retry_stops_at_first_final_answer (j : Z) :
  0 <= j < max_attempts cfg ->
  (forall a, 0 <= a < j -> redis_error (setex a) = true) ->
  ends_set_loop (setex j) = true ->
  (set_with_retry cfg setex).1 = set_outcome (setex j) /\
  setex_calls (set_with_retry cfg setex).2 = Z.to_nat (j + 1) /\
  sleeps (set_with_retry cfg setex).2 = map (delay cfg) (seqZ 0 j).
Proof.
  intros Hj Hfail Hend. unfold set_with_retry.
  destruct (set_loop_stops (Z.to_nat j) 0 (Z.to_nat (max_attempts cfg - j - 1)))
    as (tr & Hl & Hc & Hs).
  - lia.
  - intros a Ha. apply Hfail. lia.
  - replace (0 + Z.of_nat (Z.to_nat j)) with j by lia. exact Hend.
  - replace (Z.of_nat (S (Z.to_nat j) + Z.to_nat (max_attempts cfg - j - 1)))
      with (max_attempts cfg) in Hl by lia.
    replace (0 + Z.of_nat (Z.to_nat j)) with j in Hl by lia.
    replace (Z.of_nat (Z.to_nat j)) with j in Hs by lia.
    rewrite Hl. cbn [fst snd]. repeat split; auto. rewrite Hc. lia.
Qed.

(** X21.  [set_with_retry] gives up quietly: when every attempt raises a
    [RedisError] it returns [False] and raises nothing, after
    [max_attempts] attempts; with [max_attempts <= 0] it returns [False]
    without a single attempt. *)
Theorem set_with_retry_gives_up_quietly :
  (forall a, redis_error (setex a) = true) ->
  (set_with_retry cfg setex).1 = Return false /\
  setex_calls (set_with_retry cfg setex).2 = Z.to_nat (max_attempts cfg).
Proof.
  intros Hfail. unfold set_with_retry.
  destruct (Z.lt_ge_cases (max_attempts cfg) 0) as [Hneg|Hpos].
  - rewrite seqZ_nil by lia. cbn. split; [reflexivity | lia].
  - destruct (set_loop_exhausts cfg setex (Z.to_nat (max_attempts cfg)) 0
                ltac:(lia) Hfail) as (tr & Hl & Hc & _).
    replace (Z.of_nat (Z.to_nat (max_attempts cfg))) with (max_attempts cfg)
      in Hl by lia.
    rewrite Hl. cbn [fst snd]. auto.
Qed.

End CacheMoreFacts.

Section GetFacts.
Import Py CacheMore.
Context {J : Type}.
Variable loads : string -> option (option J).

(** X22.  Cache trouble never surfaces from [get_with_fallback]: a Redis
    error, any other [Exception] from the client, a missing or empty value
    and a value that [json.loads] rejects all lead to the same place, the
    fallback function's own outcome (its exception included) or [None]
    when there is none; a usable cached value is returned without calling
    the fallback. *)
Theorem cache_trouble_falls_back
    (get : GetAttempt) (fallback_func : option (Outcome (option J))) :
  ordinary get = true ->
  let r := get_with_fallback loads get fallback_func in
  match usable loads get with
  | Some v => fetched r = Return v /\ fallback_called r = false
  | None =>
      fetched r = default (Return None) fallback_func /\
      fallback_called r = bool_decide (is_Some fallback_func)
  end.
Proof.
  intros Hord. cbn zeta.
  assert (Hfb : fetched (use_fallback fallback_func)
                = default (Return None) fallback_func /\
                fallback_called (use_fallback fallback_func)
                = bool_decide (is_Some fallback_func)).
  { destruct fallback_func; cbn; split; try reflexivity. }
  destruct get as [[[|a rest]|]| | |]; try discriminate Hord; cbn; try exact Hfb.
  destruct (loads (String a rest)); [split; reflexivity | exact Hfb].
Qed.

End GetFacts.

(** ** The decorator and the exception handler *)

Section ErrorHandlingFacts.
Import Py ErrorHandling.
Variable type_name : Exc -> string.

(** X23.  Under [with_error_handling] a function raises nothing but
    service errors and non-[Exception]s: a returned value and a
    [ServiceError] pass unchanged, any other [Exception] becomes a
    [ServiceError] with code INTERNAL_ERROR and status 500.  Decorating
    twice is the same as decorating once. *)
Theorem decorated_raises_service_errors {A} (r : Outcome A) :
  with_error_handling type_name (with_error_handling type_name r)
    = with_error_handling type_name r /\
  (forall a, r = Return a -> with_error_handling type_name r = Return a) /\
  (forall e, r = Raise e -> isinstance e TException = true ->
     exists cls d,
       with_error_handling type_name r = Raise (Service cls d) /\
       (isinstance e (TService ServiceError) = true -> Service cls d = e) /\
       (isinstance e (TService ServiceError) = false ->
        code d = "INTERNAL_ERROR" /\ status_code d = 500)).
Proof.
  split; [|split].
  - destruct r as [a|e]; [reflexivity|]. cbn [with_error_handling].
    destruct (isinstance e (TService ServiceError)) eqn:Hs.
    + cbn [with_error_handling]. rewrite Hs. reflexivity.
    + destruct (isinstance e TException) eqn:He; cbn [with_error_handling].
      * reflexivity.
      * rewrite Hs, He. reflexivity.
  - intros a ->. reflexivity.
  - intros e -> He. cbn [with_error_handling].
    destruct (isinstance e (TService ServiceError)) eqn:Hs.
    + destruct e; try discriminate Hs. do 2 eexists.
      split; [reflexivity|]. split; [reflexivity | discriminate].
    + rewrite He. do 2 eexists. split; [reflexivity|].
      split; [discriminate | intros _; split; reflexivity].
Qed.

(** X24.  What a client sees of an unexpected [Exception].  Raised to
    the handler directly, the response is 500 with the fixed message "An
    internal server error occurred" and empty details.  Raised inside a
    function under [with_error_handling], the response is 500 with code
    INTERNAL_ERROR as well, but its details carry the original error text
    under [original_error]. *)
Theorem unexpected_error_responses
    (e : Exc) (request_id : option string) (timestamp : string) :
  isinstance e (TService ServiceError) = false ->
  isinstance e TException = true ->
  let direct := global_exception_handler type_name (Known e) request_id timestamp in
  let decorated := respond_decorated type_name e request_id timestamp in
  (response_status direct = 500 /\
   body_message (content direct) = "An internal server error occurred" /\
   body_details (content direct) = ∅) /\
  (response_status decorated = 500 /\
   body_code (content decorated) = "INTERNAL_ERROR" /\
   body_details (content decorated) !! "original_error" = Some (VStr (str e))).
Proof.
  intros Hs He. cbn zeta. unfold respond_decorated. cbn [with_error_handling].
  rewrite Hs, He. split.
  - destruct e; try discriminate Hs; repeat split.
  - cbn. split; [reflexivity|]. split; [reflexivity|]. apply lookup_insert_eq.
Qed.

End ErrorHandlingFacts.

(** ** The validators *)

Section ValidatorFacts.
Import Py Validators.

(** X25.  [validate_password_strength] rejects a password exactly when
    it is shorter than 8 characters (with a [ValidationError], status 400);
    any password of 8 or more characters is accepted, whatever it
    contains, and is rated "strong" exactly when it has an uppercase
    letter, a lowercase letter, a digit and a special character, "medium"
    otherwise. *)
Theorem password_strength_rules (password : string) :
  if (String.length password <? 8)%nat then
    exists d, validate_password_strength password = Raise (Service ValidationError d) /\
              status_code d = 400
  else
    exists report,
      validate_password_strength password = Return report /\
      valid report = true /\
      strength report =
        if any isupper password && any islower password &&
           any isdigit password && any isspecial password
        then "strong" else "medium".
Proof.
  unfold validate_password_strength, password_errors.
  destruct (String.length password <? 8)%nat.
  - cbn. eexists. split; reflexivity.
  - cbn [is_empty]. eexists. split; [reflexivity|]. split; [reflexivity|].
    cbn [strength]. unfold password_warnings.
    destruct (any isupper password), (any islower password),
      (any isdigit password), (any isspecial password); reflexivity.
Qed.

Lemma check_items_errors items inventory_data :
  is_empty (check_items items inventory_data).1
    = forallb (in_stock inventory_data) items /\
  length (check_items items inventory_data).1
    = length (List.filter (fun i => negb (in_stock inventory_data i)) items).
Proof.
  induction items as [|item rest [IH1 IH2]]; [split; reflexivity|].
  cbn [check_items forallb List.filter].
  destruct (check_items rest inventory_data) as [errors warnings].
  cbn [fst] in IH1, IH2. unfold in_stock at 1 3.
  destruct (stock inventory_data item) as [available|]; cbn [negb].
  - destruct (available <? default 0 (quantity item)); cbn [negb fst andb].
    + split; [reflexivity | cbn; rewrite IH2; reflexivity].
    + destruct (available <? default 0 (quantity item) * 2); cbn [fst]; auto.
  - cbn. split; [reflexivity | rewrite IH2; reflexivity].
Qed.

(** X26.  [validate_inventory_availability] passes an order exactly when
    every item names a product that is in the inventory with at least the
    requested quantity in stock (an item without a quantity asks for 0);
    low-stock warnings never reject.  Otherwise it raises [InventoryError]
    (status 409) whose details list one error per item that cannot be
    served. *)
Theorem inventory_check_rules
    (items : list Item) (inventory_data : gmap string Z) :
  if forallb (in_stock inventory_data) items then
    exists warnings,
      validate_inventory_availability items inventory_data =
        Return {| inventory_valid := true; inventory_warnings := warnings |}
  else
    exists d errors,
      validate_inventory_availability items inventory_data =
        Raise (Service InventoryError d) /\
      status_code d = 409 /\
      details d !! "errors" = Some (VList errors) /\
      length errors =
        length (List.filter (fun i => negb (in_stock inventory_data i)) items).
Proof.
  unfold validate_inventory_availability.
  destruct (check_items_errors items inventory_data) as [H1 H2].
  destruct (check_items items inventory_data) as [errors warnings].
  cbn [fst] in H1, H2. rewrite <- H1.
  destruct (is_empty errors).
  - eexists. reflexivity.
  - do 2 eexists. split; [reflexivity|]. split; [reflexivity|].
    split; [apply lookup_insert_eq | exact H2].
Qed.

End ValidatorFacts.

Lemma set_with_retry_stops_at_first_final_answer_witness :
  let cfg := Retry.with_attempts_delay 3 (1 # 10) in
  let setex := fun a : Z =>
    if a =? 0 then ProductCatalog.RedisError "connection reset"
    else ProductCatalog.Stored in
  (ProductCatalog.set_with_retry cfg setex).1 = ProductCatalog.Return true /\
  ProductCatalog.setex_calls (ProductCatalog.set_with_retry cfg setex).2 = 2%nat /\
  ProductCatalog.sleeps (ProductCatalog.set_with_retry cfg setex).2 =
    [ProductCatalog.delay cfg 0].
Proof.
  intros cfg setex.
  apply (set_with_retry_stops_at_first_final_answer cfg setex 1).
  - cbn. lia.
  - intros a Ha. assert (a = 0) as -> by lia. reflexivity.
  - reflexivity.
Defined.

Lemma set_with_retry_gives_up_quietly_witness :
  let cfg := Retry.with_attempts_delay 2 (1 # 10) in
  let setex := fun _ : Z => ProductCatalog.RedisError "connection lost" in
  (ProductCatalog.set_with_retry cfg setex).1 = ProductCatalog.Return false /\
  ProductCatalog.setex_calls (ProductCatalog.set_with_retry cfg setex).2 = 2%nat.
Proof.
  intros cfg setex.
  exact (set_with_retry_gives_up_quietly cfg setex ltac:(intros a; reflexivity)).
Defined.

Lemma cache_trouble_falls_back_witness :
  let loads := fun _ : string => @None (option nat) in
  let r := CacheMore.get_with_fallback loads (CacheMore.GetRedisError "timeout")
             (Some (Py.Return (Some 5%nat))) in
  CacheMore.fetched r = Py.Return (Some 5%nat) /\
  CacheMore.fallback_called r = true.
Proof.
  intros loads.
  exact (cache_trouble_falls_back loads (CacheMore.GetRedisError "timeout")
           (Some (Py.Return (Some 5%nat))) eq_refl).
Defined.

Lemma unexpected_error_responses_witness :
  let type_name := fun _ : Py.Exc => "KeyError" in
  let e := Py.OtherException "KeyError" "'sku'" in
  let direct :=
    ErrorHandling.global_exception_handler type_name (ErrorHandling.Known e)
      (Some "req_1") "2024-01-01T00:00:00" in
  let decorated :=
    ErrorHandling.respond_decorated type_name e (Some "req_1") "2024-01-01T00:00:00" in
  ErrorHandling.body_details (ErrorHandling.content direct) = ∅ /\
  ErrorHandling.body_details (ErrorHandling.content decorated) !! "original_error"
    = Some (Py.VStr "'sku'").
Proof.
  intros type_name e.
  destruct (unexpected_error_responses type_name e (Some "req_1")
              "2024-01-01T00:00:00" eq_refl eq_refl)
    as ((_ & _ & H1) & (_ & _ & H2)).
  split; [exact H1 | exact H2].
Defined.

(** Eight lowercase letters are accepted and rated medium; seven
    characters of all four kinds are rejected. *)
Example password_examples :
  Validators.validate_password_strength "aaaaaaaa"
    = Py.Return
        {| Validators.valid := true;
           Validators.warnings :=
             ["Password should contain at least one uppercase letter";
              "Password should contain at least one number";
              "Password should contain at least one special character"];
           Validators.strength := "medium" |} /\
  Validators.validate_password_strength "Abcdef1!x"
    = Py.Return {| Validators.valid := true; Validators.warnings := [];
                   Validators.strength := "strong" |} /\
  (exists e, Validators.validate_password_strength "Ab1!xyz" = Py.Raise e).
Proof.
  repeat split. eexists. reflexivity.
Qed.

(** An order of three desks when two are in stock is refused with one
    error; an order of two is accepted with a low-stock warning. *)
Example inventory_examples :
  let inventory : gmap string Z := {[ "desk-7" := 2 ]} in
  let item := fun q => {| Validators.product_id := Some "desk-7";
                          Validators.quantity := Some q |} in
  Validators.validate_inventory_availability [item 2] inventory
    = Py.Return
        {| Validators.inventory_valid := true;
           Validators.inventory_warnings :=
             ["Product desk-7: low stock (2 remaining)"] |} /\
  Validators.validate_inventory_availability [item 3] inventory
    = Py.Raise
        (Validators.new_InventoryError "Insufficient inventory for order"
           (Some (<["errors" :=
                      Py.VList ["Product desk-7: only 2 available, 3 requested"]]>
                    {["warnings" := Py.VList []]}))).
Proof.
  split; reflexivity.
Qed.

(** ** Errors that never trip the breaker *)

Section AuthMoreFacts.
Import Py Breaker AuthMore.
Context {W A : Type}.
Variable utcnow : W -> Z.

(** X27.  The four specific DynamoDB errors (resource not found,
    conditional check failed, throughput exceeded, validation) never trip
    the breaker of [DynamoDBManager]: after any number of consecutive calls
    that fail with them, every call was dispatched and the breaker of a new
    manager is exactly as it was, CLOSED with no failure counted. *)
Theorem specific_dynamo_errors_never_trip (fails : list (ClientFailure W)) :
  all_specific fails = true ->
  calls utcnow (Auth.circuit_breaker (Auth.init None))
    (client_error_steps (A:=A) fails)
  = (Auth.circuit_breaker (Auth.init None), length fails).
Proof.
  intros Hall. induction fails as [|f rest IH]; [reflexivity|].
  cbn in Hall. apply andb_prop in Hall as [Hf Hall].
  change (client_error_steps (A:=A) (f :: rest))
    with ((Auth._execute (A:=A)
             (raising (ClientError (error_response (cf_code f) (cf_message f) None)
                         (cf_message f))
                (cf_after f)), cf_before f) :: client_error_steps rest).
  cbn [Breaker.calls].
  assert (Hcall :
    call utcnow (Auth.circuit_breaker (Auth.init None))
      (Auth._execute (A:=A)
         (raising (ClientError (error_response (cf_code f) (cf_message f) None)
                     (cf_message f))
            (cf_after f))) (cf_before f)
    = {| outcome :=
           Raise (Auth._execute_handlers
                    (ClientError (error_response (cf_code f) (cf_message f) None)
                       (cf_message f)));
         breaker := Auth.circuit_breaker (Auth.init None);
         invocations := 1; world := cf_after f |}).
  { unfold Breaker.call. cbn [on_entry Auth.circuit_breaker Auth.init Breaker.init state].
    unfold Auth._execute, raising. cbn [settle expected_exception].
    rewrite (dynamo_specific_codes_uncounted _ _ _ _ Hf). reflexivity. }
  rewrite Hcall. cbn [breaker invocations]. rewrite (IH Hall). reflexivity.
Qed.

End AuthMoreFacts.

Lemma specific_dynamo_errors_never_trip_witness :
  let fails :=
    replicate 10
      {| AuthMore.cf_before := 0;
         AuthMore.cf_code := "ProvisionedThroughputExceededException";
         AuthMore.cf_message := "Rate exceeded"; AuthMore.cf_after := 1 |} in
  Breaker.calls id (Auth.circuit_breaker (Auth.init None))
    (AuthMore.client_error_steps (A:=unit) fails)
  = (Auth.circuit_breaker (Auth.init None), 10%nat).
Proof.
  intros fails.
  exact (specific_dynamo_errors_never_trip (A:=unit) id fails eq_refl).
Defined.
